(** * Noise correlations: binning of spike trains and lagged cross-correlation

    A shallow embedding of [noise_correlations.py]:
    - [get_firing_rate]: the binning of a spike train and its jitter
      ensemble;
    - [cross_correlate]: the Pearson coefficient of every lag;
    - [noise_corr_cross]: the cross-correlation part of
      [FunctionalConnectivity.noise_corr].

    NumPy [float64] values are IEEE-754 binary64 numbers, modelled by the
    Standard Library's [spec_float] at precision 53 and maximal exponent 1024;
    arrays are lists.  A Python exception is a value of [exn], and code that
    may raise returns a [result].  The global random generator is a stream of
    draws with a position that the code advances.

    The definitions come first; the properties of the binning follow, then
    those of the cross-correlation. *)

From Stdlib Require Import ZArith List Lia Bool.
From Stdlib Require Import Floats.SpecFloat.
From Stdlib Require Import Ascii String.
From stdpp Require Import base tactics option list list_numbers strings gmap.

Set Default Proof Using "Type".

(** ** Python exceptions and the error monad *)

Inductive exn : Set :=
| IndexError        (* index out of bounds for an axis *)
| ValueError        (* negative dimensions, shapes that do not broadcast, int(nan) *)
| OverflowError     (* int(inf) *)
| UnboundLocalError (* a local variable read before assignment *).

Inductive result (A : Type) : Type :=
| Ok (a : A)
| Raise (e : exn).
Arguments Ok {A} a.
Arguments Raise {A} e.

#[global] Instance result_ret : MRet result := fun A a => Ok a.
#[global] Instance result_bind : MBind result := fun A B f r =>
  match r with
  | Ok a => f a
  | Raise e => Raise e
  end.

(** A [for] loop whose body may raise: the first exception leaves the loop. *)
Fixpoint for_each {S X : Type} (body : S -> X -> result S) (xs : list X) (s : S)
  : result S :=
  match xs with
  | [] => Ok s
  | x :: xs' =>
      match body s x with
      | Ok s' => for_each body xs' s'
      | Raise e => Raise e
      end
  end.

(** ** binary64 *)

Module B64.

Definition prec : Z := 53.
Definition emax : Z := 1024.

Definition add : spec_float -> spec_float -> spec_float := SFadd prec emax.
Definition sub : spec_float -> spec_float -> spec_float := SFsub prec emax.
Definition mul : spec_float -> spec_float -> spec_float := SFmul prec emax.
Definition div : spec_float -> spec_float -> spec_float := SFdiv prec emax.
Definition sqrt : spec_float -> spec_float := SFsqrt prec emax.
Definition leb : spec_float -> spec_float -> bool := SFleb.

Definition zero : spec_float := S754_zero false.
Definition nan : spec_float := S754_nan.

(** The float nearest to an integer (exact below [2^53]). *)
Definition of_Z (z : Z) : spec_float := binary_normalize prec emax z 0 false.

Definition one : spec_float := of_Z 1.
Definition two : spec_float := of_Z 2.

(** The float of the decimal literal [m / 10^k], for [m < 2^53] and
    [k <= 22]: both integers are floats, and the division rounds once. *)
Definition dec (m : Z) (k : Z) : spec_float := div (of_Z m) (of_Z (10 ^ k)).

(** [2^e], as a float. *)
Definition pow2 (e : Z) : spec_float := binary_normalize prec emax 1 e false.

(** The integer [±z] as a float that keeps the sign of a zero. *)
Definition of_signed (s : bool) (z : Z) : spec_float :=
  binary_normalize prec emax (cond_Zopp s z) 0 s.

(** [m / 2^k] rounded to the nearest integer, ties to the even one. *)
Definition nearest_even (m k : positive) : Z :=
  let d := (2 ^ Zpos k)%Z in
  let q := (Zpos m / d)%Z in
  let r := (Zpos m mod d)%Z in
  match (2 * r ?= d)%Z with
  | Lt => q
  | Gt => (q + 1)%Z
  | Eq => if Z.even q then q else (q + 1)%Z
  end.

(** [np.round] on a float64 (no decimals): round half to even. *)
Definition np_round (x : spec_float) : spec_float :=
  match x with
  | S754_finite s m (Zneg k) => of_signed s (nearest_even m k)
  | _ => x
  end.

(** [np.ceil] on a float64. *)
Definition np_ceil (x : spec_float) : spec_float :=
  match x with
  | S754_finite s m (Zneg k) =>
      let d := (2 ^ Zpos k)%Z in
      let q := (Zpos m / d)%Z in
      if s then of_signed true q
      else of_signed false (if (Zpos m mod d =? 0)%Z then q else (q + 1)%Z)
  | _ => x
  end.

(** The integer part of a finite float (rounding toward zero). *)
Definition trunc (x : spec_float) : option Z :=
  match x with
  | S754_zero _ => Some 0%Z
  | S754_finite s m (Zneg k) => Some (cond_Zopp s (Zpos m / 2 ^ Zpos k)%Z)
  | S754_finite s m e => Some (cond_Zopp s (Zpos m * 2 ^ e)%Z)
  | S754_infinity _ | S754_nan => None
  end.

(** Python's [int(x)] on a float. *)
Definition py_int (x : spec_float) : result Z :=
  match x with
  | S754_nan => Raise ValueError
  | S754_infinity _ => Raise OverflowError
  | _ => Ok (default 0%Z (trunc x))
  end.

(** [.astype(np.int32)]: a C cast.  A value that does not fit (and NaN or an
    infinity) is undefined in C; x86-64 gives the "integer indefinite"
    [-2^31], which is what is modelled. *)
Definition int32_indefinite : Z := (- 2 ^ 31)%Z.

Definition astype_int32 (x : spec_float) : Z :=
  match trunc x with
  | Some z => if bool_decide (- 2 ^ 31 <= z < 2 ^ 31)%Z then z else int32_indefinite
  | None => int32_indefinite
  end.

End B64.


(** ** The arithmetic of an array's element type

    The cross-correlation code uses its numbers only through these
    operations.  At [float64], the element type of every array of the
    program, they are the binary64 ones. *)

Class Arith (F : Type) : Type := {
  fzero : F;
  fadd : F -> F -> F;
  fsub : F -> F -> F;
  fmul : F -> F -> F;
  fdiv : F -> F -> F;
  fsqrt : F -> F;
  of_count : nat -> F  (* an array length, as a number *)
}.

#[global] Instance b64_arith : Arith spec_float := {|
  fzero := B64.zero;
  fadd := B64.add;
  fsub := B64.sub;
  fmul := B64.mul;
  fdiv := B64.div;
  fsqrt := B64.sqrt;
  of_count := fun n => B64.of_Z (Z.of_nat n)
|}.

(** ** NumPy arrays as lists *)

Abbreviation arr := (list spec_float).
Abbreviation arr2 := (list (list spec_float)).

(** [np.zeros(n)] *)
Definition np_zeros {F} `{Arith F} (n : Z) : result (list F) :=
  if bool_decide (n < 0)%Z then Raise ValueError
  else Ok (replicate (Z.to_nat n) fzero).

(** [np.zeros((rows, cols))] *)
Definition np_zeros2 {F} `{Arith F} (rows cols : Z) : result (list (list F)) :=
  if bool_decide (rows < 0)%Z || bool_decide (cols < 0)%Z then Raise ValueError
  else Ok (replicate (Z.to_nat rows) (replicate (Z.to_nat cols) fzero)).

(** An index into an axis of length [n]: a negative index counts from the
    end, and an index outside [-n, n) is an [IndexError]. *)
Definition norm_index (n : nat) (i : Z) : result nat :=
  if bool_decide (0 <= i < Z.of_nat n)%Z then Ok (Z.to_nat i)
  else if bool_decide (- Z.of_nat n <= i < 0)%Z then Ok (Z.to_nat (i + Z.of_nat n))
  else Raise IndexError.

Fixpoint norm_indices (n : nat) (idx : list Z) : result (list nat) :=
  match idx with
  | [] => Ok []
  | i :: idx' =>
      k ← norm_index n i;
      ks ← norm_indices n idx';
      Ok (k :: ks)
  end.

(** [a[idx]] for an integer array [idx]: the values gathered in the order of
    [idx] (a copy). *)
Definition getitem (a : arr) (idx : list Z) : result arr :=
  ks ← norm_indices (length a) idx;
  Ok (map (fun k => default B64.zero (a !! k)) ks).

(** [a[idx] = vals] for an integer array [idx] and as many values: the
    assignments are made in the order of [idx], so that of two assignments
    to one position the later one stays. *)
Definition setitem (a : arr) (idx : list Z) (vals : arr) : result arr :=
  ks ← norm_indices (length a) idx;
  Ok (fold_left (fun a' kv => <[fst kv := snd kv]> a') (combine ks vals) a).

(** [a[idx] += c] is [a[idx] = a[idx] + c]: the values are read, [c] is added
    to the copy, and the sums are written back. *)
Definition iadd_at (a : arr) (idx : list Z) (c : spec_float) : result arr :=
  tmp ← getitem a idx;
  setitem a idx (map (fun v => B64.add v c) tmp).

(** [m[row, idx] += c] on a two-dimensional array. *)
Definition iadd_at2 (m : arr2) (row : nat) (idx : list Z) (c : spec_float)
  : result arr2 :=
  match m !! row with
  | None => Raise IndexError
  | Some r => r' ← iadd_at r idx c; Ok (<[row := r']> m)
  end.

(** ** The random generator

    [np.random.random(k)] takes the next [k] draws of the global generator. *)

Record rng_state : Type := { draws : nat -> spec_float; pos : nat }.

Definition np_random_random (k : nat) (g : rng_state) : arr * rng_state :=
  (map (draws g) (seq (pos g) k), {| draws := draws g; pos := pos g + k |}).

(** ** get_firing_rate *)

(** [np.round(ts/bin_size).astype(np.int32)] *)
Definition bin_indices (ts : arr) (bin_size : spec_float) : list Z :=
  map (fun t => B64.astype_int32 (B64.np_round (B64.div t bin_size))) ts.

(** [cl_activity.copy() + ((2 * jitter_size * np.random.random(n)) - jitter_size)] *)
Definition jitter (cl_activity : arr) (jitter_size : spec_float) (u : arr) : arr :=
  zip_with B64.add cl_activity
    (map (fun r => B64.sub (B64.mul (B64.mul B64.two jitter_size) r) jitter_size) u).

(** [n_bins]: [int(np.ceil((tracking_stop-tracking_start)/bin_size))].
    The quotient is the binary64 one; by a zero [bin_size] it is infinite or
    NaN and the conversion raises, where Python floats as window bounds
    raise at the division already: in both cases the call raises. *)
Definition n_bins (bin_size tracking_start tracking_stop : spec_float) : result Z :=
  B64.py_int (B64.np_ceil (B64.div (B64.sub tracking_stop tracking_start) bin_size)).

(** One pass of the loop [for sh in range(shuffle_n)]. *)
Definition jitter_pass (cl_activity : arr) (bin_size tracking_stop jitter_size : spec_float)
    (s : arr * arr2 * rng_state) (sh : nat) : result (arr * arr2 * rng_state) :=
  let '(fr_arr, jitter_arr, g) := s in
  let '(u, g') := np_random_random (length cl_activity) g in
  let jitter_spikes := jitter cl_activity jitter_size u in
  let jitter_spikes := filter (fun t => B64.leb t tracking_stop = true) jitter_spikes in
  jitter_arr' ← iadd_at2 jitter_arr sh (bin_indices jitter_spikes bin_size) B64.one;
  if bool_decide (sh = 0%nat) then
    fr_arr' ← iadd_at fr_arr (bin_indices cl_activity bin_size) B64.one;
    Ok (fr_arr', jitter_arr', g')
  else Ok (fr_arr, jitter_arr', g').

(** The binned signal [fr_arr] and the ensemble [jitter_arr] of a spike train,
    and the generator after the draws. *)
Definition get_firing_rate (cl_activity : arr) (bin_size tracking_start tracking_stop : spec_float)
    (to_jitter : bool) (jitter_size : spec_float) (shuffle_n : Z) (g : rng_state)
  : result (arr * arr2 * rng_state) :=
  n ← n_bins bin_size tracking_start tracking_stop;
  fr_arr ← np_zeros n;
  jitter_arr ← np_zeros2 shuffle_n (Z.of_nat (length fr_arr));
  if to_jitter then
    for_each (jitter_pass cl_activity bin_size tracking_stop jitter_size)
      (seq 0 (Z.to_nat shuffle_n)) (fr_arr, jitter_arr, g)
  else
    fr_arr' ← iadd_at fr_arr (bin_indices cl_activity bin_size) B64.one;
    Ok (fr_arr', jitter_arr, g).

(** The default values of the keyword arguments. *)
Definition default_jitter_size : spec_float := B64.dec 5 3.
Definition default_shuffle_n : Z := 1000.

(** ** Slices, rows and broadcasting *)

(** [a[start:stop]]: a negative bound counts from the end, and both bounds
    are clipped to the array. *)
Definition py_slice {A} (a : list A) (start stop : Z) : list A :=
  let n := Z.of_nat (length a) in
  let clip := fun i => if bool_decide (i < 0)%Z then Z.max 0 (i + n) else Z.min i n in
  take (Z.to_nat (clip stop - clip start)) (drop (Z.to_nat (clip start)) a).

(** [enumerate(xs)] *)
Definition enumerate {A} (xs : list A) : list (nat * A) :=
  combine (seq 0 (length xs)) xs.

(** A one-dimensional value assigned to a row of [cols] entries: it has that
    length, or it has one entry, which is repeated. *)
Definition broadcast_to {A} (s : list A) (cols : nat) : result (list A) :=
  if bool_decide (length s = cols) then Ok s
  else match s with
       | [x] => Ok (replicate cols x)
       | _ => Raise ValueError
       end.

(** [m[i]] *)
Definition get_row {A} (m : list (list A)) (i : nat) : result (list A) :=
  match m !! i with
  | Some r => Ok r
  | None => Raise IndexError
  end.

(** [m[i, :] = s] *)
Definition set_row {A} (m : list (list A)) (i : nat) (s : list A)
  : result (list (list A)) :=
  r ← get_row m i;
  s' ← broadcast_to s (length r);
  Ok (<[i := s']> m).

(** [range(-bin_num, bin_num+1)], the lags of [np.arange(-bin_num, bin_num+1, 1)] *)
Definition all_bins (bin_num : Z) : list Z :=
  map (fun k => (- bin_num + Z.of_nat k)%Z) (seq 0 (Z.to_nat (2 * bin_num + 1))).

Section NoiseCorr.
Context {F : Type} `{Arith F}.

(** [np.sum] of a one-dimensional array, and of a row under [axis=1]:
    the entries are added in index order, from zero. *)
Definition np_sum (xs : list F) : F := fold_left fadd xs fzero.

(** [.mean()]: the sum divided by the number of entries.  NumPy adds an
    array of eight entries or more pairwise, which can change the last bit
    of the mean; the properties below that speak of a mean hold for every
    value of it, or for the means of both sides alike. *)
Definition np_mean (xs : list F) : F := fdiv (np_sum xs) (of_count (length xs)).

(** An elementwise operation on a row and a one-dimensional array: equal
    lengths, or one of them has a single entry. *)
Definition broadcast2 (f : F -> F -> F) (xs ys : list F) : result (list F) :=
  if bool_decide (length xs = length ys) then Ok (zip_with f xs ys)
  else match xs, ys with
       | [x], _ => Ok (map (f x) ys)
       | _, [y] => Ok (map (fun x => f x y) xs)
       | _, _ => Raise ValueError
       end.

Fixpoint traverse {X Y} (f : X -> result Y) (xs : list X) : result (list Y) :=
  match xs with
  | [] => Ok []
  | x :: xs' => y ← f x; ys ← traverse f xs'; Ok (y :: ys)
  end.

(** ** cross_correlate

    [big_x] has one row per lag.  A matrix without rows has no number of
    columns here, so its shape is not checked against [small_y]. *)
Definition cross_correlate (big_x : list (list F)) (big_x_mean : list F)
    (small_y : list F) (small_y_mean : F) : result (list F) :=
  (* reshaped_x_mean = np.reshape(big_x_mean, (big_x.shape[0], 1)) *)
  if bool_decide (length big_x_mean = length big_x) then
    (* big_x-reshaped_x_mean  and  small_y-small_y_mean *)
    let dx := zip_with (fun row m => map (fun x => fsub x m) row) big_x big_x_mean in
    let dy := map (fun y => fsub y small_y_mean) small_y in
    prods ← traverse (fun row => broadcast2 fmul row dy) dx;
    let r_num := map np_sum prods in
    let r_den :=
      map (fun row => fsqrt (fmul (np_sum (map (fun d => fmul d d) row))
                                  (np_sum (map (fun d => fmul d d) dy)))) dx in
    Ok (zip_with fdiv r_num r_den)
  else Raise ValueError.

(** ** The cross-correlation part of noise_corr *)

(** The body of [for bin_idx, one_bin in enumerate(all_bins)] without
    jitter. *)
Definition lag_pass (fr1 fr2 : list F) (bin_num : Z)
    (s : list (list F) * list F) (it : nat * Z) : result (list (list F) * list F) :=
  let '(big_x, y) := s in
  let '(bin_idx, one_bin) := it in
  let fr1_shape := Z.of_nat (length fr1) in
  let y_start := bin_num in
  let y_end := (fr1_shape - bin_num)%Z in
  let start_x := (bin_num + one_bin)%Z in
  let end_x := (fr1_shape - bin_num + one_bin)%Z in
  big_x' ← set_row big_x bin_idx (py_slice fr1 start_x end_x);
  if bool_decide (bin_idx = 0) then Ok (big_x', py_slice fr2 y_start y_end)
  else Ok (big_x', y).

(** Without jitter: the rows of the lags, then [cross_correlate]. *)
Definition correlate_real (fr1 fr2 : list F) (bin_num : Z) : result (list F) :=
  let bins := all_bins bin_num in
  let fr1_shape := Z.of_nat (length fr1) in
  let y_start := bin_num in
  let y_end := (fr1_shape - bin_num)%Z in
  big_x ← np_zeros2 (Z.of_nat (length bins)) (y_end - y_start);
  y ← np_zeros (y_end - y_start);
  '(big_x, y) ← for_each (lag_pass fr1 fr2 bin_num) (enumerate bins) (big_x, y);
  cross_correlate big_x (map np_mean big_x) y (np_mean y).

(** The body of [for bin_idx, one_bin in enumerate(all_bins)] of replicate
    [sh]. *)
Definition lag_pass_sh (fr1 : list F) (sh1 : list (list F)) (fr2 : list F)
    (sh2 : list (list F)) (bin_num : Z) (sh : nat)
    (s : list (list F) * list F * list (list F) * list F) (it : nat * Z)
  : result (list (list F) * list F * list (list F) * list F) :=
  let '(big_x, y, big_x_sh, y_sh) := s in
  let '(bin_idx, one_bin) := it in
  let fr1_shape := Z.of_nat (length fr1) in
  let y_start := bin_num in
  let y_end := (fr1_shape - bin_num)%Z in
  let start_x := (bin_num + one_bin)%Z in
  let end_x := (fr1_shape - bin_num + one_bin)%Z in
  big_x' ← (if bool_decide (sh = 0) then set_row big_x bin_idx (py_slice fr1 start_x end_x)
            else Ok big_x);
  row1 ← get_row sh1 sh;
  big_x_sh' ← set_row big_x_sh bin_idx (py_slice row1 start_x end_x);
  if bool_decide (bin_idx = 0) then
    let y' := if bool_decide (sh = 0) then py_slice fr2 y_start y_end else y in
    row2 ← get_row sh2 sh;
    Ok (big_x', y', big_x_sh', py_slice row2 y_start y_end)
  else Ok (big_x', y, big_x_sh', y_sh).

(** The body of [for sh in range(num_jitters)]. *)
Definition shuffle_pass (fr1 : list F) (sh1 : list (list F)) (fr2 : list F)
    (sh2 : list (list F)) (bin_num : Z)
    (s : list (list F) * list F * option (list F) * list (list F)) (sh : nat)
  : result (list (list F) * list F * option (list F) * list (list F)) :=
  let '(big_x, y, data, sh_data) := s in
  let bins := all_bins bin_num in
  let fr1_shape := Z.of_nat (length fr1) in
  let y_start := bin_num in
  let y_end := (fr1_shape - bin_num)%Z in
  big_x_sh ← np_zeros2 (Z.of_nat (length bins)) (y_end - y_start);
  y_sh ← np_zeros (y_end - y_start);
  '(big_x', y', big_x_sh', y_sh') ←
    for_each (lag_pass_sh fr1 sh1 fr2 sh2 bin_num sh) (enumerate bins)
      (big_x, y, big_x_sh, y_sh);
  data' ← (if bool_decide (sh = 0) then
             d ← cross_correlate big_x' (map np_mean big_x') y' (np_mean y');
             Ok (Some d)
           else Ok data);
  r ← cross_correlate big_x_sh' (map np_mean big_x_sh') y_sh' (np_mean y_sh');
  sh_data' ← set_row sh_data sh r;
  Ok (big_x', y', data', sh_data').

(** Lines 169-209 of [noise_corr]: [data], and [sh_data] with jitter.
    [data] is read when the result is saved; with no pass of the loop it
    was never assigned. *)
Definition noise_corr_cross (to_jitter : bool) (num_jitters bin_num : Z)
    (fr1 : list F) (sh1 : list (list F)) (fr2 : list F) (sh2 : list (list F))
  : result (list F * option (list (list F))) :=
  if to_jitter then
    let bins := all_bins bin_num in
    let fr1_shape := Z.of_nat (length fr1) in
    let y_start := bin_num in
    let y_end := (fr1_shape - bin_num)%Z in
    big_x ← np_zeros2 (Z.of_nat (length bins)) (y_end - y_start);
    y ← np_zeros (y_end - y_start);
    sh_data ← np_zeros2 num_jitters (Z.of_nat (length bins));
    '(_, _, data, sh_data') ←
      for_each (shuffle_pass fr1 sh1 fr2 sh2 bin_num)
        (seq 0 (Z.to_nat num_jitters)) (big_x, y, None, sh_data);
    match data with
    | Some d => Ok (d, Some sh_data')
    | None => Raise UnboundLocalError
    end
  else
    data ← correlate_real fr1 fr2 bin_num;
    Ok (data, None).

End NoiseCorr.

(** * Notions used in the statements *)

(** The array of length [n] that holds 1.0 at the positions [ks] and 0.0
    elsewhere. *)
Definition marks (n : nat) (ks : list nat) : arr :=
  map (fun j => if bool_decide (j ∈ ks) then B64.one else B64.zero) (seq 0 n).

(** An entry that is 0.0 or 1.0. *)
Definition is_01 (x : spec_float) : Prop := x = B64.zero \/ x = B64.one.

(** The sum of the entries of an integer-valued array, as an integer. *)
Definition entries_total (a : arr) : Z :=
  foldr Z.add 0%Z (map (fun x => default 0%Z (B64.trunc x)) a).

(** The draws that pass [sh] takes from the generator [g], and the bin indices
    of the jittered spikes that pass [sh] keeps. *)
Definition pass_draws (cl_activity : arr) (g : rng_state) (sh : nat) : arr :=
  map (draws g) (seq (pos g + sh * length cl_activity) (length cl_activity)).

Definition jitter_indices (cl_activity : arr) (bin_size tracking_stop jitter_size : spec_float)
    (g : rng_state) (sh : nat) : list Z :=
  bin_indices
    (filter (fun t => B64.leb t tracking_stop = true)
       (jitter cl_activity jitter_size (pass_draws cl_activity g sh)))
    bin_size.

(** The generator [g] after [p] more draws. *)
Definition rng_at (g : rng_state) (p : nat) : rng_state :=
  {| draws := draws g; pos := pos g + p |}.

(** A generator whose every draw is [u]. *)
Definition rng_const (u : spec_float) : rng_state :=
  {| draws := fun _ => u; pos := 0 |}.

(** [windowStart <= t <= windowEnd] *)
Definition in_window (tracking_start tracking_stop t : spec_float) : bool :=
  B64.leb tracking_start t && B64.leb t tracking_stop.

(** Conservation as the specification words it, at one input: without jitter
    and with every bin index in range, the entries of the signal sum up to
    the number of spikes in the window. *)
Definition conservation_at (cl_activity : arr) (bin_size tracking_start tracking_stop : spec_float)
    (shuffle_n : Z) : Prop :=
  forall n fr jit g g',
    n_bins bin_size tracking_start tracking_stop = Ok n ->
    Forall (fun i => (0 <= i < n)%Z) (bin_indices cl_activity bin_size) ->
    get_firing_rate cl_activity bin_size tracking_start tracking_stop false
      default_jitter_size shuffle_n g = Ok (fr, jit, g') ->
    entries_total fr
    = Z.of_nat (length (filter (fun t => in_window tracking_start tracking_stop t = true)
                          cl_activity)).

Section Coefficient.
Context {F : Type} `{Arith F}.

(** The deviations of an array from a mean, and the sum of their squares:
    a "denominator term" of the coefficient. *)
Definition deviations (x : list F) (m : F) : list F := map (fun v => fsub v m) x.

Definition sq_dev (x : list F) (m : F) : F :=
  np_sum (map (fun d => fmul d d) (deviations x m)).

(** The coefficient that [cross_correlate] computes for one row [x] of
    [big_x] with mean [mx], against [y] with mean [my]. *)
Definition pearson (x : list F) (mx : F) (y : list F) (my : F) : F :=
  fdiv (np_sum (zip_with fmul (deviations x mx) (deviations y my)))
       (fsqrt (fmul (sq_dev x mx) (sq_dev y my))).

(** The slice of [a] that lag [l] selects, and the coefficient of lag [l]. *)
Definition lag_slice (a : list F) (bin_num l : Z) : list F :=
  py_slice a (bin_num + l) (Z.of_nat (length a) - bin_num + l).

Definition lag_coef (a b : list F) (bin_num l : Z) : F :=
  pearson (lag_slice a bin_num l) (np_mean (lag_slice a bin_num l))
          (lag_slice b bin_num 0) (np_mean (lag_slice b bin_num 0)).

End Coefficient.

(** A slice is constant. *)
Definition constant {A} (x : list A) : Prop := exists c, Forall (fun v => v = c) x.

(** Zeros, and values that are no numbers, of binary64. *)
Definition is_zero (x : spec_float) : Prop := exists s, x = S754_zero s.

Definition non_finite (x : spec_float) : Prop :=
  x = S754_nan \/ exists s, x = S754_infinity s.

(** A zero or a NaN. *)
Definition zero_or_nan (x : spec_float) : Prop := is_zero x \/ x = S754_nan.

(** The NaN contract as the specification words it, at one input: at a lag
    with a zero denominator term the coefficient is NaN. *)
Definition nan_at_zero_denominator (big_x : arr2) (big_x_mean : arr) (small_y : arr)
    (small_y_mean : spec_float) : Prop :=
  forall r l row m,
    cross_correlate big_x big_x_mean small_y small_y_mean = Ok r ->
    big_x !! l = Some row -> big_x_mean !! l = Some m ->
    is_zero (sq_dev row m) \/ is_zero (sq_dev small_y small_y_mean) ->
    r !! l = Some S754_nan.

(** Symmetry as the specification words it, at one input: the coefficient of
    A against B at lag [l] is that of B against A at lag [-l]. *)
Definition symmetric_at (a b : arr) (bin_num l : Z) : Prop :=
  forall r_ab r_ba,
    correlate_real a b bin_num = Ok r_ab ->
    correlate_real b a bin_num = Ok r_ba ->
    r_ab !! Z.to_nat (bin_num + l) = r_ba !! Z.to_nat (bin_num - l).

(** [n - 1 < x <= n] for the number [x] of a finite float, that is
    [(-1)^s * m * 2^e]: [n] is the ceiling of [x]. *)
Definition is_ceiling (x : spec_float) (n : Z) : Prop :=
  match x with
  | S754_zero _ => n = 0%Z
  | S754_finite s m e =>
      ((n - 1) * 2 ^ Z.max 0 (- e) < cond_Zopp s (Zpos m) * 2 ^ Z.max 0 e
       <= n * 2 ^ Z.max 0 (- e))%Z
  | _ => False
  end.

(** A positive normal number from [2^-511] up to, and without, [2^511]: its
    square is a normal number too. *)
Definition squares_in_range (x : spec_float) : bool :=
  match x with
  | S754_finite false m e =>
      (2 ^ 52 <=? Zpos m)%Z && (Zpos m <? 2 ^ 53)%Z && (-563 <=? e)%Z && (e <=? 458)%Z
  | _ => false
  end.

(** The self-correlation as the specification words it, at one input: when
    the centre slice is not constant, the coefficient of the signal against
    itself at lag 0 is within [tol] of 1.0. *)
Definition unit_self_correlation_at (a : arr) (bin_num : Z) (tol : spec_float) : Prop :=
  ~ constant (lag_slice a bin_num 0) ->
  exists data v,
    correlate_real a a bin_num = Ok data /\ data !! Z.to_nat bin_num = Some v /\
    B64.leb (SFabs (B64.sub v B64.one)) tol = true.

(** * Further definitions *)

(** A matrix whose rows have one entry per lag. *)
Definition rows_of_lags {F : Type} (bin_num : Z) (m : list (list F)) : Prop :=
  Forall (fun row => length row = length (all_bins bin_num)) m.

(** ** The keyword arguments of noise_corr *)

(** The Python values that a keyword argument can hold, and their types. *)
Inductive pyval : Type :=
| PyNone
| PyBool (b : bool)
| PyInt (z : Z)
| PyFloat (x : spec_float)
| PyStr (s : string)
| PyList (l : list pyval).

Inductive pytype : Set := TNone | TBool | TInt | TFloat | TStr | TList.

#[global] Instance pytype_eq_dec : EqDecision pytype.
Proof. solve_decision. Defined.

(** [type(v)]: the type of [True] is [bool], not [int]. *)
Definition type_of (v : pyval) : pytype :=
  match v with
  | PyNone => TNone
  | PyBool _ => TBool
  | PyInt _ => TInt
  | PyFloat _ => TFloat
  | PyStr _ => TStr
  | PyList _ => TList
  end.

(** [kwargs[key] if key in kwargs.keys() and type(kwargs[key]) == T else d],
    for each type [T] that noise_corr asks for. *)
Definition kw_float (kwargs : gmap string pyval) (key : string) (d : spec_float)
  : spec_float :=
  match kwargs !! key with Some (PyFloat x) => x | _ => d end.

Definition kw_int (kwargs : gmap string pyval) (key : string) (d : Z) : Z :=
  match kwargs !! key with Some (PyInt z) => z | _ => d end.

Definition kw_bool (kwargs : gmap string pyval) (key : string) (d : bool) : bool :=
  match kwargs !! key with Some (PyBool b) => b | _ => d end.

(** The filters default to [True], which is [None] here. *)
Definition kw_str (kwargs : gmap string pyval) (key : string) : option string :=
  match kwargs !! key with Some (PyStr s) => Some s | _ => None end.

Definition kw_list (kwargs : gmap string pyval) (key : string) : option (list pyval) :=
  match kwargs !! key with Some (PyList l) => Some l | _ => None end.

Record noise_corr_options : Type := {
  opt_bin_size : spec_float;
  opt_bin_num : Z;
  opt_smooth_fr : bool;
  opt_std_smooth : spec_float;
  opt_to_jitter : bool;
  opt_num_jitters : Z;
  opt_jitter_size : spec_float;
  opt_area_filter : option (list pyval);
  opt_cluster_type_filter : option string;
  opt_profile_filter : option string;
  opt_sort_ch_num : bool;
  opt_combo_idx : Z
}.

(** Lines 99-110 of [noise_corr]. *)
Definition noise_corr_kwargs (kwargs : gmap string pyval) : noise_corr_options := {|
  opt_bin_size := kw_float kwargs "bin_size" (B64.dec 5 4);
  opt_bin_num := kw_int kwargs "bin_num" 40;
  opt_smooth_fr := kw_bool kwargs "smooth_fr" false;
  opt_std_smooth := kw_float kwargs "std_smooth" (B64.dec 1 3);
  opt_to_jitter := kw_bool kwargs "to_jitter" true;
  opt_num_jitters := kw_int kwargs "num_jitters" 1000;
  opt_jitter_size := kw_float kwargs "jitter_size" (B64.dec 5 3);
  opt_area_filter := kw_list kwargs "area_filter";
  opt_cluster_type_filter := kw_str kwargs "cluster_type_filter";
  opt_profile_filter := kw_str kwargs "profile_filter";
  opt_sort_ch_num := kw_bool kwargs "sort_ch_num" false;
  opt_combo_idx := kw_int kwargs "combo_idx" 0
|}.

(** The type that noise_corr accepts for a keyword, if it reads the keyword. *)
Definition keyword_type (key : string) : option pytype :=
  if decide (key = "bin_size") then Some TFloat
  else if decide (key = "bin_num") then Some TInt
  else if decide (key = "smooth_fr") then Some TBool
  else if decide (key = "std_smooth") then Some TFloat
  else if decide (key = "to_jitter") then Some TBool
  else if decide (key = "num_jitters") then Some TInt
  else if decide (key = "jitter_size") then Some TFloat
  else if decide (key = "area_filter") then Some TList
  else if decide (key = "cluster_type_filter") then Some TStr
  else if decide (key = "profile_filter") then Some TStr
  else if decide (key = "sort_ch_num") then Some TBool
  else if decide (key = "combo_idx") then Some TInt
  else None.

(** ** The choice of the pair of clusters *)

(** [l[i]] on a list. *)
Definition py_getitem {A} (l : list A) (i : Z) : result A :=
  k ← norm_index (length l) i;
  match l !! k with
  | Some x => Ok x
  | None => Raise IndexError
  end.

(** [list(range(start, stop, step))] for a positive [step]. *)
Definition py_range (start stop step : Z) : list Z :=
  map (fun k => (start + step * Z.of_nat k)%Z)
      (seq 0 (Z.to_nat ((stop - start + step - 1) / step))).

(** [combo_num = list(range(0, 40186, 113))[combo_idx]] *)
Definition combo_num (combo_idx : Z) : result Z :=
  py_getitem (py_range 0 40186 113) combo_idx.

(** [list(combinations(keys, 2))]: the pairs of two positions, the first
    before the second, in lexicographic order of the positions. *)
Fixpoint combinations2 {A} (keys : list A) : list (A * A) :=
  match keys with
  | [] => []
  | k :: keys' => map (pair k) keys' ++ combinations2 keys'
  end.

(** [cl_combinations[combo_num]] for the keys of the session's clusters. *)
Definition choose_pair {A} (keys : list A) (combo_idx : Z) : result (A * A) :=
  c ← combo_num combo_idx;
  py_getitem (combinations2 keys) c.

(** ** From the spike trains of a pair to the correlograms *)

(** Python's [round(x)] of a float, an [int]: ties go to the even integer. *)
Definition py_round (x : spec_float) : result Z := B64.py_int (B64.np_round x).

Section Pipeline.

(** [neural_activity.purge_spikes_beyond_tracking] and
    [scipy.ndimage.gaussian_filter1d] are not code of this file. *)
Variable purge_spikes_beyond_tracking : arr -> spec_float * spec_float -> arr.
Variable gaussian_filter1d : arr -> Z -> arr.

(** Lines 136-166 of [noise_corr]: the signals [fr1], [fr2] and the ensembles
    [sh1], [sh2]. *)
Definition noise_corr_rates (o : noise_corr_options) (act1 act2 : arr)
    (tracking_ts : spec_float * spec_float) (g : rng_state)
  : result (arr * arr2 * arr * arr2 * rng_state) :=
  let tracking_start := B64.sub (fst tracking_ts) (fst tracking_ts) in
  let tracking_stop := B64.sub (snd tracking_ts) (fst tracking_ts) in
  let sigma := py_round (B64.div (opt_std_smooth o) (opt_bin_size o)) in
  if opt_to_jitter o then
    '(fr1, sh1, g1) ← get_firing_rate act1 (opt_bin_size o) tracking_start tracking_stop
                        true (opt_jitter_size o) (opt_num_jitters o) g;
    '(fr2, sh2, g2) ← get_firing_rate act2 (opt_bin_size o) tracking_start tracking_stop
                        true (opt_jitter_size o) (opt_num_jitters o) g1;
    if opt_smooth_fr o then
      s ← sigma;
      Ok (gaussian_filter1d fr1 s, map (fun row => gaussian_filter1d row s) sh1,
          gaussian_filter1d fr2 s, map (fun row => gaussian_filter1d row s) sh2, g2)
    else Ok (fr1, sh1, fr2, sh2, g2)
  else
    '(fr1, sh1, g1) ← get_firing_rate act1 (opt_bin_size o) tracking_start tracking_stop
                        false default_jitter_size 1 g;
    '(fr2, sh2, g2) ← get_firing_rate act2 (opt_bin_size o) tracking_start tracking_stop
                        false default_jitter_size 1 g1;
    if opt_smooth_fr o then
      s ← sigma;
      Ok (gaussian_filter1d fr1 s, sh1, gaussian_filter1d fr2 s, sh2, g2)
    else Ok (fr1, sh1, fr2, sh2, g2).

(** Lines 132-209 of [noise_corr], for the spike trains of the chosen pair. *)
Definition noise_corr_compute (o : noise_corr_options) (act1 act2 : arr)
    (tracking_ts : spec_float * spec_float) (g : rng_state)
  : result (arr * option arr2 * rng_state) :=
  let act1 := purge_spikes_beyond_tracking act1 tracking_ts in
  let act2 := purge_spikes_beyond_tracking act2 tracking_ts in
  '(fr1, sh1, fr2, sh2, g') ← noise_corr_rates o act1 act2 tracking_ts g;
  '(data, sh_data) ← noise_corr_cross (opt_to_jitter o) (opt_num_jitters o)
                       (opt_bin_num o) fr1 sh1 fr2 sh2;
  Ok (data, sh_data, g').

End Pipeline.

(** * quantify_ratemaps.py: the file finder of [RatemapCharacteristics] *)

Module Ratemaps.

(** The exceptions that [file_finder] can end with; [sys.exit()] raises
    [SystemExit], and [os.listdir] of a directory that does not exist raises
    [FileNotFoundError]. *)
Inductive error : Set := KeyError | IndexError | FileNotFoundError | SystemExit.

Inductive outcome (A : Type) : Type :=
| Done (a : A)
| Fail (e : error).
Arguments Done {A} a.
Arguments Fail {A} e.

#[global] Instance outcome_ret : MRet outcome := fun A a => Done a.
#[global] Instance outcome_bind : MBind outcome := fun A B f m =>
  match m with
  | Done a => f a
  | Fail e => Fail e
  end.

(** A [for] loop whose body may raise. *)
Fixpoint loop {S X : Type} (body : S -> X -> outcome S) (xs : list X) (s : S)
  : outcome S :=
  match xs with
  | [] => Done s
  | x :: xs' =>
      match body s x with
      | Done s' => loop body xs' s'
      | Fail e => Fail e
      end
  end.

(** ** Strings

    File names, animal names and filters are strings of one-byte characters. *)

(** [sub in s] *)
Fixpoint str_in (sub s : string) : bool :=
  String.prefix sub s ||
  match s with
  | EmptyString => false
  | String _ s' => str_in sub s'
  end.

(** [s.find(sub)]: the first position where [sub] starts, or -1. *)
Fixpoint str_find (sub s : string) : Z :=
  if String.prefix sub s then 0%Z
  else match s with
       | EmptyString => (-1)%Z
       | String _ s' =>
           let i := str_find sub s' in
           if bool_decide (i < 0)%Z then (-1)%Z else (i + 1)%Z
       end.

(** [s[start:stop]] *)
Definition str_slice (s : string) (start stop : Z) : string :=
  string_of_list_ascii (py_slice (list_ascii_of_string s) start stop).

(** [any(one in s for one in subs)] *)
Definition any_in (subs : list string) (s : string) : bool :=
  existsb (fun one => str_in one s) subs.

(** [d[key]] of a dict whose items are kept in the order of the literal that
    defines it. *)
Fixpoint dict_getitem {V : Type} (d : list (string * V)) (key : string) : outcome V :=
  match d with
  | [] => Fail KeyError
  | (k, v) :: d' => if bool_decide (k = key) then Done v else dict_getitem d' key
  end.

(** [[x for x in xs if p(x)][0]] *)
Definition first_of {A : Type} (p : A -> bool) (xs : list A) : outcome A :=
  match filter (fun x => p x = true) xs with
  | x :: _ => Done x
  | [] => Fail IndexError
  end.

(** ** The class *)

(** Lines 20-35. *)
Definition areas_to_animals : list (string * list (string * list string)) :=
  [("CaPu", [("bruno", ["distal"])]);
   ("WhMa", [("bruno", ["distal"])]);
   ("S", [("bruno", ["distal"]); ("roy", ["intermediate"]);
          ("jacopo", ["intermediate"]); ("crazyjoe", ["intermediate"])]);
   ("S1HL", [("bruno", ["distal"]); ("roy", ["intermediate"]);
             ("jacopo", ["intermediate"]); ("crazyjoe", ["intermediate"])]);
   ("S1Tr", [("bruno", ["distal"]); ("jacopo", ["intermediate"]);
             ("crazyjoe", ["intermediate"])]);
   ("M", [("bruno", ["distal"]); ("roy", ["distal"; "intermediate"]);
          ("jacopo", ["distal"; "intermediate"]);
          ("crazyjoe", ["distal"; "intermediate"])]);
   ("M1", [("bruno", ["distal"]); ("roy", ["distal"; "intermediate"]);
           ("jacopo", ["distal"; "intermediate"]);
           ("crazyjoe", ["distal"; "intermediate"])]);
   ("M2", [("jacopo", ["distal"]); ("crazyjoe", ["distal"])]);
   ("PPC", [("bruno", ["distal"]); ("jacopo", ["intermediate"])]);
   ("A", [("frank", ["distal"]); ("johnjohn", ["distal"]); ("kavorka", ["distal"])]);
   ("A1", [("frank", ["distal"]); ("johnjohn", ["distal"]); ("kavorka", ["distal"])]);
   ("A2D", [("frank", ["distal"]); ("johnjohn", ["distal"]); ("kavorka", ["distal"])]);
   ("V", [("frank", ["distal"; "intermediate"]);
          ("johnjohn", ["distal"; "intermediate"]);
          ("kavorka", ["distal"; "intermediate"])]);
   ("V1", [("frank", ["distal"; "intermediate"]);
           ("johnjohn", ["distal"; "intermediate"]);
           ("kavorka", ["distal"; "intermediate"])]);
   ("V2M", [("frank", ["intermediate"]); ("johnjohn", ["intermediate"]);
            ("kavorka", ["intermediate"])]);
   ("V2L", [("frank", ["distal"]); ("johnjohn", ["distal"]); ("kavorka", ["distal"])])].

(** A filter that is [True] or a string, and one that is [True] or a list of
    strings, as the parameters are documented. *)
Inductive str_filter : Type := StrTrue | StrIs (s : string).
Inductive list_filter : Type := ListTrue | ListIs (l : list string).

(** [f is True or f in name] *)
Definition passes (f : str_filter) (name : string) : bool :=
  match f with
  | StrTrue => true
  | StrIs s => str_in s name
  end.

(** [f is True or any(one in name for one in f)] *)
Definition passes_any (f : list_filter) (name : string) : bool :=
  match f with
  | ListTrue => true
  | ListIs l => any_in l name
  end.

(** The attributes of the object that [file_finder] reads itself; the
    directories and the cluster filters only reach the file system and
    [ClusterFinder]. *)
Record RatemapCharacteristics : Type := {
  area_filter : string;
  animal_filter : list_filter;
  session_id_filter : str_filter;
  session_type_filter : str_filter;
  specific_date : gmap string list_filter
}.

(** Lines 40-47: the dates when [specific_date] is not given. *)
Definition default_specific_date : gmap string list_filter :=
  {[ "bruno" := ListIs ["020520"; "030520"];
     "roy" := ListTrue;
     "jacopo" := ListTrue;
     "crazyjoe" := ListTrue;
     "frank" := ListTrue;
     "johnjohn" := ListIs ["210520"; "220520"];
     "kavorka" := ListTrue ]}.

(** Lines 37-58, for the attributes above. *)
Definition init (area : string) (animals : list_filter) (session_id session_type : str_filter)
    (dates : option (gmap string list_filter)) : RatemapCharacteristics := {|
  area_filter := area;
  animal_filter := animals;
  session_id_filter := session_id;
  session_type_filter := session_type;
  specific_date := default default_specific_date dates
|}.

(** What the method reads from outside: whether the session directory
    exists and its listing when it does, whether the ratemap directory exists
    and its listing when it does, the animals of
    [ClusterFinder.probe_site_areas] and, for a session file, the list of
    cluster names that [ClusterFinder(...).get_desired_clusters(...)] returns
    for the filters of the object. *)
Record world : Type := {
  pkl_dir_exists : bool;
  pkl_sessions : list string;
  ratemap_dir_exists : bool;
  ratemap_files : list string;
  probe_site_animals : list string;
  get_desired_clusters : string -> list string
}.

(** [os.listdir(self.pkl_sessions_dir)] *)
Definition listdir_sessions (w : world) : outcome (list string) :=
  if pkl_dir_exists w then Done (pkl_sessions w) else Fail FileNotFoundError.

(** [self.specific_date[animal] is True or any(one_date in name for ...)] *)
Definition date_passes (self : RatemapCharacteristics) (animal name : string)
  : outcome bool :=
  match specific_date self !! animal with
  | Some dates => Done (passes_any dates name)
  | None => Fail KeyError
  end.

(** The condition of lines 110-112; the date is looked up only when the
    conjuncts before it hold. *)
Definition session_matches (self : RatemapCharacteristics) (animal bank pkl_file : string)
  : outcome bool :=
  if str_in animal pkl_file && str_in bank pkl_file
     && passes (session_id_filter self) pkl_file
     && passes (session_type_filter self) pkl_file
  then date_passes self animal pkl_file
  else Done false.

(** Lines 109-118: the first session file that matches, where the loop
    breaks. *)
Fixpoint first_session (self : RatemapCharacteristics) (animal bank : string)
    (files : list string) : outcome (option string) :=
  match files with
  | [] => Done None
  | pkl_file :: rest =>
      b ← session_matches self animal bank pkl_file;
      if b : bool then Done (Some pkl_file) else first_session self animal bank rest
  end.

Abbreviation cluster_dict := (gmap string (gmap string (list string))).

(** Lines 108-118, for one bank of one animal. *)
Definition bank_pass (w : world) (self : RatemapCharacteristics) (animal : string)
    (d : cluster_dict) (bank : string) : outcome cluster_dict :=
  files ← listdir_sessions w;
  found ← first_session self animal bank files;
  match found with
  | Some pkl_file =>
      Done (<[animal := <[bank := get_desired_clusters w pkl_file]> (d !!! animal)]> d)
  | None => Done d
  end.

(** Lines 106-118, for one animal. *)
Definition animal_pass (w : world) (self : RatemapCharacteristics)
    (d : cluster_dict) (entry : string * list string) : outcome cluster_dict :=
  let '(animal, banks) := entry in
  loop (bank_pass w self animal) banks (<[animal := ∅]> d).

(** Lines 105-118. *)
Definition collect_clusters (w : world) (self : RatemapCharacteristics)
  : outcome cluster_dict :=
  animals ← dict_getitem areas_to_animals (area_filter self);
  loop (animal_pass w self) animals ∅.

Record essential_files : Type := {
  chosen_session_1 : list string;
  chosen_session_2 : list string
}.

(** Line 127. *)
Definition animal_id_of (w : world) (file_name : string) : outcome string :=
  first_of (fun name => str_in name file_name) (probe_site_animals w).

(** Lines 128-131. *)
Definition bank_id_of (animal_id file_name : string) : outcome string :=
  if bool_decide (animal_id = "bruno") then Done "distal"
  else first_of (fun bank => str_in bank file_name) ["distal"; "intermediate"].

(** Line 132. *)
Definition cluster_id_of (file_name : string) : string :=
  str_slice file_name (str_find "imec" file_name) (str_find "imec" file_name + 18).

(** The condition of lines 140-142. *)
Definition partner_matches (self : RatemapCharacteristics)
    (animal_id bank_id cluster_id session_2_type file_name file_name_2 : string)
  : outcome bool :=
  if negb (bool_decide (file_name = file_name_2)) && str_in animal_id file_name_2
     && str_in bank_id file_name_2 && str_in cluster_id file_name_2
  then
    d ← date_passes self animal_id file_name_2;
    Done (d && str_in session_2_type file_name_2)
  else Done false.

(** Lines 139-145: the first file of the second session, where the loop
    breaks. *)
Fixpoint first_partner (self : RatemapCharacteristics)
    (animal_id bank_id cluster_id session_2_type file_name : string)
    (files : list string) : outcome (option string) :=
  match files with
  | [] => Done None
  | file_name_2 :: rest =>
      b ← partner_matches self animal_id bank_id cluster_id session_2_type
            file_name file_name_2;
      if b : bool then Done (Some file_name_2)
      else first_partner self animal_id bank_id cluster_id session_2_type file_name rest
  end.

(** Lines 124-145: the body of the loop over the ratemap files. *)
Definition file_pass (w : world) (self : RatemapCharacteristics) (seek_stability : bool)
    (session_2_type : string) (d : cluster_dict) (found : essential_files)
    (file_name : string) : outcome essential_files :=
  if passes_any (animal_filter self) file_name
     && passes (session_id_filter self) file_name
     && passes (session_type_filter self) file_name
  then
    animal_id ← animal_id_of w file_name;
    bank_id ← bank_id_of animal_id file_name;
    let cluster_id := cluster_id_of file_name in
    date_ok ← date_passes self animal_id file_name;
    match (if date_ok : bool then d !! animal_id ≫= (.!! bank_id) else None) with
    | Some clusters =>
        if bool_decide (cluster_id ∈ clusters) then
          if negb seek_stability then
            Done {| chosen_session_1 := chosen_session_1 found ++ [file_name];
                    chosen_session_2 := chosen_session_2 found |}
          else
            partner ← first_partner self animal_id bank_id cluster_id session_2_type
                        file_name (ratemap_files w);
            match partner with
            | Some file_name_2 =>
                Done {| chosen_session_1 := chosen_session_1 found ++ [file_name];
                        chosen_session_2 := chosen_session_2 found ++ [file_name_2] |}
            | None => Done found
            end
        else Done found
    | None => Done found
    end
  else Done found.

(** [kwargs[key] if key in kwargs.keys() and type(kwargs[key]) == str else d] *)
Definition kw_str_or (kwargs : gmap string pyval) (key : string) (d : string) : string :=
  match kwargs !! key with Some (PyStr s) => s | _ => d end.

(** Lines 60-152.  The two messages that the method prints are left out. *)
Definition file_finder (w : world) (self : RatemapCharacteristics)
    (kwargs : gmap string pyval) : outcome essential_files :=
  let seek_stability := kw_bool kwargs "seek_stability" false in
  let session_2_type := kw_str_or kwargs "session_2_type" "light" in
  d ← collect_clusters w self;
  if ratemap_dir_exists w then
    loop (file_pass w self seek_stability session_2_type d) (ratemap_files w)
      {| chosen_session_1 := []; chosen_session_2 := [] |}
  else Fail SystemExit.

(** Every list of clusters in [d] was returned for a session file of the
    directory whose name has the animal and the bank. *)
Definition from_sessions (w : world) (d : cluster_dict) : Prop :=
  forall animal banks bank clusters,
    d !! animal = Some banks -> banks !! bank = Some clusters ->
    exists pkl_file,
      pkl_file ∈ pkl_sessions w /\ str_in animal pkl_file = true /\
      str_in bank pkl_file = true /\ clusters = get_desired_clusters w pkl_file.

(** The bank that line 128-131 give a file name of [animal]. *)
Definition bank_named (animal bank file_name : string) : Prop :=
  (animal = "bruno" /\ bank = "distal") \/
  (animal <> "bruno" /\ bank ∈ ["distal"; "intermediate"] /\ str_in bank file_name = true).

(** What makes [file_finder] choose a file name: it passes the filters of
    the object, it names an animal of the probes, and its cluster is among
    the clusters found for that animal and the bank of the file. *)
Definition selected (w : world) (self : RatemapCharacteristics) (d : cluster_dict)
    (file_name : string) : Prop :=
  passes_any (animal_filter self) file_name = true /\
  passes (session_id_filter self) file_name = true /\
  passes (session_type_filter self) file_name = true /\
  exists animal bank clusters,
    animal ∈ probe_site_animals w /\ str_in animal file_name = true /\
    bank_named animal bank file_name /\
    d !! animal ≫= (.!! bank) = Some clusters /\
    cluster_id_of file_name ∈ clusters.

(** A file of the first session and the file of the second session chosen
    for it. *)
Definition stability_pair (w : world) (session_2_type file_name file_name_2 : string)
  : Prop :=
  file_name <> file_name_2 /\ file_name_2 ∈ ratemap_files w /\
  str_in (cluster_id_of file_name) file_name_2 = true /\
  str_in session_2_type file_name_2 = true.

End Ratemaps.
(** * Properties of the array operations *)

Lemma bind_Ok {A B} (r : result A) (f : A -> result B) (b : B) :
  r ≫= f = Ok b <-> exists a, r = Ok a /\ f a = Ok b.
Proof.
  destruct r as [a|e]; simpl; split.
  - intros H. exists a. done.
  - intros (a' & [= <-] & H). done.
  - done.
  - intros (a' & ? & _). done.
Qed.

Ltac inv_bind H :=
  repeat match type of H with
         | _ ≫= _ = Ok _ =>
             let a := fresh "a" in
             let Ha := fresh "Ha" in
             apply bind_Ok in H as (a & Ha & H)
         | Ok _ = Ok _ => injection H as H
         end.

Lemma norm_index_Ok n i k :
  norm_index n i = Ok k ->
  k < n /\ ((0 <= i)%Z -> k = Z.to_nat i) /\ ((i < 0)%Z -> Z.of_nat k = (Z.of_nat n + i)%Z).
Proof.
  unfold norm_index. repeat case_bool_decide; intros [= <-]; lia.
Qed.

Lemma norm_index_Raise n i :
  (i < - Z.of_nat n \/ Z.of_nat n <= i)%Z -> norm_index n i = Raise IndexError.
Proof.
  intros H. unfold norm_index. repeat case_bool_decide; try lia. done.
Qed.

Lemma norm_index_nonneg n i :
  (0 <= i < Z.of_nat n)%Z -> norm_index n i = Ok (Z.to_nat i).
Proof. intros H. unfold norm_index. by rewrite bool_decide_eq_true_2. Qed.

Lemma norm_index_neg n i :
  (- Z.of_nat n <= i < 0)%Z -> norm_index n i = Ok (Z.to_nat (Z.of_nat n + i)).
Proof.
  intros H. unfold norm_index.
  rewrite bool_decide_eq_false_2 by lia. rewrite bool_decide_eq_true_2 by lia.
  do 2 f_equal. lia.
Qed.

Lemma norm_indices_Ok n idx ks :
  norm_indices n idx = Ok ks -> Forall2 (fun i k => norm_index n i = Ok k) idx ks.
Proof.
  revert ks. induction idx as [|i idx IH]; intros ks H; simpl in H.
  - injection H as <-. constructor.
  - inv_bind H. subst ks. constructor; auto.
Qed.

Lemma norm_indices_Raise n idx i :
  i ∈ idx -> (i < - Z.of_nat n \/ Z.of_nat n <= i)%Z ->
  exists e, norm_indices n idx = Raise e.
Proof.
  intros Hin Hi. induction idx as [|j idx IH]; [by apply not_elem_of_nil in Hin|].
  apply elem_of_cons in Hin as [<-|Hin]; simpl.
  - rewrite norm_index_Raise by done. by eexists.
  - destruct (norm_index n j) as [k|e]; simpl; [|by eexists].
    destruct (IH Hin) as [e ->]. by eexists.
Qed.

(** The only exception of an index computation is [IndexError]. *)
Lemma norm_indices_exn n idx e : norm_indices n idx = Raise e -> e = IndexError.
Proof.
  induction idx as [|j idx IH]; simpl; [done|].
  unfold norm_index. repeat case_bool_decide; simpl;
    destruct (norm_indices n idx); simpl; by (intros [= <-]; auto).
Qed.

Lemma norm_indices_bound n idx ks :
  norm_indices n idx = Ok ks -> Forall (fun k => k < n) ks.
Proof.
  intros H%norm_indices_Ok. induction H as [|i k idx ks Hi _ IH]; constructor; auto.
  by apply norm_index_Ok in Hi as [? _].
Qed.

(** Writing [g k] at every position [k] of [ks], in order. *)
Lemma setitem_fold (h : nat -> spec_float) (c : spec_float) ks (acc : arr) :
  fold_left (fun a' kv => <[fst kv := snd kv]> a')
    (combine ks (map (fun v => B64.add v c) (map h ks))) acc
  = fold_left (fun a' k => <[k := B64.add (h k) c]> a') ks acc.
Proof.
  revert acc. induction ks as [|k ks IH]; intros acc; simpl; [done|]. by rewrite IH.
Qed.

Lemma fold_insert_lookup (f : nat -> spec_float) ks (acc : arr) j :
  fold_left (fun a' k => <[k := f k]> a') ks acc !! j
  = if bool_decide (j ∈ ks) then (fun _ => f j) <$> acc !! j else acc !! j.
Proof.
  revert acc. induction ks as [|k ks IH]; intros acc; cbn [fold_left].
  - rewrite bool_decide_eq_false_2; [done|]. apply not_elem_of_nil.
  - rewrite IH. destruct (decide (j = k)) as [->|Hne].
    + rewrite (bool_decide_eq_true_2 (k ∈ k :: ks)) by (by left).
      destruct (decide (k < length acc)) as [Hlt|Hge].
      * rewrite list_lookup_insert_eq by done.
        destruct (lookup_lt_is_Some_2 acc k Hlt) as [x ->]. simpl.
        by case_bool_decide.
      * rewrite list_insert_ge by lia.
        rewrite (lookup_ge_None_2 acc k) by lia. simpl. by case_bool_decide.
    + rewrite list_lookup_insert_ne by done.
      rewrite (bool_decide_ext (j ∈ k :: ks) (j ∈ ks)); [done|].
      rewrite elem_of_cons. split; [intros [?|?]; [congruence|done]|by right].
Qed.

(** [a[idx] += c] adds [c] once at every position that [idx] names, however
    often it names it, and nowhere else. *)
Lemma iadd_at_Ok a idx c a' :
  iadd_at a idx c = Ok a' <->
  exists ks, norm_indices (length a) idx = Ok ks /\
    a' = imap (fun j x => if bool_decide (j ∈ ks) then B64.add x c else x) a.
Proof.
  assert (Hfold : forall ks,
    fold_left (fun a' kv => <[fst kv := snd kv]> a')
      (combine ks (map (fun v => B64.add v c)
         (map (fun k => default B64.zero (a !! k)) ks))) a
    = imap (fun j x => if bool_decide (j ∈ ks) then B64.add x c else x) a).
  { intros ks. rewrite setitem_fold. apply list_eq. intros j.
    rewrite fold_insert_lookup, list_lookup_imap.
    destruct (a !! j) as [x|]; simpl; by case_bool_decide. }
  unfold iadd_at, getitem, setitem. split.
  - intros H. apply bind_Ok in H as (tmp & Htmp & H).
    apply bind_Ok in Htmp as (ks & Hks & [= <-]).
    rewrite Hks in H. simpl in H. injection H as <-.
    exists ks. split; [done|]. apply Hfold.
  - intros (ks & Hks & ->). rewrite Hks. simpl. by rewrite Hfold.
Qed.

Lemma iadd_at_length a idx c a' : iadd_at a idx c = Ok a' -> length a' = length a.
Proof. intros (ks & _ & ->)%iadd_at_Ok. apply length_imap. Qed.

Lemma iadd_at_exn a idx c e : iadd_at a idx c = Raise e -> e = IndexError.
Proof.
  unfold iadd_at, getitem, setitem.
  destruct (norm_indices (length a) idx) as [ks|e'] eqn:Hks; simpl.
  - done.
  - intros [= <-]. by apply norm_indices_exn in Hks.
Qed.
Lemma lookup_marks n ks j :
  marks n ks !! j
  = if bool_decide (j < n) then Some (if bool_decide (j ∈ ks) then B64.one else B64.zero)
    else None.
Proof.
  unfold marks. rewrite list_lookup_fmap. case_bool_decide as Hj.
  - by rewrite lookup_seq_lt.
  - rewrite lookup_ge_None_2; [done|]. rewrite length_seq. lia.
Qed.

Lemma length_marks n ks : length (marks n ks) = n.
Proof. unfold marks. by rewrite length_map, length_seq. Qed.

Lemma iadd_at_zeros n idx a' :
  iadd_at (replicate n B64.zero) idx B64.one = Ok a' <->
  exists ks, norm_indices n idx = Ok ks /\ a' = marks n ks.
Proof.
  rewrite iadd_at_Ok, length_replicate.
  assert (Heq : forall ks,
    imap (fun j x => if bool_decide (j ∈ ks) then B64.add x B64.one else x)
      (replicate n B64.zero) = marks n ks).
  { intros ks. apply list_eq. intros j.
    rewrite list_lookup_imap, lookup_marks. destruct (decide (j < n)) as [Hj|Hj].
    - rewrite lookup_replicate_2, (bool_decide_eq_true_2 (j < n)) by done. reflexivity.
    - rewrite (proj1 (lookup_replicate_None n B64.zero j)), (bool_decide_eq_false_2 (j < n));
        [done|done|lia]. }
  split; intros (ks & Hks & ->); exists ks; by rewrite Heq in *.
Qed.

Lemma marks_01 n ks : Forall is_01 (marks n ks).
Proof.
  unfold marks. apply Forall_forall. intros x (j & -> & _)%list_elem_of_fmap.
  case_bool_decide; [by right|by left].
Qed.

Lemma replicate_zero_01 n : Forall is_01 (replicate n B64.zero).
Proof. apply Forall_replicate. by left. Qed.

Lemma entries_total_marks_filter (ks l : list nat) :
  entries_total (map (fun j => if bool_decide (j ∈ ks) then B64.one else B64.zero) l)
  = Z.of_nat (length (filter (fun j => j ∈ ks) l)).
Proof.
  unfold entries_total. induction l as [|j l IH]; [done|].
  rewrite filter_cons. cbn [map foldr]. rewrite IH.
  case_bool_decide as Hj.
  - rewrite decide_True by done. cbn [length]. change (default 0%Z (B64.trunc B64.one)) with 1%Z. lia.
  - rewrite decide_False by done. change (default 0%Z (B64.trunc B64.zero)) with 0%Z. lia.
Qed.

(** The sum of [marks n ks] is the number of distinct positions in [ks]. *)
Lemma entries_total_marks n ks :
  Forall (fun k => k < n) ks ->
  entries_total (marks n ks) = Z.of_nat (length (remove_dups ks)).
Proof.
  intros Hks. unfold marks. rewrite entries_total_marks_filter. f_equal.
  apply Permutation_length, NoDup_Permutation.
  - apply NoDup_filter, NoDup_seq.
  - apply NoDup_remove_dups.
  - intros j. rewrite list_elem_of_filter, elem_of_remove_dups, elem_of_seq.
    rewrite Forall_forall in Hks. split; [by intros [? _]|].
    intros Hj. split; [done|]. specialize (Hks j Hj). lia.
Qed.

Lemma remove_dups_NoDup_length (ks : list nat) :
  NoDup ks -> length (remove_dups ks) = length ks.
Proof.
  intros Hnd. apply Permutation_length, NoDup_Permutation; [apply NoDup_remove_dups|done|].
  intros j. apply elem_of_remove_dups.
Qed.

(** * What [get_firing_rate] returns *)

Lemma np_zeros_Ok n a :
  np_zeros n = Ok a <-> (0 <= n)%Z /\ a = replicate (Z.to_nat n) B64.zero.
Proof.
  unfold np_zeros. case_bool_decide; split.
  - done.
  - intros [? _]. lia.
  - intros [= <-]. split; [lia|done].
  - by intros [_ ->].
Qed.

Lemma np_zeros2_Ok rows cols m :
  np_zeros2 rows cols = Ok m <->
  (0 <= rows)%Z /\ (0 <= cols)%Z /\
  m = replicate (Z.to_nat rows) (replicate (Z.to_nat cols) B64.zero).
Proof.
  unfold np_zeros2. do 2 case_bool_decide; simpl; split;
    try done; try (intros (? & ? & _); lia).
  - intros [= <-]. repeat split; lia.
  - by intros (_ & _ & ->).
Qed.

Lemma iadd_at2_Ok m row idx c m' :
  iadd_at2 m row idx c = Ok m' <->
  exists r r', m !! row = Some r /\ iadd_at r idx c = Ok r' /\ m' = <[row := r']> m.
Proof.
  unfold iadd_at2. destruct (m !! row) as [r|]; split.
  - intros (r' & Hr' & [= <-])%bind_Ok. by exists r, r'.
  - intros (r0 & r' & [= <-] & Hr' & ->). by rewrite Hr'.
  - done.
  - by intros (? & ? & ? & _).
Qed.
Lemma jitter_pass_Ok cl bin stop js g a fr jit s' :
  jitter_pass cl bin stop js (fr, jit, rng_at g (a * length cl)) a = Ok s' <->
  exists r r' fr',
    jit !! a = Some r /\
    iadd_at r (jitter_indices cl bin stop js g a) B64.one = Ok r' /\
    (if bool_decide (a = 0) then iadd_at fr (bin_indices cl bin) B64.one = Ok fr'
     else fr' = fr) /\
    s' = (fr', <[a := r']> jit, rng_at g (S a * length cl)).
Proof.
  unfold jitter_pass, np_random_random, rng_at. cbn [draws pos].
  fold (pass_draws cl g a). fold (jitter_indices cl bin stop js g a).
  replace (pos g + a * length cl + length cl) with (pos g + S a * length cl) by lia.
  rewrite bind_Ok. setoid_rewrite iadd_at2_Ok. split.
  - intros (jit1 & (r & r' & Hr & Hr' & ->) & H). exists r, r'.
    case_bool_decide.
    + apply bind_Ok in H as (fr' & Hfr & [= <-]). by exists fr'.
    + injection H as <-. by exists fr.
  - intros (r & r' & fr' & Hr & Hr' & Hfr & ->). eexists. split; [by exists r, r'|].
    case_bool_decide; [by rewrite Hfr|by subst].
Qed.

Lemma jitter_loop_Ok cl bin stop js g k : forall a fr jit fr' jit' g',
  for_each (jitter_pass cl bin stop js) (seq a k) (fr, jit, rng_at g (a * length cl))
    = Ok (fr', jit', g') ->
  g' = rng_at g ((a + k) * length cl) /\
  length jit' = length jit /\
  (forall sh, a <= sh < a + k ->
     exists r r', jit !! sh = Some r /\
       iadd_at r (jitter_indices cl bin stop js g sh) B64.one = Ok r' /\
       jit' !! sh = Some r') /\
  (forall sh, ~ (a <= sh < a + k) -> jit' !! sh = jit !! sh) /\
  (if bool_decide (a = 0 /\ 0 < k)
   then iadd_at fr (bin_indices cl bin) B64.one = Ok fr' else fr' = fr).
Proof.
  induction k as [|k IH]; intros a fr jit fr' jit' g' H; cbn [seq for_each] in H.
  - injection H as <- <- <-. replace (a + 0) with a by lia.
    repeat split; try done; try (intros; lia).
    rewrite bool_decide_eq_false_2 by lia. done.
  - destruct (jitter_pass cl bin stop js (fr, jit, rng_at g (a * length cl)) a)
      as [s1|e] eqn:Hpass; [|done].
    apply jitter_pass_Ok in Hpass as (r & r' & fr1 & Hr & Hr' & Hfr & ->).
    apply IH in H as (-> & Hlen & Hin & Hout & Hfr').
    rewrite length_insert in Hlen.
    rewrite (bool_decide_eq_false_2 (S a = 0 /\ 0 < k)) in Hfr' by lia. subst fr'.
    split; [f_equal; lia|]. split; [done|]. split; [|split].
    + intros sh Hsh. destruct (decide (sh = a)) as [->|Hne].
      * exists r, r'. split; [done|]. split; [done|].
        rewrite Hout by lia. apply list_lookup_insert_eq. by eapply lookup_lt_Some.
      * destruct (Hin sh) as (r0 & r0' & Hr0 & Hr0' & Hj); [lia|].
        rewrite list_lookup_insert_ne in Hr0 by done. by exists r0, r0'.
    + intros sh Hsh. rewrite Hout by lia. apply list_lookup_insert_ne. lia.
    + destruct (decide (a = 0)) as [->|Hne].
      * rewrite bool_decide_eq_true_2 by lia. by rewrite bool_decide_eq_true_2 in Hfr.
      * rewrite bool_decide_eq_false_2 by lia. by rewrite bool_decide_eq_false_2 in Hfr.
Qed.

Lemma rng_at_0 g : rng_at g 0 = g.
Proof. destruct g as [d p]. unfold rng_at. cbn [draws pos]. f_equal. lia. Qed.

(** Without jitter: the real signal marks the bins of the spikes, and the
    ensemble array is returned as it was allocated. *)
Lemma get_firing_rate_plain cl bin start stop js N g fr jit g' :
  get_firing_rate cl bin start stop false js N g = Ok (fr, jit, g') <->
  exists n ks,
    n_bins bin start stop = Ok n /\ (0 <= n)%Z /\ (0 <= N)%Z /\
    norm_indices (Z.to_nat n) (bin_indices cl bin) = Ok ks /\
    fr = marks (Z.to_nat n) ks /\
    jit = replicate (Z.to_nat N) (replicate (Z.to_nat n) B64.zero) /\
    g' = g.
Proof.
  unfold get_firing_rate. rewrite bind_Ok. split.
  - intros (n & Hn & H). apply bind_Ok in H as (fr0 & [Hn0 ->]%np_zeros_Ok & H).
    apply bind_Ok in H as (jit0 & (HN & _ & ->)%np_zeros2_Ok & H).
    apply bind_Ok in H as (fr1 & (ks & Hks & ->)%iadd_at_zeros & [= <- <- <-]).
    rewrite length_replicate, Nat2Z.id. by exists n, ks.
  - intros (n & ks & Hn & Hn0 & HN & Hks & -> & -> & ->). exists n. split; [done|].
    rewrite (proj2 (np_zeros_Ok n _) (conj Hn0 eq_refl)). cbn [mbind result_bind].
    rewrite length_replicate.
    rewrite (proj2 (np_zeros2_Ok N _ _) (conj HN (conj (Nat2Z.is_nonneg _) eq_refl))).
    cbn [mbind result_bind].
    rewrite (proj2 (iadd_at_zeros _ _ _) (ex_intro _ ks (conj Hks eq_refl))).
    cbn [mbind result_bind]. by rewrite Nat2Z.id.
Qed.

(** With jitter: row [sh] of the ensemble marks the bins of the spikes that
    pass [sh] jittered and kept; the real signal is binned in pass 0. *)
Lemma get_firing_rate_jitter cl bin start stop js N g fr jit g' :
  get_firing_rate cl bin start stop true js N g = Ok (fr, jit, g') ->
  exists n,
    n_bins bin start stop = Ok n /\ (0 <= n)%Z /\ (0 <= N)%Z /\
    length jit = Z.to_nat N /\
    (forall sh, sh < Z.to_nat N ->
       exists ks,
         norm_indices (Z.to_nat n) (jitter_indices cl bin stop js g sh) = Ok ks /\
         jit !! sh = Some (marks (Z.to_nat n) ks)) /\
    (if bool_decide (0 < N)%Z
     then exists ks, norm_indices (Z.to_nat n) (bin_indices cl bin) = Ok ks /\
                     fr = marks (Z.to_nat n) ks
     else fr = replicate (Z.to_nat n) B64.zero).
Proof.
  unfold get_firing_rate. intros H.
  apply bind_Ok in H as (n & Hn & H).
  apply bind_Ok in H as (fr0 & [Hn0 ->]%np_zeros_Ok & H).
  apply bind_Ok in H as (jit0 & (HN & _ & ->)%np_zeros2_Ok & H).
  rewrite length_replicate, Nat2Z.id in H.
  rewrite <- (rng_at_0 g) in H at 1.
  change (rng_at g 0) with (rng_at g (0 * length cl)) in H.
  apply jitter_loop_Ok in H as (_ & Hlen & Hin & _ & Hfr).
  rewrite length_replicate in Hlen.
  exists n. repeat (split; [done|]). split.
  - intros sh Hsh. destruct (Hin sh) as (r & r' & Hr & Hr' & Hj); [lia|].
    rewrite lookup_replicate_2 in Hr by done. injection Hr as <-.
    apply iadd_at_zeros in Hr' as (ks & Hks & ->). by exists ks.
  - destruct (decide (0 < N)%Z) as [Hpos|Hneg].
    + rewrite bool_decide_eq_true_2 by done.
      rewrite bool_decide_eq_true_2 in Hfr by lia. by apply iadd_at_zeros in Hfr.
    + rewrite bool_decide_eq_false_2 by done.
      rewrite bool_decide_eq_false_2 in Hfr by lia. done.
Qed.

(** Indices in [[0, n)] are used as they are. *)
Lemma norm_indices_in_range n (idx : list Z) :
  Forall (fun i => (0 <= i < Z.of_nat n)%Z) idx ->
  norm_indices n idx = Ok (map Z.to_nat idx).
Proof.
  induction 1 as [|i idx Hi _ IH]; [done|].
  cbn [norm_indices map]. rewrite norm_index_nonneg by done.
  cbn [mbind result_bind]. by rewrite IH.
Qed.

Lemma NoDup_to_nat (idx : list Z) :
  Forall (fun i => (0 <= i)%Z) idx -> NoDup idx -> NoDup (map Z.to_nat idx).
Proof.
  induction 1 as [|i idx Hi Hall IH]; intros Hnd; [constructor|].
  apply NoDup_cons in Hnd as [Hni Hnd]. cbn [map]. apply NoDup_cons. split; [|auto].
  intros (j & Hj & Hin)%list_elem_of_fmap. apply Hni.
  rewrite Forall_forall in Hall. specialize (Hall j Hin).
  replace i with j by lia. done.
Qed.

(** * Rounding in binary64 *)

(** ** The number of binary digits *)

Lemma digits2_pos_bounds (p : positive) :
  (2 ^ (Zpos (digits2_pos p) - 1) <= Zpos p < 2 ^ Zpos (digits2_pos p))%Z.
Proof.
  induction p as [p IH|p IH|]; cbn [digits2_pos].
  - rewrite Pos2Z.inj_succ. replace (Z.succ (Zpos (digits2_pos p)) - 1)%Z
      with (Z.succ (Zpos (digits2_pos p) - 1)) by lia.
    rewrite !Z.pow_succ_r by lia. lia.
  - rewrite Pos2Z.inj_succ. replace (Z.succ (Zpos (digits2_pos p)) - 1)%Z
      with (Z.succ (Zpos (digits2_pos p) - 1)) by lia.
    rewrite !Z.pow_succ_r by lia. lia.
  - cbn. lia.
Qed.

Lemma digits2_pos_unique (p : positive) (k : Z) :
  (2 ^ (k - 1) <= Zpos p < 2 ^ k)%Z -> Zpos (digits2_pos p) = k.
Proof.
  intros [Hlo Hhi]. pose proof (digits2_pos_bounds p) as [Hlo' Hhi'].
  set (d := Zpos (digits2_pos p)) in *.
  assert (Hk : (0 < k)%Z).
  { destruct (Z_lt_le_dec 0%Z k) as [|Hk]; [done|]. exfalso.
    destruct (Z.eq_dec k 0%Z) as [->|Hk0]; [cbn in Hhi; lia|].
    rewrite (Z.pow_neg_r 2 k) in Hhi by lia. lia. }
  destruct (Z_lt_le_dec d k) as [Hdk|Hdk].
  - assert (2 ^ d <= 2 ^ (k - 1))%Z by (apply Z.pow_le_mono_r; lia). lia.
  - destruct (Z_lt_le_dec k d) as [Hkd|Hkd]; [|lia].
    assert (2 ^ k <= 2 ^ (d - 1))%Z by (apply Z.pow_le_mono_r; lia). lia.
Qed.

Lemma digits2_pos_53 (p : positive) :
  (2 ^ 52 <= Zpos p < 2 ^ 53)%Z -> digits2_pos p = 53%positive.
Proof.
  intros Hp. assert (Zpos (digits2_pos p) = 53%Z) by (by apply digits2_pos_unique). lia.
Qed.

(** ** Shifting a mantissa to the right *)

Lemma iter_pos_nat {A} (f : A -> A) (p : positive) (x : A) :
  SpecFloat.iter_pos f p x = Nat.iter (Pos.to_nat p) f x.
Proof.
  revert x. induction p as [p IH|p IH|]; intros x; cbn [SpecFloat.iter_pos].
  - rewrite !IH, Pos2Nat.inj_xI.
    replace (S (2 * Pos.to_nat p)) with (Pos.to_nat p + (Pos.to_nat p + 1)) by lia.
    by rewrite !Nat.iter_add.
  - rewrite !IH, Pos2Nat.inj_xO.
    replace (2 * Pos.to_nat p) with (Pos.to_nat p + Pos.to_nat p) by lia.
    by rewrite Nat.iter_add.
  - done.
Qed.

Lemma shr_1_nonneg (m : Z) (r s : bool) :
  (0 <= m)%Z ->
  shr_1 (Build_shr_record m r s) = Build_shr_record (Z.div2 m) (Z.odd m) (r || s).
Proof. intros Hm. destruct m as [|[p|p|]|p]; try done; lia. Qed.

(** After [n] shifts of [m]: the mantissa is the quotient by [2^n], the
    round bit says whether the remainder reaches half of [2^n], and the
    sticky bit whether anything is left below. *)
Lemma shr_iter_exact (n : nat) (m : Z) :
  (0 <= m)%Z ->
  exists mk rk sk low,
    Nat.iter n shr_1 (Build_shr_record m false false) = Build_shr_record mk rk sk /\
    (0 <= mk)%Z /\ (0 <= low < 2 ^ Z.of_nat n)%Z /\
    (2 * m = 2 * mk * 2 ^ Z.of_nat n + (if rk then 2 ^ Z.of_nat n else 0) + low)%Z /\
    (sk = true <-> low <> 0%Z).
Proof.
  intros Hm. induction n as [|n (mk & rk & sk & low & Hrec & Hmk & Hlow & Heq & Hsk)].
  - exists m, false, false, 0%Z. cbn. repeat split; try lia; done.
  - rewrite Nat.iter_succ, Hrec, shr_1_nonneg by done.
    rewrite Nat2Z.inj_succ, Z.pow_succ_r by lia.
    set (P := (2 ^ Z.of_nat n)%Z) in *.
    assert (HP : (0 < P)%Z) by (apply Z.pow_pos_nonneg; lia).
    exists (Z.div2 mk), (Z.odd mk), (rk || sk), ((if rk then P else 0) + low)%Z.
    split; [done|]. split; [by apply Z.div2_nonneg|].
    pose proof (Z.div2_odd mk) as Hodd.
    split; [destruct rk; lia|]. split.
    + destruct (Z.odd mk); cbn [Z.b2z] in Hodd; nia.
    + destruct rk, sk; cbn [orb]; split; try done; try lia.
Qed.

Lemma shr_iter_nonneg (n : nat) (mrs : shr_record) :
  (0 <= shr_m mrs)%Z ->
  (0 <= shr_m (Nat.iter n shr_1 mrs))%Z /\
  (shr_m (Nat.iter n shr_1 mrs) * 2 ^ Z.of_nat n <= shr_m mrs)%Z.
Proof.
  intros Hm. induction n as [|n [IH1 IH2]]; [cbn; lia|].
  rewrite Nat.iter_succ. destruct (Nat.iter n shr_1 mrs) as [mk rk sk]. cbn [shr_m] in *.
  rewrite shr_1_nonneg by done. cbn [shr_m].
  rewrite Nat2Z.inj_succ, Z.pow_succ_r by lia.
  assert (HP : (0 < 2 ^ Z.of_nat n)%Z) by (apply Z.pow_pos_nonneg; lia).
  pose proof (Z.div2_odd mk). destruct (Z.odd mk); cbn [Z.b2z] in *; nia.
Qed.

(** Rounding to nearest after [n] shifts moves [m] by at most half of
    [2^n]. *)
Lemma round_shr_close (n : nat) (m : Z) :
  (0 <= m)%Z ->
  let mrs := Nat.iter n shr_1 (Build_shr_record m false false) in
  let M := round_nearest_even (shr_m mrs) (loc_of_shr_record mrs) in
  (0 <= M)%Z /\ (- 2 ^ Z.of_nat n <= 2 * (M * 2 ^ Z.of_nat n - m) <= 2 ^ Z.of_nat n)%Z.
Proof.
  intros Hm. destruct (shr_iter_exact n m Hm) as (mk & rk & sk & low & -> & Hmk & Hlow & Heq & Hsk).
  cbn [shr_m loc_of_shr_record].
  set (P := (2 ^ Z.of_nat n)%Z) in *.
  destruct rk, sk; cbn [round_nearest_even].
  - assert (low <> 0)%Z by by apply Hsk. nia.
  - assert (low = 0)%Z by (destruct (Z.eq_dec low 0%Z) as [|Hne]; [done|]; by apply Hsk in Hne).
    destruct (Z.even mk); nia.
  - assert (low <> 0)%Z by by apply Hsk. nia.
  - assert (low = 0)%Z by (destruct (Z.eq_dec low 0%Z) as [|Hne]; [done|]; by apply Hsk in Hne).
    nia.
Qed.

(** ** Rounding a mantissa and an exponent to a binary64 number *)

Lemma fexp_normal (x : Z) : (-1021 <= x)%Z -> fexp 53 1024 x = (x - 53)%Z.
Proof. unfold fexp, emin. lia. Qed.

Lemma loc_of_shr_record_of_loc (m : Z) (l : location) :
  loc_of_shr_record (shr_record_of_loc m l) = l.
Proof. by destruct l as [|[]]. Qed.

Lemma shr_m_of_loc (m : Z) (l : location) : shr_m (shr_record_of_loc m l) = m.
Proof. by destruct l as [|[]]. Qed.

(** A mantissa of 53 digits is not shifted. *)
Lemma shr_fexp_noshift (m e : Z) (l : location) :
  (2 ^ 52 <= m < 2 ^ 53)%Z -> (-1074 <= e)%Z ->
  shr_fexp 53 1024 m e l = (shr_record_of_loc m l, e).
Proof.
  intros Hm He. unfold shr_fexp, shr. destruct m as [|p|p]; try lia.
  cbn [Zdigits2]. rewrite (digits2_pos_53 p) by done.
  rewrite fexp_normal by lia.
  replace (53 + e - 53 - e)%Z with 0%Z by lia. done.
Qed.

Lemma binary_round_aux_noshift (s : bool) (m e : Z) (l : location) :
  (2 ^ 52 <= m < 2 ^ 53)%Z -> (-1074 <= e <= 971)%Z ->
  (round_nearest_even m l < 2 ^ 53)%Z ->
  binary_round_aux 53 1024 s m e l
  = S754_finite s (Z.to_pos (round_nearest_even m l)) e.
Proof.
  intros Hm He HM. unfold binary_round_aux.
  rewrite shr_fexp_noshift by (done || lia).
  rewrite shr_m_of_loc, loc_of_shr_record_of_loc.
  assert (Hge : (m <= round_nearest_even m l)%Z).
  { destruct l as [|[]]; cbn [round_nearest_even]; try lia. destruct (Z.even m); lia. }
  rewrite shr_fexp_noshift by lia. cbn [shr_record_of_loc shr_m].
  destruct (round_nearest_even m l) as [|M|M] eqn:E; try lia.
  rewrite (Zle_imp_le_bool e (1024 - 53)) by lia. done.
Qed.

(** An exact mantissa of more than 53 digits is rounded to 53 digits. *)
Lemma binary_round_aux_shift (s : bool) (p : positive) (e n : Z) :
  (Zpos (digits2_pos p) = 53 + n)%Z -> (0 < n)%Z -> (-1074 <= e + n <= 971)%Z ->
  (2 * Zpos p + 2 ^ n < 2 * 2 ^ 53 * 2 ^ n)%Z ->
  exists M : positive,
    binary_round_aux 53 1024 s (Zpos p) e loc_Exact = S754_finite s M (e + n) /\
    (2 ^ 52 <= Zpos M < 2 ^ 53)%Z /\
    (- 2 ^ n <= 2 * (Zpos M * 2 ^ n - Zpos p) <= 2 ^ n)%Z.
Proof.
  intros Hd Hn He Hcarry.
  pose proof (digits2_pos_bounds p) as [Hlo _]. rewrite Hd in Hlo.
  replace (53 + n - 1)%Z with (52 + n)%Z in Hlo by lia.
  rewrite Z.pow_add_r in Hlo by lia.
  destruct n as [|pn|pn]; try lia.
  destruct (round_shr_close (Pos.to_nat pn) (Zpos p)) as [HM0 Hclose]; [lia|].
  rewrite positive_nat_Z in Hclose.
  set (P := (2 ^ Zpos pn)%Z) in *.
  assert (HP : (0 < P)%Z) by (apply Z.pow_pos_nonneg; lia).
  set (mrs := Nat.iter (Pos.to_nat pn) shr_1 (Build_shr_record (Zpos p) false false)) in *.
  set (M := round_nearest_even (shr_m mrs) (loc_of_shr_record mrs)) in *.
  assert (HM : (2 ^ 52 <= M < 2 ^ 53)%Z) by nia.
  destruct M as [|M'|M'] eqn:EM; try lia.
  exists M'. split; [|split; [done|lia]].
  unfold binary_round_aux, shr_fexp at 1. cbn [Zdigits2]. rewrite Hd.
  rewrite fexp_normal by lia.
  replace (53 + Zpos pn + e - 53 - e)%Z with (Zpos pn) by lia.
  cbn [shr shr_record_of_loc]. rewrite iter_pos_nat. fold mrs. fold M. rewrite EM.
  rewrite shr_fexp_noshift by lia. cbn [shr_record_of_loc shr_m].
  rewrite (Zle_imp_le_bool (e + Zpos pn) (1024 - 53)) by lia. done.
Qed.

(** ** The square root of a square *)

(** The square of a normal number whose square is normal: the product
    [m * m] has 105 or 106 digits and is rounded to 53. *)
Lemma b64_mul_self (m : positive) (e : Z) :
  (2 ^ 52 <= Zpos m < 2 ^ 53)%Z -> (-563 <= e <= 458)%Z ->
  exists (M : positive) (n : Z),
    B64.mul (S754_finite false m e) (S754_finite false m e)
    = S754_finite false M (2 * e + n) /\
    (n = 52 \/ n = 53 /\ 2 ^ 105 <= Zpos m * Zpos m)%Z /\
    (2 ^ 52 <= Zpos M < 2 ^ 53)%Z /\
    (- 2 ^ n <= 2 * (Zpos M * 2 ^ n - Zpos m * Zpos m) <= 2 ^ n)%Z.
Proof.
  intros Hm He.
  change (B64.mul (S754_finite false m e) (S754_finite false m e))
    with (binary_round_aux 53 1024 false (Zpos (m * m)) (e + e) loc_Exact).
  assert (Hsq : (2 ^ 104 <= Zpos m * Zpos m < 2 ^ 106)%Z) by nia.
  destruct (Z_lt_le_dec (Zpos m * Zpos m) (2 ^ 105)) as [Hlt|Hge].
  - assert (Hd : Zpos (digits2_pos (m * m)) = (53 + 52)%Z)
      by (apply digits2_pos_unique; rewrite Pos2Z.inj_mul; lia).
    assert (HK : (Zpos m <= 6369051672525772)%Z) by nia.
    destruct (binary_round_aux_shift false (m * m) (e + e) 52 Hd) as (M & HM & Hb & Hc);
      [lia|lia|rewrite Pos2Z.inj_mul; nia|].
    exists M, 52%Z. rewrite Pos2Z.inj_mul in Hc.
    replace (2 * e + 52)%Z with (e + e + 52)%Z by lia. auto.
  - assert (Hd : Zpos (digits2_pos (m * m)) = (53 + 53)%Z)
      by (apply digits2_pos_unique; rewrite Pos2Z.inj_mul; lia).
    destruct (binary_round_aux_shift false (m * m) (e + e) 53 Hd) as (M & HM & Hb & Hc);
      [lia|lia|rewrite Pos2Z.inj_mul; nia|].
    exists M, 53%Z. rewrite Pos2Z.inj_mul in Hc.
    replace (2 * e + 53)%Z with (e + e + 53)%Z by lia. auto.
Qed.

(** The integer square root of a number within half of [P] of [m * m],
    rounded to nearest, is [m]. *)
Lemma sqrt_near_square (m m' P : Z) :
  (0 < m)%Z -> (P < 2 * m)%Z -> (0 <= m')%Z ->
  (- P <= 2 * (m' - m * m) <= P)%Z ->
  let '(q, r) := Z.sqrtrem m' in
  (m' = q * q + r)%Z /\ (0 <= r <= 2 * q)%Z /\ (m - 1 <= q <= m)%Z /\
  round_nearest_even q
    (if (r =? 0)%Z then loc_Exact
     else loc_Inexact (if (r <=? q)%Z then Lt else Gt)) = m.
Proof.
  intros Hm HP Hm' Hclose. pose proof (Z.sqrtrem_spec m' Hm') as Hspec.
  destruct (Z.sqrtrem m') as [q r]. destruct Hspec as [Heq Hr].
  assert (Hq0 : (0 <= q)%Z) by lia.
  assert (Hqm : (q <= m)%Z) by nia.
  assert (Hmq : (m - 1 <= q)%Z) by nia.
  split; [done|]. split; [done|]. split; [lia|].
  destruct (Z.eq_dec q m) as [->|Hne].
  - destruct (Z.eqb_spec r 0); [done|]. cbn [round_nearest_even].
    rewrite (Zle_imp_le_bool r m) by nia. done.
  - assert (q = m - 1)%Z as -> by lia.
    assert (Hrq : (m - 1 < r)%Z) by nia.
    destruct (Z.eqb_spec r 0); [lia|].
    destruct (Z.leb_spec r (m - 1)); [lia|]. cbn [round_nearest_even]. lia.
Qed.

Lemma b64_sqrt_of_square (m M : positive) (e n : Z) :
  (2 ^ 52 <= Zpos m < 2 ^ 53)%Z -> (-563 <= e <= 458)%Z ->
  (n = 52 \/ n = 53 /\ 2 ^ 105 <= Zpos m * Zpos m)%Z ->
  (2 ^ 52 <= Zpos M < 2 ^ 53)%Z ->
  (- 2 ^ n <= 2 * (Zpos M * 2 ^ n - Zpos m * Zpos m) <= 2 ^ n)%Z ->
  B64.sqrt (S754_finite false M (2 * e + n)) = S754_finite false m e.
Proof.
  intros Hm He Hn HM Hclose.
  unfold B64.sqrt, SFsqrt, SFsqrt_core_binary. cbn [Zdigits2].
  rewrite (digits2_pos_53 M) by done.
  assert (Hn' : (n = 52 \/ n = 53)%Z) by lia.
  rewrite !Z.div2_div.
  replace ((53 + (2 * e + n) + 1) / 2)%Z with (e + 53)%Z
    by (destruct Hn' as [-> | ->]; Z.to_euclidean_division_equations; lia).
  replace ((2 * e + n) / 2)%Z with (e + 26)%Z
    by (destruct Hn' as [-> | ->]; Z.to_euclidean_division_equations; lia).
  rewrite fexp_normal by lia.
  replace (Z.min (e + 53 - 53) (e + 26)) with e by lia.
  replace (2 * e + n - 2 * e)%Z with n by lia.
  assert (Hshift : match n with
                   | Zpos _ => Z.shiftl (Zpos M) n
                   | Z0 => Zpos M
                   | Zneg _ => 0%Z
                   end = (Zpos M * 2 ^ n)%Z).
  { destruct Hn' as [-> | ->]; by rewrite Z.shiftl_mul_pow2. }
  rewrite Hshift. clear Hshift.
  set (m' := (Zpos M * 2 ^ n)%Z) in *.
  assert (HP : (2 ^ n < 2 * Zpos m)%Z).
  { destruct Hn as [->|[-> Hbig]]; [lia|]. nia. }
  assert (Hm' : (0 <= m')%Z) by (unfold m'; destruct Hn' as [-> | ->]; lia).
  pose proof (sqrt_near_square (Zpos m) m' (2 ^ n) ltac:(lia) HP Hm' Hclose) as Hs.
  destruct (Z.sqrtrem m') as [q r]. destruct Hs as (Hspec & Hr & Hq & Hround).
  assert (Hq52 : (2 ^ 52 <= q)%Z).
  { destruct (Z_lt_le_dec q (2 ^ 52)) as [Hlt|]; [exfalso|done].
    assert (Zpos m = 2 ^ 52)%Z as Hm52 by lia.
    assert (q = 2 ^ 52 - 1)%Z as -> by lia. clear Hround.
    destruct Hn as [->|[-> Hbig]]; [|nia].
    unfold m' in *. rewrite Hm52 in Hclose. lia. }
  rewrite binary_round_aux_noshift; [by rewrite Hround|lia|lia|rewrite Hround; lia].
Qed.

(** In binary64 the square root of the square of a positive normal number
    is that number, as long as the square neither overflows nor falls below
    the normal range. *)
Lemma b64_sqrt_mul_self (m : positive) (e : Z) :
  (2 ^ 52 <= Zpos m < 2 ^ 53)%Z -> (-563 <= e <= 458)%Z ->
  B64.sqrt (B64.mul (S754_finite false m e) (S754_finite false m e))
  = S754_finite false m e.
Proof.
  intros Hm He. destruct (b64_mul_self m e Hm He) as (M & n & -> & Hn & HM & Hclose).
  by apply b64_sqrt_of_square.
Qed.

(** A finite number divided by itself is 1.0. *)
Lemma b64_div_self (s : bool) (m : positive) (e : Z) :
  B64.div (S754_finite s m e) (S754_finite s m e) = B64.one.
Proof.
  unfold B64.div, SFdiv, SFdiv_core_binary.
  replace (Zdigits2 (Zpos m) + e - (Zdigits2 (Zpos m) + e))%Z with 0%Z by lia.
  replace (e - e)%Z with 0%Z by lia.
  change (Z.min (fexp B64.prec B64.emax 0) 0) with (-53)%Z.
  change (0 - -53)%Z with 53%Z. cbv iota.
  rewrite Z.shiftl_mul_pow2 by lia.
  assert (Hdiv : Z.div_eucl (Zpos m * 2 ^ 53) (Zpos m) = (2 ^ 53, 0)%Z).
  { pose proof (Z.div_eucl_eq (Zpos m * 2 ^ 53) (Zpos m) ltac:(lia)) as Heq.
    pose proof (Z.mod_pos_bound (Zpos m * 2 ^ 53) (Zpos m) ltac:(lia)) as Hmod.
    unfold Z.modulo in Hmod.
    destruct (Z.div_eucl (Zpos m * 2 ^ 53) (Zpos m)) as [q r].
    assert (q = 2 ^ 53)%Z by nia. assert (r = 0)%Z by nia. by subst. }
  rewrite Hdiv.
  assert (Hloc : new_location (Zpos m) 0 = loc_Exact).
  { unfold new_location. by destruct (Z.even (Zpos m)). }
  rewrite Hloc. by destruct s.
Qed.

(** ** The mantissa of a rounded number *)

Lemma Zdigits2_nonneg_bounds (m : Z) :
  (0 <= m)%Z -> (0 <= Zdigits2 m)%Z /\ (m < 2 ^ Zdigits2 m)%Z.
Proof.
  intros Hm. destruct m as [|p|p]; [done| |lia]. cbn [Zdigits2].
  pose proof (digits2_pos_bounds p). lia.
Qed.

(** Whatever is rounded, the mantissa that comes out has at most 53
    digits. *)
Lemma shr_fexp_bound (m e : Z) (l : location) :
  (0 <= m)%Z ->
  (0 <= shr_m (shr_fexp 53 1024 m e l).1 < 2 ^ 53)%Z.
Proof.
  intros Hm. unfold shr_fexp, shr.
  destruct (Zdigits2_nonneg_bounds m Hm) as [Hd0 Hd].
  set (d := Zdigits2 m) in *.
  assert (Hn : (d - 53 <= fexp 53 1024 (d + e) - e)%Z) by (unfold fexp, emin; lia).
  destruct (fexp 53 1024 (d + e) - e)%Z as [|n|n] eqn:En; cbn [fst].
  - rewrite shr_m_of_loc. split; [done|].
    assert (2 ^ d <= 2 ^ 53)%Z by (apply Z.pow_le_mono_r; lia). lia.
  - rewrite iter_pos_nat.
    destruct (shr_iter_nonneg (Pos.to_nat n) (shr_record_of_loc m l)) as [H0 Hle];
      [by rewrite shr_m_of_loc|].
    rewrite shr_m_of_loc, positive_nat_Z in Hle. split; [done|].
    set (mk := shr_m (Nat.iter (Pos.to_nat n) shr_1 (shr_record_of_loc m l))) in *.
    destruct (Z_lt_le_dec mk (2 ^ 53)) as [|Hge]; [done|exfalso].
    assert (HP : (0 < 2 ^ Zpos n)%Z) by (apply Z.pow_pos_nonneg; lia).
    assert (2 ^ d <= 2 ^ (53 + Zpos n))%Z by (apply Z.pow_le_mono_r; lia).
    rewrite Z.pow_add_r in * by lia. nia.
  - rewrite shr_m_of_loc. split; [done|].
    assert (2 ^ d <= 2 ^ 53)%Z by (apply Z.pow_le_mono_r; lia). lia.
Qed.

Lemma round_nearest_even_nonneg (m : Z) (l : location) :
  (0 <= m)%Z -> (0 <= round_nearest_even m l)%Z.
Proof.
  intros Hm. destruct l as [|[]]; cbn [round_nearest_even]; try lia.
  destruct (Z.even m); lia.
Qed.

Lemma binary_round_aux_mantissa (s : bool) (mz ez : Z) (lz : location) s' m e :
  (0 <= mz)%Z ->
  binary_round_aux 53 1024 s mz ez lz = S754_finite s' m e -> (Zpos m < 2 ^ 53)%Z.
Proof.
  intros Hmz. unfold binary_round_aux.
  pose proof (shr_fexp_bound mz ez lz Hmz) as [H1 _].
  destruct (shr_fexp 53 1024 mz ez lz) as [mrs1 e1]. cbn [fst] in H1.
  pose proof (shr_fexp_bound (round_nearest_even (shr_m mrs1) (loc_of_shr_record mrs1))
                e1 loc_Exact (round_nearest_even_nonneg _ _ H1)) as [_ H2].
  destruct (shr_fexp 53 1024 _ e1 loc_Exact) as [mrs2 e2]. cbn [fst] in H2.
  destruct (shr_m mrs2) as [|p|p]; [done| |done].
  destruct (e2 <=? 1024 - 53)%Z; [|done]. by intros [= _ <- _].
Qed.

Lemma b64_div_mantissa (x y : spec_float) s m e :
  B64.div x y = S754_finite s m e -> (Zpos m < 2 ^ 53)%Z.
Proof.
  destruct x as [sx|sx| |sx mx ex], y as [sy|sy| |sy my ey]; try done.
  unfold B64.div, SFdiv, SFdiv_core_binary.
  set (m' := match (ex - ey - _)%Z with Zpos _ => _ | Z0 => _ | Zneg _ => _ end).
  assert (Hm' : (0 <= m')%Z).
  { unfold m'. destruct (ex - ey - _)%Z; [lia| |lia]. apply Z.shiftl_nonneg. lia. }
  pose proof (Z.div_pos m' (Zpos my) Hm' ltac:(lia)) as Hq. unfold Z.div in Hq.
  destruct (Z.div_eucl m' (Zpos my)) as [q r].
  by apply binary_round_aux_mantissa.
Qed.

(** ** Integers as floats *)

Lemma pos_iter_xO (p k : positive) : Zpos (Pos.iter xO p k) = (Zpos p * 2 ^ Zpos k)%Z.
Proof.
  rewrite Pos2Nat.inj_iter, <- (positive_nat_Z k).
  induction (Pos.to_nat k) as [|n IH]; [cbn; lia|].
  cbn [nat_rect]. rewrite Nat2Z.inj_succ, Z.pow_succ_r by lia.
  rewrite Pos2Z.inj_xO, IH. lia.
Qed.

(** An integer below [2^53] is a float, and [int] gives it back. *)
Lemma trunc_of_signed (s : bool) (z : Z) :
  (0 <= z < 2 ^ 53)%Z ->
  B64.py_int (B64.of_signed s z) = Ok (cond_Zopp s z).
Proof.
  intros Hz. unfold B64.of_signed.
  destruct z as [|p|p]; [by destruct s| |lia].
  assert (Hnorm : binary_normalize B64.prec B64.emax (cond_Zopp s (Zpos p)) 0 s
                  = binary_round 53 1024 s p 0) by (by destruct s).
  rewrite Hnorm. unfold binary_round.
  pose proof (digits2_pos_bounds p) as [Hlo Hhi].
  set (d := Zpos (digits2_pos p)) in *.
  assert (Hd : (1 <= d <= 53)%Z).
  { split; [lia|]. destruct (Z_lt_le_dec 53 d) as [Hgt|]; [|done].
    assert (2 ^ 53 <= 2 ^ (d - 1))%Z by (apply Z.pow_le_mono_r; lia). lia. }
  rewrite fexp_normal by lia. unfold shl_align.
  destruct (d + 0 - 53 - 0)%Z as [|k|k] eqn:Ek; [| lia |].
  - rewrite binary_round_aux_noshift; cbn [round_nearest_even];
      [|replace d with 53%Z in * by lia; lia|lia|lia].
    unfold B64.py_int, B64.trunc. rewrite Pos2Z.id. cbn [default id].
    change (2 ^ 0)%Z with 1%Z. by rewrite Z.mul_1_r.
  - assert (Hmz : Zpos (Pos.iter xO p k) = (Zpos p * 2 ^ Zpos k)%Z) by apply pos_iter_xO.
    assert (Hk : (Zpos k = 53 - d)%Z) by lia.
    assert (Hpow : (2 ^ (d - 1) * 2 ^ Zpos k = 2 ^ 52)%Z)
      by (rewrite <- Z.pow_add_r by lia; f_equal; lia).
    assert (Hpow' : (2 ^ d * 2 ^ Zpos k = 2 ^ 53)%Z)
      by (rewrite <- Z.pow_add_r by lia; f_equal; lia).
    assert (HP : (0 < 2 ^ Zpos k)%Z) by (apply Z.pow_pos_nonneg; lia).
    rewrite binary_round_aux_noshift; cbn [round_nearest_even]; [|nia|lia|nia].
    unfold B64.py_int, B64.trunc. rewrite Pos2Z.id.
    replace (d + 0 - 53)%Z with (Zneg k) by lia. cbn [default id].
    rewrite Hmz, Z.div_mul by lia. done.
Qed.

(** ** The number of bins *)

(** [n_bins] is the ceiling of the quotient that the division returns. *)
Lemma n_bins_ceiling bin start stop n :
  n_bins bin start stop = Ok n ->
  is_ceiling (B64.div (B64.sub stop start) bin) n.
Proof.
  unfold n_bins. pose proof (b64_div_mantissa (B64.sub stop start) bin) as Hmant.
  destruct (B64.div (B64.sub stop start) bin) as [s|s| |s m e]; try done.
  - by intros [= <-].
  - specialize (Hmant s m e eq_refl). destruct e as [|pe|k].
    + intros [= <-]. cbn [is_ceiling B64.trunc default id]. change (2 ^ Z.max 0 (- 0))%Z with 1%Z.
      change (2 ^ Z.max 0 0)%Z with 1%Z. change (2 ^ 0)%Z with 1%Z. destruct s; cbn [cond_Zopp]; lia.
    + intros [= <-]. cbn [is_ceiling B64.trunc default id].
      change (Z.max 0 (- Zpos pe)) with 0%Z. change (Z.max 0 (Zpos pe)) with (Zpos pe).
      change (2 ^ 0)%Z with 1%Z.
      destruct s; cbn [cond_Zopp]; lia.
    + cbn [B64.np_ceil is_ceiling].
      change (Z.max 0 (- Zneg k)) with (Zpos k). change (Z.max 0 (Zneg k)) with 0%Z.
      change (2 ^ 0)%Z with 1%Z.
      set (d := (2 ^ Zpos k)%Z).
      assert (Hd : (2 <= d)%Z).
      { unfold d. rewrite <- (Z.pow_1_r 2) at 1. apply Z.pow_le_mono_r; lia. }
      pose proof (Z.div_mod (Zpos m) d ltac:(lia)) as Hdm.
      pose proof (Z.mod_pos_bound (Zpos m) d ltac:(lia)) as Hmod.
      assert (Hq : (0 <= Zpos m / d)%Z) by (apply Z.div_pos; lia).
      destruct s.
      * rewrite trunc_of_signed by nia. intros [= <-]. cbn [cond_Zopp]. nia.
      * destruct (Z.eqb_spec (Zpos m mod d) 0) as [Hz|Hnz].
        -- rewrite trunc_of_signed by nia. intros [= <-]. cbn [cond_Zopp]. nia.
        -- rewrite trunc_of_signed by nia. intros [= <-]. cbn [cond_Zopp]. nia.
Qed.

Lemma iadd_at_Raise a idx c i :
  i ∈ idx -> (i < - Z.of_nat (length a) \/ Z.of_nat (length a) <= i)%Z ->
  iadd_at a idx c = Raise IndexError.
Proof.
  intros Hin Hi. destruct (iadd_at a idx c) as [a'|e] eqn:E.
  - apply iadd_at_Ok in E as (ks & Hks & _).
    destruct (norm_indices_Raise _ _ _ Hin Hi) as [e He]. congruence.
  - f_equal. by eapply iadd_at_exn.
Qed.

Lemma Forall2_elem_of_l {A B} (P : A -> B -> Prop) l k x :
  Forall2 P l k -> x ∈ l -> exists y, y ∈ k /\ P x y.
Proof.
  intros HF (i & Hi)%list_elem_of_lookup.
  destruct (Forall2_lookup_l _ _ _ _ _ HF Hi) as (y & Hy & HP).
  exists y. split; [by eapply list_elem_of_lookup_2|done].
Qed.

(** * The binning claims *)

(** Without jitter the sum of the signal is the number of distinct bins that
    the spikes fall into. *)
Lemma binned_total_distinct cl bin start stop js N g fr jit g' :
  get_firing_rate cl bin start stop false js N g = Ok (fr, jit, g') ->
  exists ks, norm_indices (length fr) (bin_indices cl bin) = Ok ks /\
             entries_total fr = Z.of_nat (length (remove_dups ks)).
Proof.
  intros (n & ks & _ & _ & _ & Hks & -> & _)%get_firing_rate_plain.
  exists ks. rewrite length_marks. split; [done|].
  apply entries_total_marks. by eapply norm_indices_bound.
Qed.

(** C1, as stated, fails: two spikes of the window in one bin count once, and
    a spike before the window that rounds to bin 0 is counted. *)
Lemma conservation_counterexample :
  ~ conservation_at [B64.dec 1 1; B64.dec 101 3] (B64.dec 1 2) B64.zero (B64.dec 4 1) 1
  /\ ~ conservation_at [B64.sub B64.zero (B64.dec 1 3)] (B64.dec 1 2) B64.zero (B64.dec 4 1) 1.
Proof.
  split; intros H.
  - destruct (get_firing_rate [B64.dec 1 1; B64.dec 101 3] (B64.dec 1 2) B64.zero
                (B64.dec 4 1) false default_jitter_size 1 (rng_const B64.zero))
      as [[[fr jit] g']|e] eqn:E; [|vm_compute in E; discriminate E].
    assert (Ht : entries_total fr = 1%Z)
      by (vm_compute in E; injection E as <- _ _; vm_compute; reflexivity).
    specialize (H 40%Z fr jit _ g' ltac:(vm_compute; reflexivity)
                  ltac:(apply (bool_decide_unpack _); vm_compute; exact I) E).
    rewrite Ht in H. clear E Ht. vm_compute in H. discriminate H.
  - destruct (get_firing_rate [B64.sub B64.zero (B64.dec 1 3)] (B64.dec 1 2) B64.zero
                (B64.dec 4 1) false default_jitter_size 1 (rng_const B64.zero))
      as [[[fr jit] g']|e] eqn:E; [|vm_compute in E; discriminate E].
    assert (Ht : entries_total fr = 1%Z)
      by (vm_compute in E; injection E as <- _ _; vm_compute; reflexivity).
    specialize (H 40%Z fr jit _ g' ltac:(vm_compute; reflexivity)
                  ltac:(apply (bool_decide_unpack _); vm_compute; exact I) E).
    rewrite Ht in H. clear E Ht. vm_compute in H. discriminate H.
Qed.

(** C1 (amended): without jitter, when every spike's bin index
    [round(t/bin_size)] is in range and no two spikes share a bin index,
    [get_firing_rate] returns, and the entries of the signal sum up to the
    number of input spikes. *)
Theorem conservation_distinct_bins cl bin start stop js N g n :
  n_bins bin start stop = Ok n -> (0 <= n)%Z -> (0 <= N)%Z ->
  Forall (fun i => (0 <= i < n)%Z) (bin_indices cl bin) ->
  NoDup (bin_indices cl bin) ->
  exists fr jit,
    get_firing_rate cl bin start stop false js N g = Ok (fr, jit, g) /\
    entries_total fr = Z.of_nat (length cl).
Proof.
  intros Hn Hn0 HN Hrange Hnd.
  set (ks := map Z.to_nat (bin_indices cl bin)).
  assert (Hks : norm_indices (Z.to_nat n) (bin_indices cl bin) = Ok ks).
  { apply norm_indices_in_range. eapply Forall_impl; [exact Hrange|].
    intros i Hi. cbn beta in Hi |- *. lia. }
  exists (marks (Z.to_nat n) ks), (replicate (Z.to_nat N) (replicate (Z.to_nat n) B64.zero)).
  split.
  - apply get_firing_rate_plain. by exists n, ks.
  - rewrite entries_total_marks by (by eapply norm_indices_bound).
    rewrite remove_dups_NoDup_length.
    + unfold ks, bin_indices. by rewrite !length_map.
    + apply NoDup_to_nat; [|done]. eapply Forall_impl; [exact Hrange|].
      intros i Hi. cbn beta in Hi. lia.
Qed.

Lemma conservation_distinct_bins_witness :
  exists fr jit,
    get_firing_rate [B64.dec 1 1; B64.dec 2 1; B64.dec 31 2] (B64.dec 1 2) B64.zero
      (B64.dec 4 1) false default_jitter_size 1 (rng_const B64.zero)
    = Ok (fr, jit, rng_const B64.zero) /\
    entries_total fr = 3%Z.
Proof.
  apply (conservation_distinct_bins
           [B64.dec 1 1; B64.dec 2 1; B64.dec 31 2] (B64.dec 1 2) B64.zero (B64.dec 4 1)
           default_jitter_size 1 (rng_const B64.zero) 40).
  - vm_compute. reflexivity.
  - lia.
  - lia.
  - apply (bool_decide_unpack _). vm_compute. exact I.
  - apply (bool_decide_unpack _). vm_compute. exact I.
Defined.

(** C6: the signal that [get_firing_rate] returns has [n] entries, where
    [n] is the ceiling of the binary64 quotient
    [(tracking_stop - tracking_start) / bin_size] (the integer with
    [n - 1 < quotient <= n]), and so has every row of the jitter ensemble,
    which has [shuffle_n] rows. *)
Theorem get_firing_rate_lengths cl bin start stop to_jitter js N g fr jit g' :
  get_firing_rate cl bin start stop to_jitter js N g = Ok (fr, jit, g') ->
  exists n,
    n_bins bin start stop = Ok n /\
    is_ceiling (B64.div (B64.sub stop start) bin) n /\
    Z.of_nat (length fr) = n /\
    Forall (fun row => Z.of_nat (length row) = n) jit /\
    Z.of_nat (length jit) = N.
Proof.
  destruct to_jitter; intros H.
  - apply get_firing_rate_jitter in H as (n & Hn & Hn0 & HN & Hlen & Hrows & Hfr).
    exists n. split; [done|]. split; [by apply n_bins_ceiling|]. split; [|split; [|lia]].
    + case_bool_decide.
      * destruct Hfr as (ks & _ & ->). rewrite length_marks. lia.
      * subst fr. rewrite length_replicate. lia.
    + apply Forall_lookup. intros sh row Hrow.
      destruct (Hrows sh) as (ks & _ & Hsh).
      { rewrite <- Hlen. by eapply lookup_lt_Some. }
      rewrite Hrow in Hsh. injection Hsh as ->. rewrite length_marks. lia.
  - apply get_firing_rate_plain in H as (n & ks & Hn & Hn0 & HN & _ & -> & -> & _).
    exists n. split; [done|]. split; [by apply n_bins_ceiling|].
    rewrite length_marks, length_replicate.
    split; [lia|]. split; [|lia].
    apply Forall_replicate. rewrite length_replicate. lia.
Qed.

(** A window of 0.3 s at bins of 0.1 s: the binary64 quotient is
    2.9999999999999996, and there are 3 bins. *)
Lemma get_firing_rate_lengths_witness :
  exists fr jit g',
    get_firing_rate [B64.dec 1 1; B64.dec 2 1] (B64.dec 1 1) B64.zero
      (B64.dec 3 1) true default_jitter_size 2 (rng_const (B64.dec 5 1))
    = Ok (fr, jit, g') /\
    B64.div (B64.sub (B64.dec 3 1) B64.zero) (B64.dec 1 1)
    = S754_finite false 6755399441055743 (-51) /\
    length fr = 3 /\ Forall (fun row => length row = 3) jit /\ length jit = 2.
Proof.
  destruct (get_firing_rate [B64.dec 1 1; B64.dec 2 1] (B64.dec 1 1) B64.zero
              (B64.dec 3 1) true default_jitter_size 2 (rng_const (B64.dec 5 1)))
    as [[[fr jit] g']|e] eqn:E; [|vm_compute in E; discriminate E].
  exists fr, jit, g'. split; [reflexivity|].
  destruct (get_firing_rate_lengths _ _ _ _ _ _ _ _ _ _ _ E)
    as (n & Hn & _ & Hfr & Hrows & Hjit).
  clear E.
  assert (n = 3%Z) as -> by (vm_compute in Hn; injection Hn as <-; reflexivity).
  split; [vm_compute; reflexivity|]. split; [lia|]. split; [|lia].
  eapply Forall_impl; [exact Hrows|]. intros row Hrow. cbn beta in Hrow. lia.
Defined.

(** C7, as stated, fails: called as [noise_corr] calls it without jitter
    ([to_jitter=False, shuffle_n=1]), [get_firing_rate] returns an ensemble
    array with a row. *)
Lemma no_ensemble_counterexample :
  exists fr jit g',
    get_firing_rate [B64.dec 1 1] (B64.dec 1 1) B64.zero (B64.dec 4 1) false
      default_jitter_size 1 (rng_const B64.zero) = Ok (fr, jit, g') /\
    jit = [replicate 4 B64.zero] /\ jit <> [].
Proof.
  eexists _, _, _. split; [vm_compute; reflexivity|]. split; [reflexivity|discriminate].
Qed.

(** C7 (amended): without jitter, [get_firing_rate] returns the real signal
    together with the ensemble array as it was allocated: [shuffle_n] rows of
    zeros, as long as the signal; no entry of it is written and no draw is
    taken from the generator. *)
Theorem no_jitter_ensemble_untouched cl bin start stop js N g fr jit g' :
  get_firing_rate cl bin start stop false js N g = Ok (fr, jit, g') ->
  jit = replicate (Z.to_nat N) (replicate (length fr) B64.zero) /\ g' = g.
Proof.
  intros (n & ks & _ & _ & _ & _ & -> & -> & ->)%get_firing_rate_plain.
  by rewrite length_marks.
Qed.

Lemma no_jitter_ensemble_untouched_witness :
  exists fr jit g',
    get_firing_rate [B64.dec 1 1] (B64.dec 1 1) B64.zero (B64.dec 4 1) false
      default_jitter_size default_shuffle_n (rng_const B64.zero) = Ok (fr, jit, g') /\
    jit = replicate 1000 (replicate (length fr) B64.zero) /\ g' = rng_const B64.zero.
Proof.
  destruct (get_firing_rate [B64.dec 1 1] (B64.dec 1 1) B64.zero (B64.dec 4 1) false
              default_jitter_size default_shuffle_n (rng_const B64.zero))
    as [[[fr jit] g']|e] eqn:E; [|vm_compute in E; discriminate E].
  exists fr, jit, g'. split; [reflexivity|].
  exact (no_jitter_ensemble_untouched _ _ _ _ _ _ _ _ _ _ E).
Defined.

(** C8: a spike whose bin index reaches the length of the signal is neither
    clipped nor dropped: binning raises [IndexError] (without jitter, and
    with jitter as soon as there is a pass). *)
Theorem out_of_bounds_spike_raises cl bin start stop to_jitter js N g n t :
  n_bins bin start stop = Ok n -> (0 <= n)%Z ->
  (0 <= N)%Z -> (to_jitter = true -> (0 < N)%Z) ->
  t ∈ cl ->
  (n <= B64.astype_int32 (B64.np_round (B64.div t bin)))%Z ->
  get_firing_rate cl bin start stop to_jitter js N g = Raise IndexError.
Proof.
  intros Hn Hn0 HN Hpass Ht Hi.
  assert (Hfr : forall c, iadd_at (replicate (Z.to_nat n) B64.zero) (bin_indices cl bin) c
                          = Raise IndexError).
  { intros c. eapply iadd_at_Raise.
    - unfold bin_indices. apply list_elem_of_fmap. by exists t.
    - rewrite length_replicate. right. lia. }
  unfold get_firing_rate. rewrite Hn. cbn [mbind result_bind].
  rewrite (proj2 (np_zeros_Ok n _) (conj Hn0 eq_refl)). cbn [mbind result_bind].
  rewrite length_replicate.
  destruct to_jitter.
  - specialize (Hpass eq_refl).
    rewrite (proj2 (np_zeros2_Ok N _ _) (conj HN (conj (Nat2Z.is_nonneg _) eq_refl))).
    cbn [mbind result_bind].
    destruct (Z.to_nat N) as [|N'] eqn:EN; [lia|]. cbn [seq for_each].
    unfold jitter_pass, np_random_random, iadd_at2. cbn [replicate lookup list_lookup].
    rewrite bool_decide_eq_true_2 by done. rewrite Hfr.
    match goal with
    | |- context [iadd_at ?r ?idx ?c] =>
        destruct (iadd_at r idx c) as [r'|e] eqn:E; cbn [mbind result_bind]; [done|]
    end.
    by apply iadd_at_exn in E as ->.
  - rewrite (proj2 (np_zeros2_Ok N _ _) (conj HN (conj (Nat2Z.is_nonneg _) eq_refl))).
    cbn [mbind result_bind]. by rewrite Hfr.
Qed.

Lemma out_of_bounds_spike_raises_witness :
  in_window B64.zero (B64.dec 4 1) (B64.dec 4 1) = true /\
  get_firing_rate [B64.dec 1 1; B64.dec 4 1] (B64.dec 1 2) B64.zero (B64.dec 4 1) false
    default_jitter_size 1 (rng_const B64.zero) = Raise IndexError.
Proof.
  split; [reflexivity|].
  apply (out_of_bounds_spike_raises _ _ _ _ false _ _ _ 40 (B64.dec 4 1)).
  - vm_compute. reflexivity.
  - lia.
  - lia.
  - discriminate.
  - apply list_elem_of_further, list_elem_of_here.
  - vm_compute. discriminate.
Defined.

(** C9: with jitter, a jittered spike [v] of pass [sh] that is not above
    [tracking_stop] is kept whatever its sign; when its bin index [i] is
    negative, the count goes to the bin [length + i], counted from the end of
    row [sh]. *)
Theorem negative_index_wraps cl bin start stop js N g fr jit g' sh v :
  get_firing_rate cl bin start stop true js N g = Ok (fr, jit, g') ->
  sh < Z.to_nat N ->
  v ∈ jitter cl js (pass_draws cl g sh) ->
  B64.leb v stop = true ->
  (B64.astype_int32 (B64.np_round (B64.div v bin)) < 0)%Z ->
  exists row,
    jit !! sh = Some row /\
    row !! Z.to_nat (Z.of_nat (length row)
                     + B64.astype_int32 (B64.np_round (B64.div v bin)))
    = Some B64.one.
Proof.
  intros H Hsh Hv Hkeep Hneg.
  apply get_firing_rate_jitter in H as (n & _ & Hn0 & _ & _ & Hrows & _).
  destruct (Hrows sh Hsh) as (ks & Hks & Hrow).
  exists (marks (Z.to_nat n) ks). split; [done|].
  set (i := B64.astype_int32 (B64.np_round (B64.div v bin))) in *.
  assert (Hi : i ∈ jitter_indices cl bin stop js g sh).
  { unfold jitter_indices, bin_indices. apply list_elem_of_fmap. exists v.
    split; [done|]. by apply list_elem_of_filter. }
  apply norm_indices_Ok in Hks.
  destruct (Forall2_elem_of_l _ _ _ _ Hks Hi) as (k & Hk & Hnorm).
  apply norm_index_Ok in Hnorm as (Hlt & _ & Hwrap). specialize (Hwrap Hneg).
  rewrite length_marks, lookup_marks.
  replace (Z.to_nat (Z.of_nat (Z.to_nat n) + i)) with k by lia.
  by rewrite !bool_decide_eq_true_2.
Qed.

(** One spike in bin 0, jittered by -0.004 s: the real signal counts it in
    bin 0, the replicate in its last bin. *)
Lemma negative_index_wraps_witness :
  exists fr row g',
    get_firing_rate [B64.dec 1 3] (B64.dec 5 3) B64.zero (B64.dec 4 2) true
      default_jitter_size 1 (rng_const B64.zero) = Ok (fr, [row], g') /\
    fr !! 0 = Some B64.one /\ row !! 0 = Some B64.zero /\ row !! 7 = Some B64.one.
Proof.
  destruct (get_firing_rate [B64.dec 1 3] (B64.dec 5 3) B64.zero (B64.dec 4 2) true
              default_jitter_size 1 (rng_const B64.zero))
    as [[[fr jit] g']|e] eqn:E; [|vm_compute in E; discriminate E].
  destruct (negative_index_wraps _ _ _ _ _ _ _ _ _ _ 0
              (B64.add (B64.dec 1 3)
                 (B64.sub (B64.mul (B64.mul B64.two default_jitter_size) B64.zero)
                    default_jitter_size)) E)
    as (row & Hrow & Hlast).
  - vm_compute. lia.
  - vm_compute. left.
  - vm_compute. reflexivity.
  - vm_compute. reflexivity.
  - vm_compute in E. injection E as <- <- <-.
    injection Hrow as <-. exists (marks 8 [0]), (marks 8 [7]). eexists.
    split; [vm_compute; reflexivity|]. split; [reflexivity|]. split; [reflexivity|].
    exact Hlast.
Defined.

(** C10: every entry of the signal and of every row of the ensemble that
    [get_firing_rate] returns is 0.0 or 1.0, however many spikes share a
    bin. *)
Theorem entries_zero_or_one cl bin start stop to_jitter js N g fr jit g' :
  get_firing_rate cl bin start stop to_jitter js N g = Ok (fr, jit, g') ->
  Forall is_01 fr /\ Forall (Forall is_01) jit.
Proof.
  destruct to_jitter; intros H.
  - apply get_firing_rate_jitter in H as (n & _ & _ & _ & Hlen & Hrows & Hfr). split.
    + case_bool_decide.
      * destruct Hfr as (ks & _ & ->). apply marks_01.
      * subst fr. apply replicate_zero_01.
    + apply Forall_lookup. intros sh row Hrow.
      destruct (Hrows sh) as (ks & _ & Hsh).
      { rewrite <- Hlen. by eapply lookup_lt_Some. }
      rewrite Hrow in Hsh. injection Hsh as ->. apply marks_01.
  - apply get_firing_rate_plain in H as (n & ks & _ & _ & _ & _ & -> & -> & _). split.
    + apply marks_01.
    + apply Forall_replicate, replicate_zero_01.
Qed.

(** Three spikes, two of them in bin 1. *)
Lemma entries_zero_or_one_witness :
  exists fr jit g',
    get_firing_rate [B64.dec 1 1; B64.dec 101 3; B64.dec 3 1] (B64.dec 1 1) B64.zero
      (B64.dec 4 1) true default_jitter_size 2 (rng_const (B64.dec 5 1))
    = Ok (fr, jit, g') /\
    fr = [B64.zero; B64.one; B64.zero; B64.one] /\
    Forall is_01 fr /\ Forall (Forall is_01) jit.
Proof.
  destruct (get_firing_rate [B64.dec 1 1; B64.dec 101 3; B64.dec 3 1] (B64.dec 1 1) B64.zero
              (B64.dec 4 1) true default_jitter_size 2 (rng_const (B64.dec 5 1)))
    as [[[fr jit] g']|e] eqn:E; [|vm_compute in E; discriminate E].
  exists fr, jit, g'. split; [reflexivity|]. split.
  - vm_compute in E. injection E as <- _ _. reflexivity.
  - exact (entries_zero_or_one _ _ _ _ _ _ _ _ _ _ _ E).
Defined.

(** * Properties of slices, rows and [cross_correlate] *)

Lemma py_slice_in_range {A} (a : list A) (s e : Z) :
  (0 <= s <= e)%Z -> (e <= Z.of_nat (length a))%Z ->
  py_slice a s e = take (Z.to_nat (e - s)) (drop (Z.to_nat s) a).
Proof.
  intros Hs He. unfold py_slice.
  rewrite !bool_decide_eq_false_2 by lia.
  by rewrite !Z.min_l by lia.
Qed.

Lemma length_py_slice_in_range {A} (a : list A) (s e : Z) :
  (0 <= s <= e)%Z -> (e <= Z.of_nat (length a))%Z ->
  length (py_slice a s e) = Z.to_nat (e - s).
Proof.
  intros Hs He. rewrite py_slice_in_range by done.
  rewrite length_take, length_drop. lia.
Qed.

Lemma length_all_bins bin_num : length (all_bins bin_num) = Z.to_nat (2 * bin_num + 1).
Proof. unfold all_bins. by rewrite length_map, length_seq. Qed.

Lemma lookup_all_bins bin_num l :
  (- bin_num <= l <= bin_num)%Z ->
  all_bins bin_num !! Z.to_nat (bin_num + l) = Some l.
Proof.
  intros Hl. unfold all_bins. rewrite list_lookup_fmap, lookup_seq_lt by lia.
  cbn. f_equal. lia.
Qed.

Lemma elem_of_all_bins bin_num l :
  l ∈ all_bins bin_num -> (- bin_num <= l <= bin_num)%Z.
Proof.
  unfold all_bins. intros (k & -> & Hk)%list_elem_of_fmap.
  apply elem_of_seq in Hk. lia.
Qed.

Lemma set_row_Ok {A} (m : list (list A)) i r s :
  m !! i = Some r -> length s = length r -> set_row m i s = Ok (<[i := s]> m).
Proof.
  intros Hr Hlen. unfold set_row, get_row, broadcast_to. rewrite Hr.
  cbn [mbind result_bind]. by rewrite bool_decide_eq_true_2.
Qed.

(** A row that was assigned has the length it had. *)
Lemma set_row_shape {A} (m m' : list (list A)) i s c :
  set_row m i s = Ok m' -> Forall (fun r => length r = c) m ->
  length m' = length m /\ Forall (fun r => length r = c) m'.
Proof.
  unfold set_row, get_row. destruct (m !! i) as [r|] eqn:Hr; [|done].
  cbn [mbind result_bind]. intros H Hall.
  apply bind_Ok in H as (s' & Hs' & [= <-]).
  rewrite length_insert. split; [done|]. apply Forall_insert; [done|].
  assert (length r = c) as <-
    by (exact (Forall_lookup_1 (fun r => length r = c) m i r Hall Hr)).
  unfold broadcast_to in Hs'. case_bool_decide as Hlen.
  - by injection Hs' as <-.
  - destruct s as [|x [|]]; try done. injection Hs' as <-. apply length_replicate.
Qed.

Section NoiseCorrFacts.
Context {F : Type} `{Arith F}.

Lemma np_zeros_gen_Ok (n : Z) :
  (0 <= n)%Z -> np_zeros (F:=F) n = Ok (replicate (Z.to_nat n) fzero).
Proof. intros Hn. unfold np_zeros. by rewrite bool_decide_eq_false_2 by lia. Qed.

Lemma np_zeros2_gen_Ok (rows cols : Z) :
  (0 <= rows)%Z -> (0 <= cols)%Z ->
  np_zeros2 (F:=F) rows cols
  = Ok (replicate (Z.to_nat rows) (replicate (Z.to_nat cols) fzero)).
Proof.
  intros Hr Hc. unfold np_zeros2. by rewrite !bool_decide_eq_false_2 by lia.
Qed.

Lemma np_zeros2_gen_inv (rows cols : Z) (m : list (list F)) :
  np_zeros2 rows cols = Ok m ->
  m = replicate (Z.to_nat rows) (replicate (Z.to_nat cols) fzero).
Proof.
  unfold np_zeros2. destruct (_ || _); [done|]. by intros [= <-].
Qed.

(** The loop over the lags, from lag number [k] on: the rows from [k] on
    become the slices of [fr1], and [y] the centre slice of [fr2]. *)
Lemma lag_loop_Ok (fr1 fr2 : list F) (bin_num : Z) (c : nat) (bs : list Z) :
  Forall (fun l => length (lag_slice fr1 bin_num l) = c) bs ->
  forall (k : nat) (big_x : list (list F)) (y : list F),
    Forall (fun r => length r = c) big_x ->
    k + length bs <= length big_x ->
    for_each (lag_pass fr1 fr2 bin_num) (combine (seq k (length bs)) bs) (big_x, y)
    = Ok (take k big_x ++ map (lag_slice fr1 bin_num) bs
            ++ drop (k + length bs) big_x,
          if bool_decide (k = 0 /\ bs <> [])
          then py_slice fr2 bin_num (Z.of_nat (length fr1) - bin_num) else y).
Proof.
  induction 1 as [|l bs Hl Hbs IH]; intros k big_x y Hrows Hlen.
  - cbn [length seq combine for_each map app]. rewrite Nat.add_0_r, take_drop.
    rewrite bool_decide_eq_false_2; [done|]. by intros [_ ?].
  - cbn [length seq combine for_each]. cbn [length] in Hlen.
    destruct (lookup_lt_is_Some_2 big_x k) as [r Hr]; [lia|].
    assert (Hrc : length r = c)
      by (exact (Forall_lookup_1 (fun r => length r = c) big_x k r Hrows Hr)).
    unfold lag_pass at 1. fold (lag_slice fr1 bin_num l).
    rewrite (set_row_Ok big_x k r) by (done || congruence).
    cbn [mbind result_bind].
    set (yc := py_slice fr2 bin_num (Z.of_nat (length fr1) - bin_num)).
    set (y1 := if bool_decide (k = 0) then yc else y).
    assert (Hstep :
      (if bool_decide (k = 0)
       then Ok (<[k:=lag_slice fr1 bin_num l]> big_x, yc)
       else Ok (<[k:=lag_slice fr1 bin_num l]> big_x, y))
      = Ok (<[k:=lag_slice fr1 bin_num l]> big_x, y1)).
    { unfold y1. by case_bool_decide. }
    rewrite Hstep. rewrite IH.
    + f_equal. f_equal.
      * rewrite take_S_r with (x := lag_slice fr1 bin_num l)
          by (apply list_lookup_insert_eq; lia).
        rewrite take_insert_ge by lia. rewrite <- app_assoc. cbn [map app].
        do 3 f_equal. rewrite drop_insert_lt by lia. f_equal. lia.
      * rewrite (bool_decide_eq_false_2 (S k = 0 /\ _)) by lia.
        unfold y1. destruct (decide (k = 0)) as [->|Hk].
        -- by rewrite !bool_decide_eq_true_2.
        -- by rewrite !bool_decide_eq_false_2 by lia.
    + apply Forall_insert; [done|]. done.
    + rewrite length_insert. lia.
Qed.

Lemma zip_with_map_same {X Y Z' W} (f : Y -> Z' -> W) (a : X -> Y) (b : X -> Z')
    (l : list X) :
  zip_with f (map a l) (map b l) = map (fun x => f (a x) (b x)) l.
Proof. induction l as [|x l IH]; [done|]. cbn [map zip_with]. by rewrite IH. Qed.

Lemma map_zip_with {X Y Z' W} (g : Z' -> W) (f : X -> Y -> Z') (l : list X) (k : list Y) :
  map g (zip_with f l k) = zip_with (fun x y => g (f x y)) l k.
Proof.
  revert k. induction l as [|x l IH]; intros [|y k]; try done.
  cbn [map zip_with]. by rewrite IH.
Qed.

Lemma traverse_broadcast2 (dy : list F) (dx : list (list F)) :
  Forall (fun row => length row = length dy) dx ->
  traverse (fun row => broadcast2 fmul row dy) dx
  = Ok (map (fun row => zip_with fmul row dy) dx).
Proof.
  induction 1 as [|row dx Hrow _ IH]; [done|].
  cbn [traverse map].
  assert (broadcast2 fmul row dy = Ok (zip_with fmul row dy)) as ->.
  { unfold broadcast2. by rewrite bool_decide_eq_true_2. }
  cbn [mbind result_bind]. rewrite IH. done.
Qed.

(** With shapes that match, [cross_correlate] does not raise, and the
    coefficient of a lag is computed from the row of that lag alone. *)
Lemma cross_correlate_Ok (big_x : list (list F)) (big_x_mean : list F)
    (small_y : list F) (small_y_mean : F) :
  length big_x_mean = length big_x ->
  Forall (fun row => length row = length small_y) big_x ->
  cross_correlate big_x big_x_mean small_y small_y_mean
  = Ok (zip_with (fun row m => pearson row m small_y small_y_mean) big_x big_x_mean).
Proof.
  intros Hlen Hrows. unfold cross_correlate.
  rewrite bool_decide_eq_true_2 by done.
  rewrite traverse_broadcast2.
  - cbn [mbind result_bind]. f_equal.
    rewrite map_map, zip_with_map_same, map_zip_with. reflexivity.
  - clear Hlen. revert big_x_mean.
    induction Hrows as [|row big_x Hrow _ IH]; intros [|m ms]; cbn [zip_with];
      try constructor.
    + by rewrite !length_map.
    + apply IH.
Qed.

Lemma cross_correlate_length (big_x : list (list F)) (big_x_mean : list F)
    (small_y : list F) (small_y_mean : F) (r : list F) :
  cross_correlate big_x big_x_mean small_y small_y_mean = Ok r ->
  length r = length big_x.
Proof.
  unfold cross_correlate. case_bool_decide as Hlen; [|done].
  intros (prods & Hprods & [= <-])%bind_Ok.
  assert (Hp : forall (f : list F -> result (list F)) l ps,
             traverse f l = Ok ps -> length ps = length l).
  { intros f l. induction l as [|x l IH]; intros ps Hps; cbn [traverse] in Hps.
    - by injection Hps as <-.
    - apply bind_Ok in Hps as (p & _ & Hps). apply bind_Ok in Hps as (ps' & Hps' & [= <-]).
      cbn [length]. by rewrite (IH ps'). }
  apply Hp in Hprods.
  rewrite length_zip_with, !length_map, Hprods, length_zip_with. lia.
Qed.

(** Without jitter and for signals of one length above [2*bin_num], the
    cross-correlation returns the coefficients of the lags in order. *)
Lemma correlate_real_Ok (a b : list F) (bin_num : Z) :
  (0 <= bin_num)%Z -> (2 * bin_num < Z.of_nat (length a))%Z -> length b = length a ->
  correlate_real a b bin_num = Ok (map (lag_coef a b bin_num) (all_bins bin_num)).
Proof.
  intros Hbn Hlen Hab. unfold correlate_real.
  set (n := Z.of_nat (length a)) in *.
  set (c := Z.to_nat (n - bin_num - bin_num)).
  rewrite np_zeros2_gen_Ok by lia. cbn [mbind result_bind].
  rewrite np_zeros_gen_Ok by lia. cbn [mbind result_bind].
  unfold enumerate.
  assert (Hslices : Forall (fun l => length (lag_slice a bin_num l) = c) (all_bins bin_num)).
  { apply Forall_forall. intros l Hl%elem_of_all_bins. unfold lag_slice.
    rewrite length_py_slice_in_range by (fold n; lia). fold n. unfold c. lia. }
  rewrite (lag_loop_Ok a b bin_num c (all_bins bin_num) Hslices).
  - cbn [mbind result_bind]. rewrite take_0. cbn [app].
    rewrite drop_ge by (rewrite length_replicate, Nat2Z.id; lia).
    rewrite app_nil_r. rewrite bool_decide_eq_true_2.
    + rewrite cross_correlate_Ok.
      * f_equal. rewrite zip_with_fmap_r.
        assert (Hy : py_slice b bin_num (n - bin_num) = lag_slice b bin_num 0).
        { unfold lag_slice. rewrite Hab. fold n. by rewrite !Z.add_0_r. }
        unfold n in Hy. rewrite Hy, zip_with_map_same. reflexivity.
      * by rewrite !length_map.
      * apply Forall_fmap. eapply Forall_impl; [exact Hslices|].
        intros l Hl. cbn. rewrite Hl. symmetry.
        rewrite length_py_slice_in_range by (rewrite ?Hab; fold n; lia).
        unfold c. lia.
    + split; [done|]. intros Hnil. apply (f_equal length) in Hnil.
      rewrite length_all_bins in Hnil. cbn in Hnil. lia.
  - apply Forall_replicate. rewrite length_replicate. unfold c. lia.
  - rewrite length_replicate, Nat2Z.id. lia.
Qed.

End NoiseCorrFacts.

(** ** The shape of the correlograms with jitter *)

Lemma for_each_inv {S X} (P : S -> Prop) (body : S -> X -> result S) (xs : list X) :
  (forall s x s', P s -> body s x = Ok s' -> P s') ->
  forall s s', P s -> for_each body xs s = Ok s' -> P s'.
Proof.
  intros Hbody. induction xs as [|x xs IH]; intros s s' Hs Hrun; cbn [for_each] in Hrun.
  - by injection Hrun as <-.
  - destruct (body s x) as [s1|e] eqn:Hs1; [|done]. eauto.
Qed.

Lemma set_row_length {A} (m m' : list (list A)) i s :
  set_row m i s = Ok m' -> length m' = length m.
Proof.
  unfold set_row. intros (r & _ & H)%bind_Ok.
  apply bind_Ok in H as (s' & _ & [= <-]). apply length_insert.
Qed.

Section ShuffleShape.
Context {F : Type} `{Arith F}.

Lemma lag_pass_sh_length (fr1 : list F) sh1 (fr2 : list F) sh2 bin_num sh its
    big_x y big_x_sh y_sh big_x' y' big_x_sh' y_sh' :
  for_each (lag_pass_sh fr1 sh1 fr2 sh2 bin_num sh) its (big_x, y, big_x_sh, y_sh)
    = Ok (big_x', y', big_x_sh', y_sh') ->
  length big_x' = length big_x /\ length big_x_sh' = length big_x_sh.
Proof.
  apply (for_each_inv
           (fun s : list (list F) * list F * list (list F) * list F =>
              length (fst (fst (fst s))) = length big_x /\
              length (snd (fst s)) = length big_x_sh)); [|done].
  intros [[[bx y0] bxs] ys0] [bin_idx one_bin] [[[bx1 y1] bxs1] ys1] [Hbx Hbxs] Hstep.
  cbn [fst snd] in *. unfold lag_pass_sh in Hstep.
  apply bind_Ok in Hstep as (bx2 & Hbx2 & Hstep).
  apply bind_Ok in Hstep as (row1 & _ & Hstep).
  apply bind_Ok in Hstep as (bxs2 & Hbxs2 & Hstep).
  apply set_row_length in Hbxs2.
  assert (length bx2 = length bx) as Hbx2'.
  { destruct (bool_decide (sh = 0));
      [by eapply set_row_length|by injection Hbx2 as <-]. }
  destruct (bool_decide (bin_idx = 0)).
  - apply bind_Ok in Hstep as (row2 & _ & [= <- _ <- _]). split; congruence.
  - injection Hstep as <- _ <- _. split; congruence.
Qed.

(** With jitter, [data] and every row of [sh_data] have one coefficient per
    lag, and [sh_data] has [num_jitters] rows. *)
Lemma shuffle_correlograms_length (num_jitters bin_num : Z)
    (fr1 : list F) sh1 (fr2 : list F) sh2 data sh_data :
  noise_corr_cross true num_jitters bin_num fr1 sh1 fr2 sh2 = Ok (data, Some sh_data) ->
  length data = length (all_bins bin_num) /\
  Forall (fun row => length row = length (all_bins bin_num)) sh_data /\
  length sh_data = Z.to_nat num_jitters.
Proof.
  unfold noise_corr_cross. intros Hrun.
  apply bind_Ok in Hrun as (big_x & Hbig_x%np_zeros2_gen_inv & Hrun).
  apply bind_Ok in Hrun as (y & _ & Hrun).
  apply bind_Ok in Hrun as (sh0 & Hsh0%np_zeros2_gen_inv & Hrun).
  apply bind_Ok in Hrun as ([[[bx' y'] data'] sh_data'] & Hloop & Hrun).
  destruct data' as [d|]; [|done]. injection Hrun as <- <-.
  set (L := length (all_bins bin_num)) in *.
  pose (P := fun s : list (list F) * list F * option (list F) * list (list F) =>
               length (fst (fst (fst s))) = L /\
               (forall d', snd (fst s) = Some d' -> length d' = L) /\
               Forall (fun row => length row = L) (snd s) /\
               length (snd s) = Z.to_nat num_jitters).
  assert (HP : P (bx', y', Some d, sh_data')).
  { revert Hloop. apply (for_each_inv P).
    - intros [[[bx y0] dat] shd] sh [[[bx1 y1] dat1] shd1] (Hbx & Hdat & Hshd & Hn) Hstep.
      cbn [fst snd] in *. unfold shuffle_pass in Hstep.
      apply bind_Ok in Hstep as (bxs & Hbxs%np_zeros2_gen_inv & Hstep).
      apply bind_Ok in Hstep as (ys & _ & Hstep).
      apply bind_Ok in Hstep as ([[[bx2 y2] bxs2] ys2] & Hlags & Hstep).
      apply lag_pass_sh_length in Hlags as [Hbx2 Hbxs2].
      apply bind_Ok in Hstep as (dat2 & Hdat2 & Hstep).
      apply bind_Ok in Hstep as (r & Hr%cross_correlate_length & Hstep).
      apply bind_Ok in Hstep as (shd2 & Hshd2 & [= <- <- <- <-]).
      destruct (set_row_shape _ _ _ _ L Hshd2 Hshd) as [Hlen2 Hrows2].
      unfold P. cbn [fst snd]. split; [congruence|]. split; [|split; [done|congruence]].
      intros d' Hd'. destruct (bool_decide (sh = 0)).
      + apply bind_Ok in Hdat2 as (d0 & Hd0%cross_correlate_length & Hd0').
        assert (d' = d0) as -> by congruence. congruence.
      + apply Hdat. congruence.
    - unfold P. cbn [fst snd]. subst big_x sh0.
      split; [rewrite length_replicate; lia|]. split; [done|].
      split; [|apply length_replicate].
      apply Forall_replicate. rewrite length_replicate. lia. }
  destruct HP as (_ & Hd & Hrows & Hn). cbn [fst snd] in *. auto.
Qed.

End ShuffleShape.

(** * Facts of binary64 arithmetic *)

Lemma b64_mul_comm x y : B64.mul x y = B64.mul y x.
Proof.
  unfold B64.mul, SFmul.
  destruct x as [sx|sx| |sx mx ex], y as [sy|sy| |sy my ey];
    rewrite ?(xorb_comm sx sy); try reflexivity.
  by rewrite (Pos.mul_comm mx my), (Z.add_comm ex ey).
Qed.

Lemma b64_mul_zn_l x y : zero_or_nan x -> zero_or_nan (B64.mul x y).
Proof.
  intros [[s ->]| ->]; [|by right].
  destruct y as [sy|sy| |sy my ey]; cbn; try (by right); left; by eexists.
Qed.

Lemma b64_mul_zn_r x y : zero_or_nan y -> zero_or_nan (B64.mul x y).
Proof. rewrite b64_mul_comm. apply b64_mul_zn_l. Qed.

Lemma b64_sqrt_zn x : zero_or_nan x -> zero_or_nan (B64.sqrt x).
Proof. intros [[s ->]| ->]; cbn; [left; by eexists|by right]. Qed.

Lemma b64_add_zn x y : zero_or_nan x -> zero_or_nan y -> zero_or_nan (B64.add x y).
Proof.
  intros [[sx ->]| ->] [[sy ->]| ->]; try (by right).
  left. destruct sx, sy; cbn; by eexists.
Qed.

Lemma b64_div_zn x y : zero_or_nan x -> zero_or_nan y -> B64.div x y = S754_nan.
Proof. by intros [[sx ->]| ->] [[sy ->]| ->]. Qed.

Lemma b64_div_non_finite x y : zero_or_nan y -> non_finite (B64.div x y).
Proof.
  intros [[sy ->]| ->].
  - destruct x as [sx|sx| |sx mx ex]; cbn; try (by left); right; by eexists.
  - left. by destruct x.
Qed.

Lemma b64_sum_zn (xs : arr) :
  Forall zero_or_nan xs -> zero_or_nan (np_sum xs).
Proof.
  unfold np_sum. cbn [fadd fzero b64_arith].
  assert (Hz : zero_or_nan B64.zero) by (left; by eexists).
  revert Hz. generalize B64.zero as acc. intros acc Hacc Hxs. revert acc Hacc.
  induction Hxs as [|x xs Hx _ IH]; intros acc Hacc; [done|].
  cbn [fold_left]. apply IH. by apply b64_add_zn.
Qed.

(** When every deviation of [x] is a zero, so is (or NaN) the sum of the
    products with any deviations, and the sum of the squares. *)
Lemma b64_products_zn_l (dx dy : arr) :
  Forall is_zero dx -> Forall zero_or_nan (zip_with B64.mul dx dy).
Proof.
  intros Hdx. revert dy. induction Hdx as [|d dx Hd _ IH]; intros [|e dy];
    cbn [zip_with]; constructor; [|apply IH].
  apply b64_mul_zn_l. by left.
Qed.

Lemma b64_products_zn_r (dx dy : arr) :
  Forall is_zero dy -> Forall zero_or_nan (zip_with B64.mul dx dy).
Proof.
  intros Hdy. revert dx. induction Hdy as [|e dy He _ IH]; intros [|d dx];
    cbn [zip_with]; constructor; [|apply IH].
  apply b64_mul_zn_r. by left.
Qed.

Lemma b64_sq_dev_zn (x : arr) (m : spec_float) :
  Forall is_zero (deviations x m) -> zero_or_nan (sq_dev x m).
Proof.
  intros Hd. unfold sq_dev. apply b64_sum_zn.
  induction Hd as [|d ds Hd _ IH]; constructor; [|done].
  apply b64_mul_zn_l. by left.
Qed.

Lemma b64_pearson_non_finite (x : arr) mx (y : arr) my :
  is_zero (sq_dev x mx) \/ is_zero (sq_dev y my) -> non_finite (pearson x mx y my).
Proof.
  intros Hz. unfold pearson. cbn [fdiv fsqrt fmul b64_arith].
  apply b64_div_non_finite, b64_sqrt_zn.
  destruct Hz as [Hz|Hz]; [apply b64_mul_zn_l|apply b64_mul_zn_r]; by left.
Qed.

Lemma b64_pearson_nan (x : arr) mx (y : arr) my :
  Forall is_zero (deviations x mx) \/ Forall is_zero (deviations y my) ->
  pearson x mx y my = S754_nan.
Proof.
  intros Hz. unfold pearson. cbn [fdiv fsqrt fmul b64_arith].
  apply b64_div_zn.
  - apply b64_sum_zn.
    destruct Hz as [Hz|Hz]; [by apply b64_products_zn_l|by apply b64_products_zn_r].
  - apply b64_sqrt_zn.
    destruct Hz as [Hz|Hz]; [apply b64_mul_zn_l|apply b64_mul_zn_r];
      by apply b64_sq_dev_zn.
Qed.

(** * Symmetry and self-correlation of the coefficient *)

Section CoefficientFacts.
Context {F : Type} `{Arith F}.

Lemma zip_with_comm_mul (l k : list F) :
  (forall x y : F, fmul x y = fmul y x) -> zip_with fmul l k = zip_with fmul k l.
Proof.
  intros Hc. revert k. induction l as [|x l IH]; intros [|y k]; try done.
  cbn [zip_with]. by rewrite IH, (Hc x y).
Qed.

(** The coefficient does not change when the two arrays are exchanged, as
    soon as the product of two numbers does not depend on their order. *)
Lemma pearson_comm (x : list F) mx (y : list F) my :
  (forall u v : F, fmul u v = fmul v u) -> pearson x mx y my = pearson y my x mx.
Proof.
  intros Hc. unfold pearson.
  by rewrite (zip_with_comm_mul _ _ Hc), (Hc (sq_dev x mx)).
Qed.

(** The coefficient of an array with itself: the numerator and the two
    denominator terms are one number [S], and the coefficient is
    [S / sqrt (S * S)]. *)
Lemma pearson_self (x : list F) m :
  pearson x m x m = fdiv (sq_dev x m) (fsqrt (fmul (sq_dev x m) (sq_dev x m))).
Proof.
  unfold pearson, sq_dev. do 2 f_equal.
  induction (deviations x m) as [|d ds IH]; [done|].
  cbn [zip_with map]. by rewrite IH.
Qed.

Lemma lookup_lag_coef (a b : list F) (bin_num l : Z) :
  (- bin_num <= l <= bin_num)%Z ->
  map (lag_coef a b bin_num) (all_bins bin_num) !! Z.to_nat (bin_num + l)
  = Some (lag_coef a b bin_num l).
Proof.
  intros Hl. rewrite list_lookup_fmap, lookup_all_bins by done. done.
Qed.

Lemma lag_coef_comm_0 (a b : list F) (bin_num : Z) :
  (forall u v : F, fmul u v = fmul v u) ->
  lag_coef a b bin_num 0 = lag_coef b a bin_num 0.
Proof. intros Hc. unfold lag_coef. by apply pearson_comm. Qed.

End CoefficientFacts.

(** * The cross-correlation claims *)

(** C2, as stated, fails: the signal A is constant (0.1 * 2^-600), its
    squared deviations from the computed mean underflow to zero, so that a
    denominator term is zero, and the coefficient against B = [0, 1, 0] is
    minus infinity, not NaN. *)
Lemma nan_contract_counterexample :
  let c := B64.mul (B64.dec 1 1) (B64.pow2 (-600)) in
  let a := [c; c; c] in
  let b := [B64.zero; B64.one; B64.zero] in
  constant a /\
  sq_dev a (np_mean a) = S754_zero false /\
  correlate_real a b 0 = Ok [S754_infinity true] /\
  ~ nan_at_zero_denominator [a] [np_mean a] b (np_mean b).
Proof.
  intros c a b. split; [|split; [|split]].
  - exists c. by repeat constructor.
  - vm_compute. reflexivity.
  - vm_compute. reflexivity.
  - intros Hnan.
    assert (Hr : cross_correlate [a] [np_mean a] b (np_mean b) = Ok [S754_infinity true])
      by (vm_compute; reflexivity).
    assert (Hz : is_zero (sq_dev a (np_mean a)))
      by (exists false; vm_compute; reflexivity).
    specialize (Hnan [S754_infinity true] 0 a (np_mean a) Hr eq_refl eq_refl
                  (or_introl Hz)).
    discriminate Hnan.
Qed.

(** C2 (amended): for rows as long as [small_y], [cross_correlate] does not
    raise; the coefficient of a lag is computed from the row of that lag
    alone; at a lag where a denominator term is zero it is not a finite
    number (NaN, or an infinity when the numerator is not zero); and it is
    NaN at a lag where every deviation of the row, or every deviation of
    [small_y], is zero. *)
Theorem degenerate_denominator_non_finite (big_x : arr2) (big_x_mean small_y : arr)
    (small_y_mean : spec_float) :
  length big_x_mean = length big_x ->
  Forall (fun row => length row = length small_y) big_x ->
  exists r,
    cross_correlate big_x big_x_mean small_y small_y_mean = Ok r /\
    length r = length big_x /\
    forall l row m,
      big_x !! l = Some row -> big_x_mean !! l = Some m ->
      r !! l = Some (pearson row m small_y small_y_mean) /\
      (is_zero (sq_dev row m) \/ is_zero (sq_dev small_y small_y_mean) ->
       non_finite (pearson row m small_y small_y_mean)) /\
      (Forall is_zero (deviations row m) \/
       Forall is_zero (deviations small_y small_y_mean) ->
       pearson row m small_y small_y_mean = S754_nan).
Proof.
  intros Hlen Hrows. eexists. split; [by apply cross_correlate_Ok|].
  split; [rewrite length_zip_with; lia|].
  intros l row m Hrow Hm. split; [|split].
  - by rewrite lookup_zip_with, Hrow, Hm.
  - apply b64_pearson_non_finite.
  - apply b64_pearson_nan.
Qed.

(** A signal without spikes against [0, 1, 0], next to a row that is fine. *)
Lemma degenerate_denominator_non_finite_witness :
  let z := B64.zero in
  let o := B64.one in
  exists r,
    cross_correlate [[z; z; z]; [o; z; z]] [np_mean [z; z; z]; np_mean [o; z; z]]
      [z; o; z] (np_mean [z; o; z]) = Ok r /\
    r !! 0 = Some S754_nan /\
    r !! 1 = Some (pearson [o; z; z] (np_mean [o; z; z]) [z; o; z] (np_mean [z; o; z])).
Proof.
  intros z o.
  destruct (degenerate_denominator_non_finite
              [[z; z; z]; [o; z; z]] [np_mean [z; z; z]; np_mean [o; z; z]]
              [z; o; z] (np_mean [z; o; z]))
    as (r & Hr & _ & Hlags).
  - reflexivity.
  - repeat constructor.
  - exists r. split; [exact Hr|].
    destruct (Hlags 0 [z; z; z] (np_mean [z; z; z]) eq_refl eq_refl) as (H0 & _ & Hnan).
    destruct (Hlags 1 [o; z; z] (np_mean [o; z; z]) eq_refl eq_refl) as (H1 & _ & _).
    split; [|exact H1]. rewrite H0, Hnan; [reflexivity|]. left.
    repeat constructor; exists false; vm_compute; reflexivity.
Defined.

(** C4, as stated, fails: for A = [0,1,0,0,1], B = [1,0,1,0,0] and
    [bin_num = 1], A against B at lag 1 is -0.5 and B against A at lag -1 is
    0.5. *)
Lemma symmetry_counterexample :
  let z := B64.zero in
  let o := B64.one in
  ~ symmetric_at [z; o; z; z; o] [o; z; o; z; z] 1 1.
Proof.
  intros z o Hsym.
  specialize (Hsym [B64.one; B64.sub B64.zero (B64.dec 5 1); B64.sub B64.zero (B64.dec 5 1)]
                   [B64.dec 5 1; B64.sub B64.zero (B64.dec 5 1); B64.one]
                   ltac:(vm_compute; reflexivity) ltac:(vm_compute; reflexivity)).
  vm_compute in Hsym. discriminate Hsym.
Qed.

(** C4 (amended): for two signals of one length above [2*bin_num], the
    coefficient of A against B at lag 0 is the coefficient of B against A at
    lag 0. *)
Theorem symmetry_at_lag_zero (a b : arr) (bin_num : Z) :
  (0 <= bin_num)%Z -> (2 * bin_num < Z.of_nat (length a))%Z -> length b = length a ->
  exists r_ab r_ba v,
    correlate_real a b bin_num = Ok r_ab /\
    correlate_real b a bin_num = Ok r_ba /\
    r_ab !! Z.to_nat bin_num = Some v /\
    r_ba !! Z.to_nat bin_num = Some v.
Proof.
  intros Hbn Hlen Hab.
  exists (map (lag_coef a b bin_num) (all_bins bin_num)),
         (map (lag_coef b a bin_num) (all_bins bin_num)),
         (lag_coef a b bin_num 0).
  split; [by apply correlate_real_Ok|].
  split; [apply correlate_real_Ok; [done|rewrite Hab; done|done]|].
  replace (Z.to_nat bin_num) with (Z.to_nat (bin_num + 0)) by (f_equal; lia).
  rewrite !lookup_lag_coef by lia. split; [done|].
  f_equal. apply lag_coef_comm_0. apply b64_mul_comm.
Qed.

Lemma symmetry_at_lag_zero_witness :
  let z := B64.zero in
  let o := B64.one in
  exists r_ab r_ba v,
    correlate_real [z; o; z; z; o] [o; z; o; z; z] 1 = Ok r_ab /\
    correlate_real [o; z; o; z; z] [z; o; z; z; o] 1 = Ok r_ba /\
    r_ab !! 1 = Some v /\ r_ba !! 1 = Some v.
Proof.
  intros z o.
  apply (symmetry_at_lag_zero [z; o; z; z; o] [o; z; o; z; z] 1).
  - lia.
  - cbn [length]. lia.
  - reflexivity.
Defined.

(** At lag 0 of a signal against itself, the numerator and the two
    denominator terms of the coefficient are one number [S], whatever the
    arithmetic: the coefficient is [S / sqrt (S * S)]. *)
Lemma self_correlation_shape {F : Type} `{Arith F} (a : list F) (bin_num : Z) :
  let S := sq_dev (lag_slice a bin_num 0) (np_mean (lag_slice a bin_num 0)) in
  lag_coef a a bin_num 0 = fdiv S (fsqrt (fmul S S)).
Proof. cbv zeta. unfold lag_coef. apply pearson_self. Qed.

(** In binary64, on a signal of zeros and ones, the three roundings give 1.0. *)
Lemma self_correlation_b64_example :
  let z := B64.zero in
  let o := B64.one in
  correlate_real [z; o; z; z; o] [z; o; z; z; o] 1
  = Ok [B64.sub B64.zero (B64.dec 5 1); B64.one; B64.sub B64.zero (B64.dec 5 1)].
Proof. vm_compute. reflexivity. Qed.

(** The coefficient of an array with itself is exactly 1.0, whatever the mean
    that is subtracted, when the sum of the squared deviations is a normal
    number whose square is normal: the square root of the square is then
    the number itself. *)
Lemma b64_pearson_self_one (x : arr) (m : spec_float) :
  squares_in_range (sq_dev x m) = true -> pearson x m x m = B64.one.
Proof.
  intros Hrange. rewrite pearson_self. cbn [fdiv fsqrt fmul b64_arith].
  destruct (sq_dev x m) as [| | |[] mant e]; try done.
  cbn [squares_in_range] in Hrange.
  apply andb_true_iff in Hrange as [Hrange He2%Z.leb_le].
  apply andb_true_iff in Hrange as [Hrange He1%Z.leb_le].
  apply andb_true_iff in Hrange as [Hm1%Z.leb_le Hm2%Z.ltb_lt].
  rewrite b64_sqrt_mul_self by done. apply b64_div_self.
Qed.

(** C3, as stated, fails in binary64: the centre slice of [0, 2^300, 0] is
    not constant, but the square of the sum of its squared deviations
    overflows and the coefficient at lag 0 is 0.0; for [0, 2^-600, 0] the
    squared deviations underflow to zero and the coefficient is NaN, which is
    within no tolerance of 1.0. *)
Lemma self_correlation_counterexample :
  let big := [B64.zero; B64.pow2 300; B64.zero] in
  let tiny := [B64.zero; B64.pow2 (-600); B64.zero] in
  ~ constant big /\ correlate_real big big 0 = Ok [B64.zero] /\
  ~ constant tiny /\ correlate_real tiny tiny 0 = Ok [S754_nan] /\
  forall tol, ~ unit_self_correlation_at tiny 0 tol.
Proof.
  intros big tiny.
  assert (Hbig : ~ constant big).
  { intros [c Hc]. apply Forall_cons in Hc as [<- Hc]. apply Forall_cons in Hc as [Hc _].
    vm_compute in Hc. discriminate Hc. }
  assert (Htiny : ~ constant tiny).
  { intros [c Hc]. apply Forall_cons in Hc as [<- Hc]. apply Forall_cons in Hc as [Hc _].
    vm_compute in Hc. discriminate Hc. }
  assert (Hr : correlate_real tiny tiny 0 = Ok [S754_nan]) by (vm_compute; reflexivity).
  split; [done|]. split; [vm_compute; reflexivity|]. split; [done|]. split; [done|].
  intros tol Hunit. destruct Hunit as (data & v & Hdata & Hv & Hclose).
  - intros Hc. apply Htiny. revert Hc. by vm_compute.
  - rewrite Hr in Hdata. injection Hdata as <-. injection Hv as <-.
    by destruct tol.
Qed.

(** C3 (amended): for a signal longer than [2*bin_num], when the sum of the
    squared deviations of the centre slice, as binary64 computes it, is a
    normal number from [2^-511] up to [2^511], the coefficient of the signal
    against itself at lag 0 is exactly 1.0; the coefficient of the slice
    with itself is 1.0 for every value of the mean with such a sum. *)
Theorem self_correlation_lag_zero (a : arr) (bin_num : Z) :
  (0 <= bin_num)%Z -> (2 * bin_num < Z.of_nat (length a))%Z ->
  let c := lag_slice a bin_num 0 in
  (forall m, squares_in_range (sq_dev c m) = true -> pearson c m c m = B64.one) /\
  (squares_in_range (sq_dev c (np_mean c)) = true ->
   exists data,
     correlate_real a a bin_num = Ok data /\ data !! Z.to_nat bin_num = Some B64.one).
Proof.
  intros Hbn Hlen c. split; [intros m; apply b64_pearson_self_one|].
  intros Hrange. exists (map (lag_coef a a bin_num) (all_bins bin_num)).
  split; [by apply correlate_real_Ok|].
  replace (Z.to_nat bin_num) with (Z.to_nat (bin_num + 0)) by (f_equal; lia).
  rewrite lookup_lag_coef by lia. f_equal.
  unfold lag_coef. by apply b64_pearson_self_one.
Qed.

Lemma self_correlation_lag_zero_witness :
  let z := B64.zero in
  let o := B64.one in
  exists data,
    correlate_real [z; o; z; z; o] [z; o; z; z; o] 1 = Ok data /\
    data !! 1 = Some B64.one.
Proof.
  intros z o.
  destruct (self_correlation_lag_zero [z; o; z; z; o] 1) as [_ Hone].
  - lia.
  - cbn [length]. lia.
  - apply Hone. vm_compute. reflexivity.
Defined.

(** * Further properties of [get_firing_rate] *)

Lemma length_remove_dups_le (ks : list nat) : length (remove_dups ks) <= length ks.
Proof.
  induction ks as [|k ks IH]; [done|]. cbn [remove_dups length].
  destruct (decide_rel elem_of k ks); cbn [length]; lia.
Qed.

Lemma norm_indices_length n idx ks : norm_indices n idx = Ok ks -> length ks = length idx.
Proof. intros HF%norm_indices_Ok. symmetry. by eapply Forall2_length. Qed.

Lemma entries_total_marks_le n idx ks :
  norm_indices n idx = Ok ks -> (entries_total (marks n ks) <= Z.of_nat (length idx))%Z.
Proof.
  intros Hks. rewrite entries_total_marks by (by eapply norm_indices_bound).
  pose proof (length_remove_dups_le ks). apply norm_indices_length in Hks. lia.
Qed.

Lemma entries_total_zeros n : entries_total (replicate n B64.zero) = 0%Z.
Proof. unfold entries_total. induction n as [|n IH]; [done|]. cbn. cbn in IH. by rewrite IH. Qed.

Lemma iadd_at_nil (a : arr) c : iadd_at a [] c = Ok a.
Proof. reflexivity. Qed.

(** X1: whenever the real signal is binned (without jitter, or with jitter
    and at least one pass), its entries sum up to the number of distinct bins
    that the spikes fall into (a bin counted from the end being the bin it
    denotes). *)
Theorem signal_total_distinct_bins cl bin start stop to_jitter js N g fr jit g' :
  get_firing_rate cl bin start stop to_jitter js N g = Ok (fr, jit, g') ->
  to_jitter = false \/ (0 < N)%Z ->
  exists ks,
    norm_indices (length fr) (bin_indices cl bin) = Ok ks /\
    entries_total fr = Z.of_nat (length (remove_dups ks)).
Proof.
  intros Hrun Hmode.
  assert (exists n ks, norm_indices (Z.to_nat n) (bin_indices cl bin) = Ok ks /\
                       fr = marks (Z.to_nat n) ks) as (n & ks & Hks & ->).
  { destruct to_jitter.
    - destruct Hmode as [|Hpos]; [done|].
      apply get_firing_rate_jitter in Hrun as (n & _ & _ & _ & _ & _ & Hfr).
      rewrite bool_decide_eq_true_2 in Hfr by done. destruct Hfr as (ks & ? & ?).
      by exists n, ks.
    - apply get_firing_rate_plain in Hrun as (n & ks & _ & _ & _ & ? & ? & _).
      by exists n, ks. }
  exists ks. rewrite length_marks. split; [done|].
  apply entries_total_marks. by eapply norm_indices_bound.
Qed.

(** Spikes at 0.1 s, 0.101 s and 0.3 s with 0.1 s bins: two distinct bins. *)
Lemma signal_total_distinct_bins_witness :
  exists fr jit g',
    get_firing_rate [B64.dec 1 1; B64.dec 101 3; B64.dec 3 1] (B64.dec 1 1) B64.zero
      (B64.dec 4 1) true default_jitter_size 2 (rng_const (B64.dec 5 1))
    = Ok (fr, jit, g') /\
    entries_total fr = 2%Z.
Proof.
  destruct (get_firing_rate [B64.dec 1 1; B64.dec 101 3; B64.dec 3 1] (B64.dec 1 1) B64.zero
              (B64.dec 4 1) true default_jitter_size 2 (rng_const (B64.dec 5 1)))
    as [[[fr jit] g']|e] eqn:E; [|vm_compute in E; discriminate E].
  exists fr, jit, g'. split; [reflexivity|].
  destruct (signal_total_distinct_bins _ _ _ _ _ _ _ _ _ _ _ E) as (ks & Hks & ->);
    [right; lia|].
  assert (Hfr : length fr = 4) by (vm_compute in E; injection E as <- _ _; reflexivity).
  rewrite Hfr in Hks. clear E Hfr. vm_compute in Hks. injection Hks as <-. reflexivity.
Defined.

(** X2: no binning pass counts more than there are spikes: the entries of the
    real signal, and those of every row of the ensemble, sum up to at most
    the number of input spikes. *)
Theorem totals_bounded_by_spikes cl bin start stop to_jitter js N g fr jit g' :
  get_firing_rate cl bin start stop to_jitter js N g = Ok (fr, jit, g') ->
  (entries_total fr <= Z.of_nat (length cl))%Z /\
  Forall (fun row => (entries_total row <= Z.of_nat (length cl))%Z) jit.
Proof.
  assert (Hbin : forall ts, length (bin_indices ts bin) = length ts)
    by (intros ts; unfold bin_indices; apply length_map).
  destruct to_jitter; intros Hrun.
  - apply get_firing_rate_jitter in Hrun as (n & _ & _ & _ & Hlen & Hrows & Hfr). split.
    + case_bool_decide.
      * destruct Hfr as (ks & Hks & ->).
        pose proof (entries_total_marks_le _ _ _ Hks) as Hle. rewrite Hbin in Hle. lia.
      * subst fr. rewrite entries_total_zeros. lia.
    + apply Forall_lookup. intros sh row Hrow.
      destruct (Hrows sh) as (ks & Hks & Hsh).
      { rewrite <- Hlen. by eapply lookup_lt_Some. }
      rewrite Hrow in Hsh. injection Hsh as ->.
      pose proof (entries_total_marks_le _ _ _ Hks) as Hle.
      unfold jitter_indices in Hle. rewrite Hbin in Hle.
      match type of Hle with
      | context [length (filter ?P ?l)] =>
          pose proof (length_filter P l) as Hf;
          assert (length l <= length cl) as Hj
      end.
      { unfold jitter. rewrite length_zip_with. lia. }
      lia.
  - apply get_firing_rate_plain in Hrun as (n & ks & _ & _ & _ & Hks & -> & -> & _). split.
    + pose proof (entries_total_marks_le _ _ _ Hks) as Hle. rewrite Hbin in Hle. lia.
    + apply Forall_replicate. rewrite entries_total_zeros. lia.
Qed.

Lemma totals_bounded_by_spikes_witness :
  exists fr jit g',
    get_firing_rate [B64.dec 1 1; B64.dec 101 3; B64.dec 3 1] (B64.dec 1 1) B64.zero
      (B64.dec 4 1) true default_jitter_size 2 (rng_const B64.zero)
    = Ok (fr, jit, g') /\
    (entries_total fr <= 3)%Z /\ Forall (fun row => (entries_total row <= 3)%Z) jit.
Proof.
  destruct (get_firing_rate [B64.dec 1 1; B64.dec 101 3; B64.dec 3 1] (B64.dec 1 1) B64.zero
              (B64.dec 4 1) true default_jitter_size 2 (rng_const B64.zero))
    as [[[fr jit] g']|e] eqn:E; [|vm_compute in E; discriminate E].
  exists fr, jit, g'. split; [reflexivity|].
  exact (totals_bounded_by_spikes _ _ _ _ _ _ _ _ _ _ _ E).
Defined.

(** X3: with jitter and at least one pass, the real signal is the one the
    call without jitter returns for the same spikes, bin size and window,
    whatever the jitter size and the random draws. *)
Theorem real_signal_independent_of_jitter cl bin start stop js N g fr jit g' js' N' g2 :
  get_firing_rate cl bin start stop true js N g = Ok (fr, jit, g') ->
  (0 < N)%Z -> (0 <= N')%Z ->
  get_firing_rate cl bin start stop false js' N' g2
  = Ok (fr, replicate (Z.to_nat N') (replicate (length fr) B64.zero), g2).
Proof.
  intros Hrun HN HN'.
  apply get_firing_rate_jitter in Hrun as (n & Hn & Hn0 & _ & _ & _ & Hfr).
  rewrite bool_decide_eq_true_2 in Hfr by done. destruct Hfr as (ks & Hks & ->).
  apply get_firing_rate_plain. exists n, ks. by rewrite length_marks.
Qed.

Lemma real_signal_independent_of_jitter_witness :
  exists fr jit g',
    get_firing_rate [B64.dec 1 1; B64.dec 3 1] (B64.dec 1 1) B64.zero (B64.dec 4 1) true
      default_jitter_size 2 (rng_const B64.zero) = Ok (fr, jit, g') /\
    get_firing_rate [B64.dec 1 1; B64.dec 3 1] (B64.dec 1 1) B64.zero (B64.dec 4 1) false
      default_jitter_size 1 (rng_const B64.zero)
    = Ok (fr, [replicate (length fr) B64.zero], rng_const B64.zero).
Proof.
  destruct (get_firing_rate [B64.dec 1 1; B64.dec 3 1] (B64.dec 1 1) B64.zero (B64.dec 4 1)
              true default_jitter_size 2 (rng_const B64.zero))
    as [[[fr jit] g']|e] eqn:E; [|vm_compute in E; discriminate E].
  exists fr, jit, g'. split; [reflexivity|].
  apply (real_signal_independent_of_jitter _ _ _ _ _ _ _ _ _ _ default_jitter_size 1
           (rng_const B64.zero) E); lia.
Defined.

(** X4: with jitter and [shuffle_n = 0] there is no pass, so the spikes are
    never binned: the signal is all zeros and the ensemble has no row, and no
    spike can raise [IndexError], wherever it lies. *)
Theorem zero_shuffles_skip_binning cl bin start stop js g n :
  n_bins bin start stop = Ok n -> (0 <= n)%Z ->
  get_firing_rate cl bin start stop true js 0 g = Ok (replicate (Z.to_nat n) B64.zero, [], g).
Proof.
  intros Hn Hn0. unfold get_firing_rate. rewrite Hn. cbn [mbind result_bind].
  rewrite (proj2 (np_zeros_Ok n _) (conj Hn0 eq_refl)). cbn [mbind result_bind].
  rewrite (proj2 (np_zeros2_Ok 0 _ _)
             (conj (Z.le_refl 0) (conj (Nat2Z.is_nonneg _) eq_refl))).
  reflexivity.
Qed.

(** A spike at 0.4 s, which raises [IndexError] as soon as it is binned. *)
Lemma zero_shuffles_skip_binning_witness :
  get_firing_rate [B64.dec 4 1] (B64.dec 1 2) B64.zero (B64.dec 4 1) true
    default_jitter_size 0 (rng_const B64.zero)
  = Ok (replicate 40 B64.zero, [], rng_const B64.zero).
Proof.
  apply (zero_shuffles_skip_binning _ _ _ _ _ _ 40).
  - vm_compute. reflexivity.
  - lia.
Defined.

(** X5: with jitter, [get_firing_rate] takes [shuffle_n] times the number of
    spikes from the random generator, in order, and nothing else. *)
Theorem jitter_consumes_draws cl bin start stop js N g fr jit g' :
  get_firing_rate cl bin start stop true js N g = Ok (fr, jit, g') ->
  draws g' = draws g /\ pos g' = pos g + Z.to_nat N * length cl.
Proof.
  unfold get_firing_rate. intros H.
  apply bind_Ok in H as (n & _ & H).
  apply bind_Ok in H as (fr0 & _ & H).
  apply bind_Ok in H as (jit0 & _ & H).
  rewrite <- (rng_at_0 g) in H at 1.
  change (rng_at g 0) with (rng_at g (0 * length cl)) in H.
  apply jitter_loop_Ok in H as (-> & _). done.
Qed.

Lemma jitter_consumes_draws_witness :
  exists fr jit g',
    get_firing_rate [B64.dec 1 1; B64.dec 3 1] (B64.dec 1 1) B64.zero (B64.dec 4 1) true
      default_jitter_size 3 (rng_const B64.zero) = Ok (fr, jit, g') /\
    pos g' = 6.
Proof.
  destruct (get_firing_rate [B64.dec 1 1; B64.dec 3 1] (B64.dec 1 1) B64.zero (B64.dec 4 1)
              true default_jitter_size 3 (rng_const B64.zero))
    as [[[fr jit] g']|e] eqn:E; [|vm_compute in E; discriminate E].
  exists fr, jit, g'. split; [reflexivity|].
  destruct (jitter_consumes_draws _ _ _ _ _ _ _ _ _ _ E) as [_ ->]. reflexivity.
Defined.

(** X6: with a bin size of zero [get_firing_rate] never returns a signal:
    line 25 raises, in both modes, whatever the spikes and the window, before
    a spike is binned.  (Which exception it is depends on the operands: the
    quotient of NumPy floats is infinite or NaN and its conversion raises
    [OverflowError] or [ValueError]; Python floats raise at the division.
    The statement holds for both.) *)
Theorem zero_bin_size_never_returns cl bin start stop to_jitter js N g :
  is_zero bin ->
  forall r, get_firing_rate cl bin start stop to_jitter js N g <> Ok r.
Proof.
  intros [s ->] r. unfold get_firing_rate, n_bins.
  by destruct (B64.sub stop start) as [sd|sd| |sd md ed].
Qed.

Lemma zero_bin_size_never_returns_witness :
  exists e,
    get_firing_rate [B64.dec 1 1] B64.zero B64.zero (B64.dec 4 1) false default_jitter_size 1
      (rng_const B64.zero) = Raise e.
Proof.
  destruct (get_firing_rate [B64.dec 1 1] B64.zero B64.zero (B64.dec 4 1) false
              default_jitter_size 1 (rng_const B64.zero)) as [r|e] eqn:E.
  - exfalso. revert E.
    apply (zero_bin_size_never_returns [B64.dec 1 1] B64.zero). by exists false.
  - by exists e.
Defined.

(** X7: a negative number of bins (a window that ends before it starts, or a
    negative bin size) and a negative [shuffle_n] raise [ValueError], in
    both modes and whatever the spikes. *)
Theorem negative_dimensions_raise cl bin start stop to_jitter js N g n :
  n_bins bin start stop = Ok n -> (n < 0 \/ N < 0)%Z ->
  get_firing_rate cl bin start stop to_jitter js N g = Raise ValueError.
Proof.
  intros Hn Hneg. unfold get_firing_rate. rewrite Hn. cbn [mbind result_bind].
  unfold np_zeros. case_bool_decide as Hn0; [done|]. cbn [mbind result_bind].
  unfold np_zeros2. rewrite (bool_decide_eq_true_2 (N < 0)%Z) by lia. done.
Qed.

Lemma negative_dimensions_raise_witness :
  get_firing_rate [B64.dec 1 1] (B64.dec 1 2) (B64.dec 4 1) B64.zero false
    default_jitter_size 1 (rng_const B64.zero) = Raise ValueError.
Proof.
  apply (negative_dimensions_raise _ _ _ _ _ _ _ _ (-40)).
  - vm_compute. reflexivity.
  - left. lia.
Defined.

Lemma jitter_pass_nil bin stop js fr jit g sh row :
  jit !! sh = Some row ->
  jitter_pass [] bin stop js (fr, jit, g) sh = Ok (fr, jit, g).
Proof.
  intros Hrow. unfold jitter_pass, np_random_random. cbn [length seq map].
  change {| draws := draws g; pos := pos g + 0 |} with (rng_at g 0). rewrite rng_at_0.
  unfold iadd_at2. rewrite Hrow. rewrite !iadd_at_nil. cbn [mbind result_bind].
  rewrite list_insert_id by done. by case_bool_decide.
Qed.

Lemma jitter_loop_nil bin stop js fr jit g shs :
  Forall (fun sh => sh < length jit) shs ->
  for_each (jitter_pass [] bin stop js) shs (fr, jit, g) = Ok (fr, jit, g).
Proof.
  induction 1 as [|sh shs Hsh _ IH]; [done|]. cbn [for_each].
  destruct (lookup_lt_is_Some_2 jit sh Hsh) as [row Hrow].
  by rewrite (jitter_pass_nil _ _ _ _ _ _ _ row Hrow).
Qed.

(** X8: a spike train without spikes gives a signal of zeros and an ensemble
    of zeros in both modes, and takes no draw from the generator. *)
Theorem empty_spike_train_zero_signal bin start stop to_jitter js N g n :
  n_bins bin start stop = Ok n -> (0 <= n)%Z -> (0 <= N)%Z ->
  get_firing_rate [] bin start stop to_jitter js N g
  = Ok (replicate (Z.to_nat n) B64.zero,
        replicate (Z.to_nat N) (replicate (Z.to_nat n) B64.zero), g).
Proof.
  intros Hn Hn0 HN. unfold get_firing_rate. rewrite Hn. cbn [mbind result_bind].
  rewrite (proj2 (np_zeros_Ok n _) (conj Hn0 eq_refl)). cbn [mbind result_bind].
  rewrite (proj2 (np_zeros2_Ok N _ _) (conj HN (conj (Nat2Z.is_nonneg _) eq_refl))).
  cbn [mbind result_bind]. rewrite length_replicate, Nat2Z.id.
  destruct to_jitter; [|reflexivity].
  apply jitter_loop_nil. apply Forall_forall. intros sh Hsh%elem_of_seq.
  rewrite length_replicate. lia.
Qed.

Lemma empty_spike_train_zero_signal_witness :
  get_firing_rate [] (B64.dec 1 1) B64.zero (B64.dec 4 1) true default_jitter_size 2
    (rng_const B64.zero)
  = Ok (replicate 4 B64.zero, replicate 2 (replicate 4 B64.zero), rng_const B64.zero).
Proof.
  apply (empty_spike_train_zero_signal _ _ _ true _ 2 _ 4).
  - vm_compute. reflexivity.
  - lia.
  - lia.
Defined.

(** * Further properties of the cross-correlation *)

Lemma Forall_py_slice {A} (P : A -> Prop) (a : list A) (s e : Z) :
  Forall P a -> Forall P (py_slice a s e).
Proof. intros Ha. unfold py_slice. by apply Forall_take, Forall_drop. Qed.

Lemma map_const_replicate {A B} (f : A -> B) (c : B) (l : list A) :
  (forall x, x ∈ l -> f x = c) -> map f l = replicate (length l) c.
Proof.
  induction l as [|x l IH]; intros Hf; [done|]. cbn [map length replicate].
  rewrite (Hf x) by left. rewrite IH; [done|]. intros y Hy. apply Hf. by right.
Qed.

Lemma b64_div_zn_l x y : zero_or_nan x -> zero_or_nan (B64.div x y).
Proof.
  intros [[s ->]| ->]; [|by right].
  destruct y as [sy|sy| |sy my ey]; cbn; try (by right); left; by eexists.
Qed.

Lemma b64_sub_zn x y : is_zero x -> zero_or_nan y -> zero_or_nan (B64.sub x y).
Proof.
  intros [sx ->] [[sy ->]| ->]; [|by right].
  left. destruct sx, sy; cbn; by eexists.
Qed.

Lemma b64_products_zn (dx dy : arr) :
  Forall zero_or_nan dx \/ Forall zero_or_nan dy ->
  Forall zero_or_nan (zip_with B64.mul dx dy).
Proof.
  intros [Hd|Hd].
  - revert dy. induction Hd as [|d dx Hd _ IH]; intros [|e dy]; cbn [zip_with];
      constructor; [by apply b64_mul_zn_l|apply IH].
  - revert dx. induction Hd as [|e dy He _ IH]; intros [|d dx]; cbn [zip_with];
      constructor; [by apply b64_mul_zn_r|apply IH].
Qed.

Lemma b64_squares_zn (ds : arr) :
  Forall zero_or_nan ds -> zero_or_nan (np_sum (map (fun d => fmul d d) ds)).
Proof.
  intros Hd. apply b64_sum_zn.
  induction Hd as [|d ds Hd _ IH]; constructor; [|done]. by apply b64_mul_zn_l.
Qed.

(** When every deviation of one of the two arrays is a zero or NaN, the
    coefficient is NaN. *)
Lemma b64_pearson_nan_zn (x : arr) mx (y : arr) my :
  Forall zero_or_nan (deviations x mx) \/ Forall zero_or_nan (deviations y my) ->
  pearson x mx y my = S754_nan.
Proof.
  intros Hz. unfold pearson. cbn [fdiv fsqrt fmul b64_arith].
  apply b64_div_zn.
  - apply b64_sum_zn. by apply b64_products_zn.
  - apply b64_sqrt_zn. unfold sq_dev.
    destruct Hz as [Hz|Hz]; [apply b64_mul_zn_l|apply b64_mul_zn_r];
      by apply b64_squares_zn.
Qed.

(** The deviations of an array of zeros from its mean are zeros, or NaN when
    the array is empty. *)
Lemma b64_silent_deviations (x : arr) :
  Forall is_zero x -> Forall zero_or_nan (deviations x (np_mean x)).
Proof.
  intros Hx.
  assert (Hm : zero_or_nan (np_mean x)).
  { unfold np_mean. cbn [fdiv b64_arith]. apply b64_div_zn_l, b64_sum_zn.
    eapply Forall_impl; [exact Hx|]. intros v Hv. by left. }
  revert Hm. generalize (np_mean x) as m. intros m Hm.
  unfold deviations. cbn [fsub b64_arith].
  induction Hx as [|v x Hv _ IH]; cbn [map]; constructor; [|done].
  by apply b64_sub_zn.
Qed.

(** X9: when one of the two signals has no spike (all its entries are
    zero), every coefficient of the correlogram is NaN; the cross-correlation
    returns and does not raise. *)
Theorem silent_signal_all_nan (a b : arr) (bin_num : Z) :
  (0 <= bin_num)%Z -> (2 * bin_num < Z.of_nat (length a))%Z -> length b = length a ->
  Forall is_zero a \/ Forall is_zero b ->
  correlate_real a b bin_num = Ok (replicate (Z.to_nat (2 * bin_num + 1)) S754_nan).
Proof.
  intros Hbn Hlen Hab Hsilent. rewrite correlate_real_Ok by done. f_equal.
  rewrite <- length_all_bins. apply map_const_replicate. intros l _.
  unfold lag_coef. apply b64_pearson_nan_zn.
  destruct Hsilent as [Ha|Hb]; [left|right];
    by apply b64_silent_deviations, Forall_py_slice.
Qed.

Lemma silent_signal_all_nan_witness :
  correlate_real (replicate 5 B64.zero)
    [B64.zero; B64.one; B64.zero; B64.zero; B64.one] 1
  = Ok [S754_nan; S754_nan; S754_nan].
Proof.
  apply (silent_signal_all_nan (replicate 5 B64.zero)
           [B64.zero; B64.one; B64.zero; B64.zero; B64.one] 1).
  - lia.
  - cbn [length replicate]. lia.
  - reflexivity.
  - left. apply Forall_replicate. by exists false.
Defined.

(** X10: signals shorter than [2*bin_num] raise [ValueError], with and
    without jitter: the matrix of the lags would have a negative number of
    columns. *)
Theorem short_signal_raises {F : Type} `{Arith F} (to_jitter : bool) (num_jitters bin_num : Z)
    (fr1 : list F) (sh1 : list (list F)) (fr2 : list F) (sh2 : list (list F)) :
  (Z.of_nat (length fr1) < 2 * bin_num)%Z ->
  noise_corr_cross to_jitter num_jitters bin_num fr1 sh1 fr2 sh2 = Raise ValueError.
Proof.
  intros Hshort.
  assert (Hz : forall rows,
             np_zeros2 (F:=F) rows (Z.of_nat (length fr1) - bin_num - bin_num)
             = Raise ValueError).
  { intros rows. unfold np_zeros2.
    rewrite (bool_decide_eq_true_2 (_ - _ - _ < 0)%Z) by lia. by rewrite orb_true_r. }
  unfold noise_corr_cross, correlate_real. destruct to_jitter; by rewrite Hz.
Qed.

Lemma short_signal_raises_witness :
  noise_corr_cross false 1 2 [B64.zero; B64.one; B64.zero] [] [B64.zero; B64.one; B64.zero] []
  = Raise ValueError.
Proof. apply short_signal_raises. cbn [length]. lia. Defined.

(** X11: a negative [bin_num] is not rejected: there is no lag, and the
    cross-correlation without jitter returns an empty correlogram. *)
Theorem negative_bin_num_empty {F : Type} `{Arith F} (num_jitters bin_num : Z)
    (fr1 : list F) (sh1 : list (list F)) (fr2 : list F) (sh2 : list (list F)) :
  (bin_num < 0)%Z ->
  noise_corr_cross false num_jitters bin_num fr1 sh1 fr2 sh2 = Ok ([], None).
Proof.
  intros Hneg. unfold noise_corr_cross, correlate_real.
  assert (all_bins bin_num = []) as ->.
  { unfold all_bins. by replace (Z.to_nat (2 * bin_num + 1)) with 0 by lia. }
  rewrite np_zeros2_gen_Ok by (cbn [length]; lia). cbn [mbind result_bind].
  rewrite np_zeros_gen_Ok by lia. reflexivity.
Qed.

Lemma negative_bin_num_empty_witness :
  noise_corr_cross false 1 (-1) [B64.zero; B64.one] [] [B64.one; B64.zero] []
  = Ok ([], None).
Proof. apply negative_bin_num_empty. lia. Defined.

(** X12: with jitter and [num_jitters = 0] the loop has no pass and [data]
    is never assigned: reading it raises [UnboundLocalError]. *)
Theorem jitter_without_passes_unbound {F : Type} `{Arith F} (bin_num : Z)
    (fr1 : list F) (sh1 : list (list F)) (fr2 : list F) (sh2 : list (list F)) :
  (2 * bin_num <= Z.of_nat (length fr1))%Z ->
  noise_corr_cross true 0 bin_num fr1 sh1 fr2 sh2 = Raise UnboundLocalError.
Proof.
  intros Hlen. unfold noise_corr_cross.
  rewrite np_zeros2_gen_Ok by lia. cbn [mbind result_bind].
  rewrite np_zeros_gen_Ok by lia. cbn [mbind result_bind].
  rewrite np_zeros2_gen_Ok by lia. reflexivity.
Qed.

Lemma jitter_without_passes_unbound_witness :
  noise_corr_cross true 0 1 [B64.zero; B64.one; B64.zero] [] [B64.zero; B64.one; B64.zero] []
  = Raise UnboundLocalError.
Proof. apply jitter_without_passes_unbound. cbn [length]. lia. Defined.

Lemma for_each_inv_in {S X} (P : S -> Prop) (body : S -> X -> result S) (xs : list X) :
  (forall s x s', x ∈ xs -> P s -> body s x = Ok s' -> P s') ->
  forall s s', P s -> for_each body xs s = Ok s' -> P s'.
Proof.
  induction xs as [|x xs IH]; intros Hbody s s' Hs Hrun; cbn [for_each] in Hrun.
  - by injection Hrun as <-.
  - destruct (body s x) as [s1|e] eqn:Hs1; [|done].
    apply (IH (fun s0 y s0' Hy => Hbody s0 y s0' (list_elem_of_further _ _ _ Hy)) s1 s');
      [|done].
    eapply Hbody; [left|exact Hs|exact Hs1].
Qed.

Section JitterKeepsReal.
Context {F : Type} `{Arith F}.

(** In pass 0 the loop over the lags fills [big_x] and [y] as it does
    without jitter. *)
Lemma lag_pass_sh_real (fr1 : list F) sh1 (fr2 : list F) sh2 bin_num its :
  forall big_x y big_x_sh y_sh big_x' y' big_x_sh' y_sh',
    for_each (lag_pass_sh fr1 sh1 fr2 sh2 bin_num 0) its (big_x, y, big_x_sh, y_sh)
      = Ok (big_x', y', big_x_sh', y_sh') ->
    for_each (lag_pass fr1 fr2 bin_num) its (big_x, y) = Ok (big_x', y').
Proof.
  induction its as [|[bin_idx one_bin] its IH];
    intros big_x y big_x_sh y_sh big_x' y' big_x_sh' y_sh' Hrun; cbn [for_each] in Hrun |- *.
  - by injection Hrun as <- <- _ _.
  - destruct (lag_pass_sh fr1 sh1 fr2 sh2 bin_num 0 (big_x, y, big_x_sh, y_sh)
                (bin_idx, one_bin)) as [[[[bx1 y1] bxs1] ys1]|e] eqn:Hstep; [|done].
    apply IH in Hrun. unfold lag_pass_sh in Hstep. unfold lag_pass.
    rewrite (bool_decide_eq_true_2 (0 = 0)) in Hstep by done.
    apply bind_Ok in Hstep as (bx2 & Hbx2 & Hstep). rewrite Hbx2. cbn [mbind result_bind].
    apply bind_Ok in Hstep as (row1 & _ & Hstep).
    apply bind_Ok in Hstep as (bxs2 & _ & Hstep).
    destruct (bool_decide (bin_idx = 0)).
    + apply bind_Ok in Hstep as (row2 & _ & [= <- <- _ _]). done.
    + injection Hstep as <- <- _ _. done.
Qed.

(** In a later pass it leaves them as they are. *)
Lemma lag_pass_sh_later (fr1 : list F) sh1 (fr2 : list F) sh2 bin_num sh its
    big_x y big_x_sh y_sh big_x' y' big_x_sh' y_sh' :
  sh <> 0 ->
  for_each (lag_pass_sh fr1 sh1 fr2 sh2 bin_num sh) its (big_x, y, big_x_sh, y_sh)
    = Ok (big_x', y', big_x_sh', y_sh') ->
  big_x' = big_x /\ y' = y.
Proof.
  intros Hsh.
  apply (for_each_inv
           (fun s : list (list F) * list F * list (list F) * list F =>
              fst (fst (fst s)) = big_x /\ snd (fst (fst s)) = y)); [|done].
  intros [[[bx y0] bxs] ys0] [bin_idx one_bin] [[[bx1 y1] bxs1] ys1] [Hbx Hy] Hstep.
  cbn [fst snd] in *. subst bx y0. unfold lag_pass_sh in Hstep.
  rewrite (bool_decide_eq_false_2 (sh = 0)) in Hstep by done.
  cbn [mbind result_bind] in Hstep.
  apply bind_Ok in Hstep as (row1 & _ & Hstep).
  apply bind_Ok in Hstep as (bxs2 & _ & Hstep).
  destruct (bool_decide (bin_idx = 0)).
  - apply bind_Ok in Hstep as (row2 & _ & [= <- <- _ _]). done.
  - injection Hstep as <- <- _ _. done.
Qed.

Lemma shuffle_pass_later (fr1 : list F) sh1 (fr2 : list F) sh2 bin_num sh
    big_x y data sh_data big_x' y' data' sh_data' :
  sh <> 0 ->
  shuffle_pass fr1 sh1 fr2 sh2 bin_num (big_x, y, data, sh_data) sh
    = Ok (big_x', y', data', sh_data') ->
  data' = data.
Proof.
  intros Hsh Hstep. unfold shuffle_pass in Hstep.
  apply bind_Ok in Hstep as (bxs & _ & Hstep).
  apply bind_Ok in Hstep as (ys & _ & Hstep).
  apply bind_Ok in Hstep as ([[[bx2 y2] bxs2] ys2] & _ & Hstep).
  rewrite (bool_decide_eq_false_2 (sh = 0)) in Hstep by done.
  cbn [mbind result_bind] in Hstep.
  apply bind_Ok in Hstep as (r & _ & Hstep).
  apply bind_Ok in Hstep as (shd2 & _ & [= _ _ <- _]). done.
Qed.

(** X13: with jitter, the correlogram [data] of the real signals is the one
    that the cross-correlation without jitter returns for them: the
    replicates do not enter it. *)
Theorem jitter_keeps_real_correlogram (num_jitters bin_num : Z)
    (fr1 : list F) (sh1 : list (list F)) (fr2 : list F) (sh2 : list (list F))
    (data : list F) (sh_data : list (list F)) :
  noise_corr_cross true num_jitters bin_num fr1 sh1 fr2 sh2 = Ok (data, Some sh_data) ->
  noise_corr_cross false num_jitters bin_num fr1 sh1 fr2 sh2 = Ok (data, None).
Proof.
  unfold noise_corr_cross. intros Hrun.
  apply bind_Ok in Hrun as (big_x & Hbig_x & Hrun).
  apply bind_Ok in Hrun as (y & Hy & Hrun).
  apply bind_Ok in Hrun as (sh0 & _ & Hrun).
  apply bind_Ok in Hrun as ([[[bx' y'] data'] sh_data'] & Hloop & Hrun).
  destruct data' as [d|]; [|done]. injection Hrun as <- <-.
  assert (Hreal : correlate_real fr1 fr2 bin_num = Ok d); [|by rewrite Hreal].
  destruct (Z.to_nat num_jitters) as [|k]; [done|]. cbn [seq for_each] in Hloop.
  destruct (shuffle_pass fr1 sh1 fr2 sh2 bin_num (big_x, y, None, sh0) 0)
    as [[[[bx1 y1] data1] shd1]|e] eqn:Hpass; [|done].
  assert (Hdata1 : data1 = Some d).
  { symmetry. revert Hloop.
    apply (for_each_inv_in
             (fun s : list (list F) * list F * option (list F) * list (list F) =>
                snd (fst s) = data1) (shuffle_pass fr1 sh1 fr2 sh2 bin_num) (seq 1 k)
             ltac:(intros [[[? ?] ?] ?] sh [[[? ?] ?] ?] Hsh%elem_of_seq Hs Hstep;
                   cbn [fst snd] in *; subst;
                   eapply shuffle_pass_later; [|exact Hstep]; lia)
             (bx1, y1, data1, shd1) (bx', y', Some d, sh_data') eq_refl). }
  subst data1. unfold shuffle_pass in Hpass.
  apply bind_Ok in Hpass as (bxs & _ & Hpass).
  apply bind_Ok in Hpass as (ys & _ & Hpass).
  apply bind_Ok in Hpass as ([[[bx2 y2] bxs2] ys2] & Hlags%lag_pass_sh_real & Hpass).
  rewrite (bool_decide_eq_true_2 (0 = 0)) in Hpass by done.
  apply bind_Ok in Hpass as (dat & Hdat & Hpass).
  apply bind_Ok in Hdat as (d0 & Hd0 & [= <-]).
  apply bind_Ok in Hpass as (r & _ & Hpass).
  apply bind_Ok in Hpass as (shd2 & _ & [= <- <- <- _]).
  unfold correlate_real. rewrite Hbig_x. cbn [mbind result_bind].
  rewrite Hy. cbn [mbind result_bind]. rewrite Hlags. cbn [mbind result_bind].
  exact Hd0.
Qed.

End JitterKeepsReal.

Lemma jitter_keeps_real_correlogram_witness :
  let z := B64.zero in
  let o := B64.one in
  exists data sh_data,
    noise_corr_cross true 2 1 [z; o; z; z; o] [[z; o; z; z; o]; [o; z; z; o; z]]
      [o; z; o; z; z] [[o; z; o; z; z]; [z; z; o; z; o]] = Ok (data, Some sh_data) /\
    noise_corr_cross false 2 1 [z; o; z; z; o] [[z; o; z; z; o]; [o; z; z; o; z]]
      [o; z; o; z; z] [[o; z; o; z; z]; [z; z; o; z; o]] = Ok (data, None).
Proof.
  intros z o.
  destruct (noise_corr_cross true 2 1 [z; o; z; z; o] [[z; o; z; z; o]; [o; z; z; o; z]]
              [o; z; o; z; z] [[o; z; o; z; z]; [z; z; o; z; o]])
    as [[data [sh_data|]]|e] eqn:E;
    [|vm_compute in E; discriminate E|vm_compute in E; discriminate E].
  exists data, sh_data. split; [reflexivity|].
  exact (jitter_keeps_real_correlogram _ _ _ _ _ _ _ _ E).
Defined.

Lemma lookup_py_slice_in_range {A} (a : list A) (s e : Z) (j : nat) :
  (0 <= s <= e)%Z -> (e <= Z.of_nat (length a))%Z ->
  py_slice a s e !! j
  = if bool_decide (Z.of_nat j < e - s)%Z then a !! (Z.to_nat s + j) else None.
Proof.
  intros Hs He. rewrite py_slice_in_range by done. case_bool_decide as Hj.
  - rewrite lookup_take_lt by lia. apply lookup_drop.
  - apply lookup_take_ge. lia.
Qed.

(** X14: the first and the last [bin_num] entries of the reference signal do
    not enter the correlogram: two reference signals that agree between
    them give the same coefficients at every lag. *)
Theorem reference_edges_ignored {F : Type} `{Arith F} (a b b' : list F) (bin_num : Z) :
  (0 <= bin_num)%Z -> (2 * bin_num < Z.of_nat (length a))%Z ->
  length b = length a -> length b' = length a ->
  (forall i, Z.to_nat bin_num <= i < length a - Z.to_nat bin_num -> b !! i = b' !! i) ->
  correlate_real a b bin_num = correlate_real a b' bin_num.
Proof.
  intros Hbn Hlen Hb Hb' Hagree. rewrite !correlate_real_Ok by done. f_equal.
  assert (Hslice : lag_slice b bin_num 0 = lag_slice b' bin_num 0).
  { unfold lag_slice. rewrite Hb, Hb'. apply list_eq. intros j.
    rewrite !lookup_py_slice_in_range by (rewrite ?Hb, ?Hb'; lia).
    case_bool_decide; [|done]. apply Hagree. lia. }
  unfold lag_coef. by rewrite Hslice.
Qed.

Lemma reference_edges_ignored_witness :
  let z := B64.zero in
  let o := B64.one in
  correlate_real [z; o; z; z; o] [z; z; o; z; z] 1
  = correlate_real [z; o; z; z; o] [o; z; o; z; o] 1.
Proof.
  intros z o. apply reference_edges_ignored.
  - lia.
  - cbn [length]. lia.
  - reflexivity.
  - reflexivity.
  - intros i Hi. cbn [length] in Hi.
    destruct i as [|[|[|[|i]]]]; try reflexivity; lia.
Defined.

(** ** The correlogram of a replicate *)

Lemma for_each_app {S X} (body : S -> X -> result S) (xs ys : list X) (s s' : S) :
  for_each body (xs ++ ys) s = Ok s' ->
  exists s1, for_each body xs s = Ok s1 /\ for_each body ys s1 = Ok s'.
Proof.
  revert s. induction xs as [|x xs IH]; intros s Hrun; cbn [app for_each] in Hrun |- *.
  - by exists s.
  - destruct (body s x) as [s1|e]; [|done]. by apply IH.
Qed.

Section ReplicateRows.
Context {F : Type} `{Arith F}.

(** In pass [sh] the loop over the lags fills [big_x_sh] and [y_sh] from
    the rows [sh] of the two ensembles as the loop without jitter fills
    [big_x] and [y] from two signals. *)
Lemma lag_pass_sh_replicate (fr1 : list F) sh1 (fr2 : list F) sh2 bin_num sh r1 r2 its :
  sh1 !! sh = Some r1 -> sh2 !! sh = Some r2 -> length r1 = length fr1 ->
  forall big_x y big_x_sh y_sh big_x' y' big_x_sh' y_sh',
    for_each (lag_pass_sh fr1 sh1 fr2 sh2 bin_num sh) its (big_x, y, big_x_sh, y_sh)
      = Ok (big_x', y', big_x_sh', y_sh') ->
    for_each (lag_pass r1 r2 bin_num) its (big_x_sh, y_sh) = Ok (big_x_sh', y_sh').
Proof.
  intros Hr1 Hr2 Hlen. induction its as [|[bin_idx one_bin] its IH];
    intros big_x y big_x_sh y_sh big_x' y' big_x_sh' y_sh' Hrun; cbn [for_each] in Hrun |- *.
  - by injection Hrun as _ _ <- <-.
  - destruct (lag_pass_sh fr1 sh1 fr2 sh2 bin_num sh (big_x, y, big_x_sh, y_sh)
                (bin_idx, one_bin)) as [[[[bx1 y1] bxs1] ys1]|e] eqn:Hstep; [|done].
    apply IH in Hrun.
    assert (Hstep' : lag_pass r1 r2 bin_num (big_x_sh, y_sh) (bin_idx, one_bin)
                     = Ok (bxs1, ys1)); [|by rewrite Hstep'].
    unfold lag_pass_sh in Hstep. unfold lag_pass.
    apply bind_Ok in Hstep as (bx2 & _ & Hstep).
    unfold get_row in Hstep. rewrite Hr1, Hr2 in Hstep. cbn [mbind result_bind] in Hstep.
    apply bind_Ok in Hstep as (bxs2 & Hbxs2 & Hstep).
    rewrite Hlen, Hbxs2. cbn [mbind result_bind].
    destruct (bool_decide (bin_idx = 0)).
    + injection Hstep as _ _ <- <-. done.
    + injection Hstep as _ _ <- <-. done.
Qed.

Lemma lag_pass_length (fr1 fr2 : list F) bin_num its big_x y big_x' y' :
  for_each (lag_pass fr1 fr2 bin_num) its (big_x, y) = Ok (big_x', y') ->
  length big_x' = length big_x.
Proof.
  apply (for_each_inv (fun s : list (list F) * list F => length (fst s) = length big_x));
    [|done].
  intros [bx y0] [bin_idx one_bin] [bx1 y1] Hbx Hstep. cbn [fst] in *.
  unfold lag_pass in Hstep. apply bind_Ok in Hstep as (bx2 & Hbx2%set_row_length & Hstep).
  destruct (bool_decide (bin_idx = 0)); injection Hstep as <- _; congruence.
Qed.

(** Pass [sh] writes the correlogram of the rows [sh] into row [sh]. *)
Lemma shuffle_pass_row (fr1 : list F) sh1 (fr2 : list F) sh2 bin_num sh r1 r2
    big_x y data sh_data big_x' y' data' sh_data' :
  sh1 !! sh = Some r1 -> sh2 !! sh = Some r2 -> length r1 = length fr1 ->
  rows_of_lags bin_num sh_data ->
  shuffle_pass fr1 sh1 fr2 sh2 bin_num (big_x, y, data, sh_data) sh
    = Ok (big_x', y', data', sh_data') ->
  exists row, sh_data' !! sh = Some row /\ correlate_real r1 r2 bin_num = Ok row.
Proof.
  intros Hr1 Hr2 Hlen Hrows Hstep. unfold shuffle_pass in Hstep.
  apply bind_Ok in Hstep as (bxs & Hbxs & Hstep).
  apply bind_Ok in Hstep as (ys & Hys & Hstep).
  apply bind_Ok in Hstep as ([[[bx2 y2] bxs2] ys2] & Hlags & Hstep).
  apply (lag_pass_sh_replicate _ _ _ _ _ _ r1 r2 _ Hr1 Hr2 Hlen) in Hlags.
  apply bind_Ok in Hstep as (dat & _ & Hstep).
  apply bind_Ok in Hstep as (r & Hr & Hstep).
  apply bind_Ok in Hstep as (shd2 & Hset & [= _ _ _ <-]).
  exists r. split.
  - pose proof (cross_correlate_length _ _ _ _ _ Hr) as Hlr.
    rewrite (lag_pass_length _ _ _ _ _ _ _ _ Hlags) in Hlr.
    apply np_zeros2_gen_inv in Hbxs. subst bxs.
    rewrite length_replicate, Nat2Z.id in Hlr.
    unfold set_row, get_row in Hset.
    destruct (sh_data !! sh) as [old|] eqn:Hold; [|done].
    cbn [mbind result_bind] in Hset.
    assert (Hlo : length old = length (all_bins bin_num))
      by (exact (Forall_lookup_1 _ sh_data sh old Hrows Hold)).
    unfold broadcast_to in Hset. rewrite bool_decide_eq_true_2 in Hset by congruence.
    cbn [mbind result_bind] in Hset. injection Hset as <-.
    apply list_lookup_insert_eq. by eapply lookup_lt_Some.
  - unfold correlate_real. rewrite Hlen, Hbxs. cbn [mbind result_bind].
    rewrite Hys. cbn [mbind result_bind]. rewrite Hlags. cbn [mbind result_bind].
    exact Hr.
Qed.

(** Every pass keeps the shape of [sh_data], and a pass other than [sh]
    keeps its row [sh]. *)
Lemma shuffle_pass_other (fr1 : list F) sh1 (fr2 : list F) sh2 bin_num sh sh'
    big_x y data sh_data big_x' y' data' sh_data' :
  rows_of_lags bin_num sh_data ->
  shuffle_pass fr1 sh1 fr2 sh2 bin_num (big_x, y, data, sh_data) sh'
    = Ok (big_x', y', data', sh_data') ->
  rows_of_lags bin_num sh_data' /\ (sh <> sh' -> sh_data' !! sh = sh_data !! sh).
Proof.
  intros Hrows Hstep. unfold shuffle_pass in Hstep.
  apply bind_Ok in Hstep as (bxs & _ & Hstep).
  apply bind_Ok in Hstep as (ys & _ & Hstep).
  apply bind_Ok in Hstep as ([[[bx2 y2] bxs2] ys2] & _ & Hstep).
  apply bind_Ok in Hstep as (dat & _ & Hstep).
  apply bind_Ok in Hstep as (r & _ & Hstep).
  apply bind_Ok in Hstep as (shd2 & Hset & [= _ _ _ <-]).
  split; [by destruct (set_row_shape _ _ _ _ _ Hset Hrows)|].
  intros Hne. unfold set_row in Hset.
  apply bind_Ok in Hset as (old & _ & Hset).
  apply bind_Ok in Hset as (s' & _ & [= <-]).
  by apply list_lookup_insert_ne.
Qed.

Lemma shuffle_loop_other (fr1 : list F) sh1 (fr2 : list F) sh2 bin_num sh shs
    big_x y data sh_data big_x' y' data' sh_data' :
  sh ∉ shs -> rows_of_lags bin_num sh_data ->
  for_each (shuffle_pass fr1 sh1 fr2 sh2 bin_num) shs (big_x, y, data, sh_data)
    = Ok (big_x', y', data', sh_data') ->
  rows_of_lags bin_num sh_data' /\ sh_data' !! sh = sh_data !! sh.
Proof.
  intros Hnin Hrows.
  apply (for_each_inv_in
           (fun s : list (list F) * list F * option (list F) * list (list F) =>
              rows_of_lags bin_num (snd s) /\ snd s !! sh = sh_data !! sh)); [|done].
  intros [[[bx0 y0] d0] shd0] sh' [[[bx1 y1] d1] shd1] Hin [Hr0 Hl0] Hstep.
  cbn [snd] in *.
  destruct (shuffle_pass_other _ _ _ _ _ sh _ _ _ _ _ _ _ _ _ Hr0 Hstep) as [Hr1 Hl1].
  split; [done|]. rewrite Hl1; [done|]. intros ->. done.
Qed.

(** X16: with jitter, row [sh] of [sh_data] is the correlogram that the
    cross-correlation without jitter returns for row [sh] of the first
    ensemble against row [sh] of the second: no replicate is mixed with the
    real signals or with another replicate. *)
Theorem replicate_correlogram (num_jitters bin_num : Z)
    (fr1 : list F) (sh1 : list (list F)) (fr2 : list F) (sh2 : list (list F))
    (data : list F) (sh_data : list (list F)) (sh : nat) (r1 r2 : list F) :
  noise_corr_cross true num_jitters bin_num fr1 sh1 fr2 sh2 = Ok (data, Some sh_data) ->
  sh < Z.to_nat num_jitters ->
  sh1 !! sh = Some r1 -> sh2 !! sh = Some r2 -> length r1 = length fr1 ->
  exists row, sh_data !! sh = Some row /\ correlate_real r1 r2 bin_num = Ok row.
Proof.
  unfold noise_corr_cross. intros Hrun Hsh Hr1 Hr2 Hlen.
  apply bind_Ok in Hrun as (big_x & _ & Hrun).
  apply bind_Ok in Hrun as (y & _ & Hrun).
  apply bind_Ok in Hrun as (sh0 & Hsh0%np_zeros2_gen_inv & Hrun).
  apply bind_Ok in Hrun as ([[[bx' y'] data'] sh_data'] & Hloop & Hrun).
  destruct data' as [d|]; [|done]. injection Hrun as <- <-.
  assert (Hrows0 : rows_of_lags bin_num sh0).
  { subst sh0. apply Forall_replicate. rewrite length_replicate. lia. }
  replace (Z.to_nat num_jitters) with (sh + S (Z.to_nat num_jitters - S sh)) in Hloop
    by lia.
  rewrite seq_app in Hloop. cbn [seq Nat.add] in Hloop.
  change (sh :: seq (S sh) (Z.to_nat num_jitters - S sh))
    with ([sh] ++ seq (S sh) (Z.to_nat num_jitters - S sh)) in Hloop.
  apply for_each_app in Hloop as ([[[bx1 y1] d1] shd1] & Hbefore & Hloop).
  apply for_each_app in Hloop as ([[[bx2 y2] d2] shd2] & Hpass & Hafter).
  apply shuffle_loop_other with (sh := sh) in Hbefore as [Hrows1 _];
    [|intros ?%elem_of_seq; lia|done].
  cbn [for_each] in Hpass.
  destruct (shuffle_pass fr1 sh1 fr2 sh2 bin_num (bx1, y1, d1, shd1) sh)
    as [[[[bx3 y3] d3] shd3]|e] eqn:Hstep; [|done].
  injection Hpass as -> -> -> ->.
  destruct (shuffle_pass_other _ _ _ _ _ sh _ _ _ _ _ _ _ _ _ Hrows1 Hstep) as [Hrows2 _].
  destruct (shuffle_pass_row _ _ _ _ _ _ r1 r2 _ _ _ _ _ _ _ _ Hr1 Hr2 Hlen Hrows1 Hstep)
    as (row & Hrow & Hcorr).
  apply shuffle_loop_other with (sh := sh) in Hafter as [_ Hkeep];
    [|intros ?%elem_of_seq; lia|done].
  exists row. split; [congruence|done].
Qed.

End ReplicateRows.

Lemma replicate_correlogram_witness :
  let z := B64.zero in
  let o := B64.one in
  exists data sh_data row,
    noise_corr_cross true 2 1 [z; o; z; z; o] [[z; o; z; z; o]; [o; z; z; o; z]]
      [o; z; o; z; z] [[o; z; o; z; z]; [z; z; o; z; o]] = Ok (data, Some sh_data) /\
    sh_data !! 1 = Some row /\
    correlate_real [o; z; z; o; z] [z; z; o; z; o] 1 = Ok row.
Proof.
  intros z o.
  destruct (noise_corr_cross true 2 1 [z; o; z; z; o] [[z; o; z; z; o]; [o; z; z; o; z]]
              [o; z; o; z; z] [[o; z; o; z; z]; [z; z; o; z; o]])
    as [[data [sh_data|]]|e] eqn:E;
    [|vm_compute in E; discriminate E|vm_compute in E; discriminate E].
  destruct (replicate_correlogram _ _ _ _ _ _ _ _ 1 [o; z; z; o; z] [z; z; o; z; o] E)
    as (row & Hrow & Hcorr); [lia|reflexivity|reflexivity|reflexivity|].
  by exists data, sh_data, row.
Defined.

(** * The keyword arguments and the choice of the pair *)

Section KeywordFacts.
Context (kwargs : gmap string pyval) (k : string) (v : pyval).

Lemma kw_float_ill key d :
  (k = key -> type_of v <> TFloat) ->
  kw_float (<[k:=v]> kwargs) key d = kw_float (delete k kwargs) key d.
Proof.
  intros Hty. unfold kw_float. destruct (decide (k = key)) as [->|Hne].
  - rewrite lookup_insert_eq, lookup_delete_eq. specialize (Hty eq_refl). by destruct v.
  - by rewrite lookup_insert_ne, lookup_delete_ne.
Qed.

Lemma kw_int_ill key d :
  (k = key -> type_of v <> TInt) ->
  kw_int (<[k:=v]> kwargs) key d = kw_int (delete k kwargs) key d.
Proof.
  intros Hty. unfold kw_int. destruct (decide (k = key)) as [->|Hne].
  - rewrite lookup_insert_eq, lookup_delete_eq. specialize (Hty eq_refl). by destruct v.
  - by rewrite lookup_insert_ne, lookup_delete_ne.
Qed.

Lemma kw_bool_ill key d :
  (k = key -> type_of v <> TBool) ->
  kw_bool (<[k:=v]> kwargs) key d = kw_bool (delete k kwargs) key d.
Proof.
  intros Hty. unfold kw_bool. destruct (decide (k = key)) as [->|Hne].
  - rewrite lookup_insert_eq, lookup_delete_eq. specialize (Hty eq_refl). by destruct v.
  - by rewrite lookup_insert_ne, lookup_delete_ne.
Qed.

Lemma kw_str_ill key :
  (k = key -> type_of v <> TStr) ->
  kw_str (<[k:=v]> kwargs) key = kw_str (delete k kwargs) key.
Proof.
  intros Hty. unfold kw_str. destruct (decide (k = key)) as [->|Hne].
  - rewrite lookup_insert_eq, lookup_delete_eq. specialize (Hty eq_refl). by destruct v.
  - by rewrite lookup_insert_ne, lookup_delete_ne.
Qed.

Lemma kw_list_ill key :
  (k = key -> type_of v <> TList) ->
  kw_list (<[k:=v]> kwargs) key = kw_list (delete k kwargs) key.
Proof.
  intros Hty. unfold kw_list. destruct (decide (k = key)) as [->|Hne].
  - rewrite lookup_insert_eq, lookup_delete_eq. specialize (Hty eq_refl). by destruct v.
  - by rewrite lookup_insert_ne, lookup_delete_ne.
Qed.

End KeywordFacts.

(** X17: a keyword argument whose value has not exactly the type that
    noise_corr asks for (an [int] for [bin_size], a [bool] for [bin_num], ...),
    and a keyword that noise_corr does not know, is ignored without an error:
    the options are those of the call without it. *)
Theorem ill_typed_keyword_ignored (kwargs : gmap string pyval) (k : string) (v : pyval) :
  keyword_type k <> Some (type_of v) ->
  noise_corr_kwargs (<[k:=v]> kwargs) = noise_corr_kwargs (delete k kwargs).
Proof.
  intros Hty.
  assert (Hkey : forall key ty, keyword_type key = Some ty -> k = key -> type_of v <> ty).
  { intros key ty Hkey -> Hv. apply Hty. by rewrite Hkey, Hv. }
  unfold noise_corr_kwargs.
  rewrite !kw_float_ill, !kw_int_ill, !kw_bool_ill, !kw_str_ill, !kw_list_ill;
    first done; by apply Hkey.
Qed.

(** [bin_size=1], an [int], leaves the bin size at 0.5 ms. *)
Lemma ill_typed_keyword_ignored_witness :
  noise_corr_kwargs (<["bin_size" := PyInt 1]> ∅) = noise_corr_kwargs ∅ /\
  opt_bin_size (noise_corr_kwargs (<["bin_size" := PyInt 1]> ∅)) = B64.dec 5 4.
Proof.
  assert (H : noise_corr_kwargs (<["bin_size" := PyInt 1]> ∅)
              = noise_corr_kwargs (delete "bin_size" ∅)).
  { apply ill_typed_keyword_ignored. vm_compute. discriminate. }
  rewrite delete_empty in H. split; [exact H|]. rewrite H. reflexivity.
Defined.

Lemma length_py_range_combo : length (py_range 0 40186 113) = 356.
Proof. unfold py_range. rewrite length_map, length_seq. reflexivity. Qed.

Lemma lookup_py_range_combo (k : nat) :
  k < 356 -> py_range 0 40186 113 !! k = Some (113 * Z.of_nat k)%Z.
Proof.
  intros Hk. unfold py_range. rewrite list_lookup_fmap.
  change (Z.to_nat ((40186 - 0 + 113 - 1) / 113)) with 356.
  rewrite lookup_seq_lt by done. cbn [fmap option_fmap option_map Nat.add]. f_equal.
Qed.

Lemma combo_num_value (combo_idx : Z) :
  combo_num combo_idx
  = if bool_decide (-356 <= combo_idx < 356)%Z
    then Ok (113 * (combo_idx mod 356))%Z else Raise IndexError.
Proof.
  unfold combo_num, py_getitem. rewrite length_py_range_combo.
  case_bool_decide as Hidx.
  - destruct (decide (0 <= combo_idx)%Z) as [Hpos|Hneg].
    + rewrite norm_index_nonneg by lia. cbn [mbind result_bind].
      rewrite lookup_py_range_combo by lia. rewrite Z.mod_small by lia. do 2 f_equal. lia.
    + rewrite norm_index_neg by lia. cbn [mbind result_bind].
      rewrite lookup_py_range_combo by lia. do 2 f_equal.
      rewrite <- (Z.mod_add combo_idx 1 356) by lia. rewrite Z.mod_small by lia. lia.
  - rewrite norm_index_Raise by lia. done.
Qed.

(** X18: [combo_idx] is an index into the 356 multiples of 113 below 40186:
    from -356 to 355 it gives 113 times its position (a negative one counted
    from the end), a number from 0 to 40115, and outside this range it raises
    [IndexError]. *)
Theorem combo_num_stride (combo_idx : Z) :
  (forall c, combo_num combo_idx = Ok c ->
             (-356 <= combo_idx < 356)%Z /\ c = (113 * (combo_idx mod 356))%Z /\
             (0 <= c <= 40115)%Z) /\
  ((-356 <= combo_idx < 356)%Z -> exists c, combo_num combo_idx = Ok c) /\
  (~ (-356 <= combo_idx < 356)%Z -> combo_num combo_idx = Raise IndexError).
Proof.
  rewrite combo_num_value. case_bool_decide as Hidx.
  - split; [|split].
    + intros c' Hc'. injection Hc' as <-. split; [done|]. split; [done|].
      pose proof (Z.mod_pos_bound combo_idx 356 ltac:(lia)). lia.
    + intros _. by eexists.
    + intros Hn. contradiction.
  - split; [|split].
    + intros c' Hc'. discriminate Hc'.
    + intros Hin. contradiction.
    + intros _. reflexivity.
Qed.

Lemma combo_num_stride_witness : combo_num 2 = Ok 226%Z.
Proof.
  destruct (combo_num_stride 2) as (Hval & Hin & _).
  destruct (Hin ltac:(lia)) as [c Hc].
  destruct (Hval c Hc) as (_ & Hc' & _). rewrite Hc' in Hc. exact Hc.
Defined.

Lemma length_combinations2 {A} (keys : list A) :
  2 * length (combinations2 keys) = length keys * (length keys - 1).
Proof.
  induction keys as [|k keys IH]; [done|].
  cbn [combinations2 length]. rewrite length_app, length_map. nia.
Qed.

Lemma elem_of_combinations2 {A} (keys : list A) (x y : A) :
  (x, y) ∈ combinations2 keys <->
  exists i j, i < j /\ keys !! i = Some x /\ keys !! j = Some y.
Proof.
  induction keys as [|k keys IH]; cbn [combinations2].
  - split; [by intros ?%not_elem_of_nil|]. by intros (i & j & _ & ? & _).
  - rewrite elem_of_app, IH. split.
    + intros [Hhere|(i & j & Hij & Hi & Hj)].
      * apply list_elem_of_fmap in Hhere as (y' & [= -> ->] & (j & Hj)%list_elem_of_lookup).
        exists 0, (S j). split; [lia|]. done.
      * exists (S i), (S j). split; [lia|]. done.
    + intros (i & j & Hij & Hi & Hj). destruct j as [|j]; [lia|]. cbn in Hj.
      destruct i as [|i].
      * left. injection Hi as ->. apply list_elem_of_fmap. exists y.
        split; [done|]. by eapply list_elem_of_lookup_2.
      * right. exists i, j. split; [lia|]. done.
Qed.

(** X19: the pair that [combo_idx] chooses among the pairs of [n] cluster
    keys is the pair number [113 * combo_idx] (for a position from 0 to 355):
    it exists, and consists of two keys, the first before the second, when
    twice that number is below [n * (n - 1)]; otherwise the choice raises
    [IndexError]. *)
Theorem choose_pair_bounds {A} (keys : list A) (combo_idx : Z) :
  (0 <= combo_idx < 356)%Z ->
  if bool_decide (2 * (113 * combo_idx) < Z.of_nat (length keys * (length keys - 1)))%Z
  then exists k1 k2 i j,
         choose_pair keys combo_idx = Ok (k1, k2) /\
         i < j /\ keys !! i = Some k1 /\ keys !! j = Some k2
  else choose_pair keys combo_idx = Raise IndexError.
Proof.
  intros Hidx. unfold choose_pair. rewrite combo_num_value.
  rewrite (bool_decide_eq_true_2 (-356 <= combo_idx < 356)%Z) by lia.
  cbn [mbind result_bind].
  rewrite Z.mod_small by lia. unfold py_getitem.
  rewrite <- (length_combinations2 keys).
  case_bool_decide as Hc.
  - rewrite norm_index_nonneg by lia. cbn [mbind result_bind].
    destruct (lookup_lt_is_Some_2 (combinations2 keys) (Z.to_nat (113 * combo_idx)))
      as [[k1 k2] Hpair]; [lia|].
    rewrite Hpair.
    apply list_elem_of_lookup_2, elem_of_combinations2 in Hpair as (i & j & ? & ? & ?).
    by exists k1, k2, i, j.
  - rewrite norm_index_Raise by lia. done.
Qed.

(** Four clusters have six pairs: position 0 chooses the first, position 1
    asks for pair 113. *)
Lemma choose_pair_bounds_witness :
  (exists k1 k2 i j,
     choose_pair ["a"; "b"; "c"; "d"] 0 = Ok (k1, k2) /\
     i < j /\ ["a"; "b"; "c"; "d"] !! i = Some k1 /\ ["a"; "b"; "c"; "d"] !! j = Some k2)
  /\ choose_pair ["a"; "b"; "c"; "d"] 1 = Raise IndexError.
Proof.
  split.
  - apply (choose_pair_bounds ["a"; "b"; "c"; "d"] 0). lia.
  - apply (choose_pair_bounds ["a"; "b"; "c"; "d"] 1). lia.
Defined.

(** X20: the pairs among which noise_corr chooses are the pairs of a key
    with a key at a later position of the key list, and no others. *)
Theorem pairs_are_ordered_positions {A} (keys : list A) (k1 k2 : A) :
  (k1, k2) ∈ combinations2 keys <->
  exists i j, i < j /\ keys !! i = Some k1 /\ keys !! j = Some k2.
Proof. apply elem_of_combinations2. Qed.

Lemma pairs_are_ordered_positions_witness :
  ("cl1", "cl3") ∈ combinations2 ["cl1"; "cl2"; "cl3"].
Proof.
  apply (pairs_are_ordered_positions ["cl1"; "cl2"; "cl3"] "cl1" "cl3").
  exists 0, 2. split; [lia|]. split; reflexivity.
Defined.

Lemma NoDup_combinations2 {A} (keys : list A) :
  NoDup keys -> NoDup (combinations2 keys).
Proof.
  induction 1 as [|k keys Hk Hnd IH]; cbn [combinations2]; [constructor|].
  apply NoDup_app. split; [|split; [|done]].
  - apply NoDup_fmap_2; [|done]. by intros y1 y2 [= ->].
  - intros [x y] (y' & [= -> ->] & _)%list_elem_of_fmap
           (i & j & _ & Hi%list_elem_of_lookup_2 & _)%elem_of_combinations2.
    done.
Qed.

(** X21: when the cluster keys are distinct (they are the keys of a
    dictionary), no pair occurs twice among the pairs, no key is paired with
    itself, and a pair never occurs in both orders. *)
Theorem pairs_without_repeats {A} (keys : list A) :
  NoDup keys ->
  NoDup (combinations2 keys) /\
  forall k1 k2, (k1, k2) ∈ combinations2 keys ->
                k1 <> k2 /\ (k2, k1) ∉ combinations2 keys.
Proof.
  intros Hnd. split; [by apply NoDup_combinations2|].
  intros k1 k2 (i & j & Hij & Hi & Hj)%elem_of_combinations2. split.
  - intros ->. pose proof (NoDup_lookup _ _ _ _ Hnd Hi Hj). lia.
  - intros (i' & j' & Hij' & Hi' & Hj')%elem_of_combinations2.
    pose proof (NoDup_lookup _ _ _ _ Hnd Hi Hj').
    pose proof (NoDup_lookup _ _ _ _ Hnd Hj Hi'). lia.
Qed.

Lemma pairs_without_repeats_witness :
  NoDup (combinations2 [1; 2; 3]) /\
  forall k1 k2, (k1, k2) ∈ combinations2 [1; 2; 3] ->
                k1 <> k2 /\ (k2, k1) ∉ combinations2 [1; 2; 3].
Proof.
  apply pairs_without_repeats. apply (bool_decide_unpack _). vm_compute. exact I.
Defined.

(** * From the spike trains to the correlograms *)

Lemma get_firing_rate_shape cl bin start stop to_jitter js N g fr jit g' :
  get_firing_rate cl bin start stop to_jitter js N g = Ok (fr, jit, g') ->
  exists n,
    n_bins bin start stop = Ok n /\ length fr = Z.to_nat n /\
    Forall (fun row => length row = Z.to_nat n) jit /\ length jit = Z.to_nat N.
Proof.
  destruct to_jitter; intros Hrun.
  - apply get_firing_rate_jitter in Hrun as (n & Hn & _ & _ & Hlen & Hrows & Hfr).
    exists n. split; [done|]. split; [|split; [|done]].
    + case_bool_decide.
      * destruct Hfr as (ks & _ & ->). apply length_marks.
      * subst fr. apply length_replicate.
    + apply Forall_lookup. intros sh row Hrow.
      destruct (Hrows sh) as (ks & _ & Hsh).
      { rewrite <- Hlen. by eapply lookup_lt_Some. }
      rewrite Hrow in Hsh. injection Hsh as ->. apply length_marks.
  - apply get_firing_rate_plain in Hrun as (n & ks & Hn & _ & _ & _ & -> & -> & _).
    exists n. rewrite length_marks, length_replicate. repeat split; try done.
    apply Forall_replicate, length_replicate.
Qed.

Section PipelineFacts.
Context (purge : arr -> spec_float * spec_float -> arr) (smooth : arr -> Z -> arr).

(** X22: without smoothing, the two signals of a pair have one length, every
    row of the two ensembles has that length, and the two ensembles have as
    many rows ([num_jitters] with jitter, one without): the signals that
    enter the cross-correlation always fit each other. *)
Theorem pair_signals_same_shape (o : noise_corr_options) (act1 act2 : arr)
    (tracking_ts : spec_float * spec_float) (g : rng_state) fr1 sh1 fr2 sh2 g' :
  opt_smooth_fr o = false ->
  noise_corr_rates smooth o act1 act2 tracking_ts g = Ok (fr1, sh1, fr2, sh2, g') ->
  length fr2 = length fr1 /\
  Forall (fun row => length row = length fr1) sh1 /\
  Forall (fun row => length row = length fr1) sh2 /\
  length sh1 = length sh2 /\
  length sh1 = (if opt_to_jitter o then Z.to_nat (opt_num_jitters o) else 1).
Proof.
  intros Hsmooth Hrun. unfold noise_corr_rates in Hrun. rewrite Hsmooth in Hrun.
  destruct (opt_to_jitter o).
  - apply bind_Ok in Hrun as ([[f1 s1] g1] & H1%get_firing_rate_shape & Hrun).
    apply bind_Ok in Hrun as ([[f2 s2] g2] & H2%get_firing_rate_shape & [= <- <- <- <- <-]).
    destruct H1 as (n & Hn & Hf1 & Hs1 & Hl1), H2 as (n' & Hn' & Hf2 & Hs2 & Hl2).
    assert (n' = n) as -> by congruence. rewrite Hf1.
    repeat split; try done; congruence.
  - apply bind_Ok in Hrun as ([[f1 s1] g1] & H1%get_firing_rate_shape & Hrun).
    apply bind_Ok in Hrun as ([[f2 s2] g2] & H2%get_firing_rate_shape & [= <- <- <- <- <-]).
    destruct H1 as (n & Hn & Hf1 & Hs1 & Hl1), H2 as (n' & Hn' & Hf2 & Hs2 & Hl2).
    assert (n' = n) as -> by congruence. rewrite Hf1.
    repeat split; try done; congruence.
Qed.

(** X23: without jitter and without smoothing, when no spike of the first
    cluster is left after the purge and the spikes of the second cluster can
    be binned into more than [2*bin_num] bins, the method does not raise: the
    correlogram it saves is [2*bin_num+1] NaN. *)
Theorem silent_cluster_all_nan (o : noise_corr_options) (act1 act2 : arr)
    (tracking_ts : spec_float * spec_float) (g : rng_state) fr2 sh2 g2 :
  opt_to_jitter o = false -> opt_smooth_fr o = false ->
  purge act1 tracking_ts = [] ->
  get_firing_rate (purge act2 tracking_ts) (opt_bin_size o)
    (B64.sub (fst tracking_ts) (fst tracking_ts))
    (B64.sub (snd tracking_ts) (fst tracking_ts)) false default_jitter_size 1 g
    = Ok (fr2, sh2, g2) ->
  (0 <= opt_bin_num o)%Z -> (2 * opt_bin_num o < Z.of_nat (length fr2))%Z ->
  noise_corr_compute purge smooth o act1 act2 tracking_ts g
  = Ok (replicate (Z.to_nat (2 * opt_bin_num o + 1)) S754_nan, None, g2).
Proof.
  intros Hjit Hsmooth Hpurge Hrun2 Hbn Hlen.
  unfold noise_corr_compute, noise_corr_rates. rewrite Hjit, Hsmooth, Hpurge.
  pose proof (proj1 (get_firing_rate_plain _ _ _ _ _ _ _ _ _ _) Hrun2)
    as (n & ks & Hn & Hn0 & _ & _ & Hfr2 & _ & Hg).
  assert (Hrun1 : get_firing_rate [] (opt_bin_size o)
            (B64.sub (fst tracking_ts) (fst tracking_ts))
            (B64.sub (snd tracking_ts) (fst tracking_ts)) false default_jitter_size 1 g
          = Ok (replicate (Z.to_nat n) B64.zero,
                replicate (Z.to_nat 1) (replicate (Z.to_nat n) B64.zero), g)).
  { apply get_firing_rate_plain. exists n, []. repeat split; try done.
    unfold marks. rewrite (map_const_replicate _ B64.zero); [by rewrite length_seq|].
    intros j _. rewrite bool_decide_eq_false_2; [done|]. apply not_elem_of_nil. }
  rewrite Hrun1. cbn [mbind result_bind]. rewrite Hrun2. cbn [mbind result_bind].
  unfold noise_corr_cross.
  assert (Hl2 : length fr2 = Z.to_nat n) by (rewrite Hfr2; apply length_marks).
  rewrite correlate_real_Ok; rewrite ?length_replicate; [|lia..].
  cbn [mbind result_bind]. subst g2. do 3 f_equal.
  rewrite <- length_all_bins. apply map_const_replicate. intros l _.
  unfold lag_coef. apply b64_pearson_nan_zn. left.
  apply b64_silent_deviations, Forall_py_slice, Forall_replicate. by exists false.
Qed.

End PipelineFacts.

Lemma pair_signals_same_shape_witness :
  exists fr1 sh1 fr2 sh2 g',
    noise_corr_rates (fun a _ => a)
      (noise_corr_kwargs {[ "num_jitters" := PyInt 2; "bin_size" := PyFloat (B64.dec 1 1) ]})
      [B64.dec 1 1] [B64.dec 2 1; B64.dec 3 1] (B64.zero, B64.dec 5 1) (rng_const B64.zero)
    = Ok (fr1, sh1, fr2, sh2, g') /\
    length fr2 = length fr1 /\ length sh1 = 2.
Proof.
  set (o := noise_corr_kwargs {[ "num_jitters" := PyInt 2; "bin_size" := PyFloat (B64.dec 1 1) ]}).
  destruct (noise_corr_rates (fun a _ => a) o [B64.dec 1 1] [B64.dec 2 1; B64.dec 3 1]
              (B64.zero, B64.dec 5 1) (rng_const B64.zero))
    as [[[[[fr1 sh1] fr2] sh2] g']|e] eqn:E; [|vm_compute in E; discriminate E].
  exists fr1, sh1, fr2, sh2, g'. split; [reflexivity|].
  destruct (pair_signals_same_shape (fun a _ => a) o _ _ _ _ fr1 sh1 fr2 sh2 g'
              ltac:(reflexivity) E) as (H1 & _ & _ & _ & H5).
  split; [exact H1|exact H5].
Defined.

Lemma silent_cluster_all_nan_witness :
  noise_corr_compute (fun a _ => a) (fun a _ => a)
    (noise_corr_kwargs {[ "to_jitter" := PyBool false; "bin_num" := PyInt 1;
                          "bin_size" := PyFloat (B64.dec 1 1) ]})
    [] [B64.dec 1 1; B64.dec 3 1] (B64.zero, B64.dec 5 1) (rng_const B64.zero)
  = Ok (replicate 3 S754_nan, None, rng_const B64.zero).
Proof.
  set (o := noise_corr_kwargs {[ "to_jitter" := PyBool false; "bin_num" := PyInt 1;
                                 "bin_size" := PyFloat (B64.dec 1 1) ]}).
  destruct (get_firing_rate [B64.dec 1 1; B64.dec 3 1] (opt_bin_size o)
              (B64.sub B64.zero B64.zero) (B64.sub (B64.dec 5 1) B64.zero)
              false default_jitter_size 1 (rng_const B64.zero))
    as [[[fr2 sh2] g2]|e] eqn:E; [|vm_compute in E; discriminate E].
  assert (Hfr : length fr2 = 5 /\ g2 = rng_const B64.zero).
  { vm_compute in E. injection E as <- _ <-. by split. }
  destruct Hfr as [Hfr ->].
  apply (silent_cluster_all_nan (fun a _ => a) (fun a _ => a) o [] _
           (B64.zero, B64.dec 5 1) (rng_const B64.zero) fr2 sh2 (rng_const B64.zero)).
  - reflexivity.
  - reflexivity.
  - reflexivity.
  - exact E.
  - vm_compute. discriminate.
  - rewrite Hfr. vm_compute. reflexivity.
Defined.

(** * The file finder *)

Section FileFinder.
Import Ratemaps.

Lemma outcome_bind_Done {A B} (m : outcome A) (f : A -> outcome B) (b : B) :
  m ≫= f = Done b <-> exists a, m = Done a /\ f a = Done b.
Proof.
  destruct m as [a|e]; cbn; split.
  - intros Hf. by exists a.
  - by intros (a' & [= <-] & Hf).
  - intros [=].
  - by intros (a' & [=] & _).
Qed.

Lemma loop_inv {S X} (P : S -> Prop) (body : S -> X -> outcome S) (xs : list X) s s' :
  P s -> (forall s x s', x ∈ xs -> P s -> body s x = Done s' -> P s') ->
  loop body xs s = Done s' -> P s'.
Proof.
  revert s. induction xs as [|x xs IH]; intros s Hs Hbody Hrun; cbn in Hrun.
  - by injection Hrun as <-.
  - destruct (body s x) as [s1|e] eqn:E; [|done].
    apply (IH s1); [|intros s2 y s3 Hy; apply Hbody; by right|done].
    eapply Hbody; [by left|done|done].
Qed.

Lemma loop_total {S X} (body : S -> X -> outcome S) (xs : list X) s :
  (forall s x, x ∈ xs -> exists s', body s x = Done s') ->
  exists s', loop body xs s = Done s'.
Proof.
  revert s. induction xs as [|x xs IH]; intros s Hbody; cbn.
  - by exists s.
  - destruct (Hbody s x) as [s1 ->]; [by left|].
    apply IH. intros s2 y Hy. apply Hbody. by right.
Qed.

Lemma first_of_Done {A} (p : A -> bool) (xs : list A) (x : A) :
  first_of p xs = Done x -> x ∈ xs /\ p x = true.
Proof.
  unfold first_of. destruct (filter _ xs) as [|y ys] eqn:E; [done|].
  intros [= <-].
  assert (Hy : y ∈ filter (fun x => p x = true) xs) by (rewrite E; by left).
  apply list_elem_of_filter in Hy as [Hp Hin]. by split.
Qed.

Lemma bank_id_of_Done (animal_id file_name bank_id : string) :
  bank_id_of animal_id file_name = Done bank_id -> bank_named animal_id bank_id file_name.
Proof.
  unfold bank_id_of. case_bool_decide as Hb.
  - intros [= <-]. by left.
  - intros [Hin Hb']%first_of_Done. by right.
Qed.

Lemma date_passes_Done self animal name b :
  date_passes self animal name = Done b -> is_Some (specific_date self !! animal).
Proof. unfold date_passes. destruct (_ !! animal); [eauto|done]. Qed.

(** ** The clusters of interest *)

Lemma first_session_Some self animal bank files pkl_file :
  first_session self animal bank files = Done (Some pkl_file) ->
  pkl_file ∈ files /\ str_in animal pkl_file = true /\ str_in bank pkl_file = true.
Proof.
  induction files as [|f files IH]; [done|]. cbn [first_session].
  intros ([|] & Hm & Hrest)%outcome_bind_Done.
  - injection Hrest as <-. split; [by left|].
    unfold session_matches in Hm.
    destruct (str_in animal f), (str_in bank f); cbn in Hm; try done.
  - destruct (IH Hrest) as (? & ? & ?). split; [by right|done].
Qed.

Lemma first_session_None self animal bank r :
  first_session self animal bank [] = Done r -> r = None.
Proof. by intros [= <-]. Qed.

Lemma bank_pass_from_sessions w self animal d bank d' :
  from_sessions w d -> bank_pass w self animal d bank = Done d' -> from_sessions w d'.
Proof.
  intros Hd (files & Hfiles & Hrun)%outcome_bind_Done.
  unfold listdir_sessions in Hfiles.
  destruct (pkl_dir_exists w); [|done]. injection Hfiles as <-.
  apply outcome_bind_Done in Hrun as ([pkl|] & Hfirst & Hrest);
    [|by injection Hrest as <-].
  injection Hrest as <-.
  apply first_session_Some in Hfirst as (Hin & Ha & Hb).
  intros a banks b cl Hbanks Hcl.
  destruct (decide (a = animal)) as [->|Ha'].
  - rewrite lookup_insert_eq in Hbanks. injection Hbanks as <-.
    destruct (decide (b = bank)) as [->|Hb'].
    + rewrite lookup_insert_eq in Hcl. injection Hcl as <-. by exists pkl.
    + rewrite lookup_insert_ne in Hcl by done.
      rewrite lookup_total_alt in Hcl.
      destruct (d !! animal) as [banks0|] eqn:E; [|done].
      by apply (Hd animal banks0).
  - rewrite lookup_insert_ne in Hbanks by done. by apply (Hd a banks).
Qed.

Lemma animal_pass_from_sessions w self d entry d' :
  from_sessions w d -> animal_pass w self d entry = Done d' -> from_sessions w d'.
Proof.
  destruct entry as [animal banks]. intros Hd Hrun.
  eapply (loop_inv (from_sessions w)); [| |exact Hrun].
  - intros a bs b cl Hbs Hcl. destruct (decide (a = animal)) as [->|Ha].
    + rewrite lookup_insert_eq in Hbs. by injection Hbs as <-.
    + rewrite lookup_insert_ne in Hbs by done. by apply (Hd a bs).
  - intros s x s' _. apply bank_pass_from_sessions.
Qed.

Lemma collect_clusters_from_sessions w self d :
  collect_clusters w self = Done d -> from_sessions w d.
Proof.
  intros (animals & _ & Hrun)%outcome_bind_Done.
  eapply (loop_inv (from_sessions w)); [| |exact Hrun]; [done|].
  intros s x s' _. apply animal_pass_from_sessions.
Qed.

Lemma first_session_total self animal bank files :
  is_Some (specific_date self !! animal) ->
  exists r, first_session self animal bank files = Done r.
Proof.
  intros [dates Hdates]. induction files as [|f files IH]; [by eexists|].
  cbn [first_session]. unfold session_matches, date_passes. rewrite Hdates.
  destruct (_ && _ && _ && _); cbn.
  - destruct (passes_any dates f); [by eexists|done].
  - done.
Qed.

Lemma animal_pass_total w self d animal banks :
  pkl_dir_exists w = true ->
  is_Some (specific_date self !! animal) ->
  exists d', animal_pass w self d (animal, banks) = Done d'.
Proof.
  intros Hdir Hdates. cbn [animal_pass]. apply loop_total. intros s bank _.
  unfold bank_pass, listdir_sessions. rewrite Hdir. cbn [mbind outcome_bind].
  destruct (first_session_total self animal bank (pkl_sessions w) Hdates)
    as [[pkl|] ->]; cbn; by eexists.
Qed.

Lemma collect_clusters_total w self animals :
  pkl_dir_exists w = true ->
  dict_getitem areas_to_animals (area_filter self) = Done animals ->
  Forall (fun entry => is_Some (specific_date self !! entry.1)) animals ->
  exists d, collect_clusters w self = Done d.
Proof.
  intros Hdir Harea Hdates. unfold collect_clusters. rewrite Harea. cbn.
  apply loop_total. intros s [animal banks] Hin. apply animal_pass_total; [done|].
  by apply (proj1 (Forall_forall _ _) Hdates (animal, banks)).
Qed.

(** Every area of the table has an animal, and its first animal a bank. *)
Lemma areas_have_banks (area : string) animals :
  dict_getitem areas_to_animals area = Done animals ->
  exists animal bank banks rest, animals = (animal, bank :: banks) :: rest.
Proof.
  unfold areas_to_animals. cbn [dict_getitem].
  repeat (case_bool_decide; [intros [= <-]; by repeat eexists|]). done.
Qed.

(** Without a session directory the first listing raises. *)
Lemma collect_clusters_no_directory w self animals :
  pkl_dir_exists w = false ->
  dict_getitem areas_to_animals (area_filter self) = Done animals ->
  collect_clusters w self = Fail FileNotFoundError.
Proof.
  intros Hdir Harea. unfold collect_clusters. rewrite Harea. cbn [mbind outcome_bind].
  destruct (areas_have_banks _ _ Harea) as (animal & bank & banks & rest & ->).
  cbn [loop animal_pass]. unfold bank_pass at 1, listdir_sessions. by rewrite Hdir.
Qed.

(** ** The ratemap files *)

Lemma first_partner_Some self animal_id bank_id cluster_id session_2_type file_name
    files file_name_2 :
  first_partner self animal_id bank_id cluster_id session_2_type file_name files
  = Done (Some file_name_2) ->
  file_name <> file_name_2 /\ file_name_2 ∈ files /\
  str_in cluster_id file_name_2 = true /\ str_in session_2_type file_name_2 = true.
Proof.
  induction files as [|f files IH]; [done|]. cbn [first_partner].
  intros ([|] & Hm & Hrest)%outcome_bind_Done.
  - injection Hrest as <-. unfold partner_matches in Hm.
    case_bool_decide as Hne; cbn in Hm; [done|].
    destruct (str_in animal_id f), (str_in bank_id f), (str_in cluster_id f);
      cbn in Hm; try done.
    apply outcome_bind_Done in Hm as (dt & _ & [= Hm]).
    apply andb_true_iff in Hm as [_ Hs2]. repeat split; [done|by left|done].
  - destruct (IH Hrest) as (? & ? & ? & ?). repeat split; [done|by right|done|done].
Qed.

Lemma file_pass_Done w self seek session_2_type d found file_name found' :
  file_pass w self seek session_2_type d found file_name = Done found' ->
  found' = found \/
  (selected w self d file_name /\
   if seek
   then exists file_name_2,
          stability_pair w session_2_type file_name file_name_2 /\
          found' = {| chosen_session_1 := chosen_session_1 found ++ [file_name];
                      chosen_session_2 := chosen_session_2 found ++ [file_name_2] |}
   else found' = {| chosen_session_1 := chosen_session_1 found ++ [file_name];
                    chosen_session_2 := chosen_session_2 found |}).
Proof.
  unfold file_pass.
  destruct (passes_any (animal_filter self) file_name) eqn:Hf1; cbn [andb];
    [|intros [= <-]; by left].
  destruct (passes (session_id_filter self) file_name) eqn:Hf2; cbn [andb];
    [|intros [= <-]; by left].
  destruct (passes (session_type_filter self) file_name) eqn:Hf3;
    [|intros [= <-]; by left].
  intros (animal_id & [Ha1 Ha2]%first_of_Done & Hrun)%outcome_bind_Done.
  apply outcome_bind_Done in Hrun as (bank_id & Hbank%bank_id_of_Done & Hrun).
  apply outcome_bind_Done in Hrun as (date_ok & _ & Hrun).
  destruct (if date_ok then d !! animal_id ≫= (.!! bank_id) else None)
    as [clusters|] eqn:Hcl; [|injection Hrun as <-; by left].
  destruct date_ok; [|done].
  case_bool_decide as Hin; [|injection Hrun as <-; by left].
  assert (Hsel : selected w self d file_name).
  { repeat split; try done. by exists animal_id, bank_id, clusters. }
  destruct seek; cbn [negb] in Hrun.
  - apply outcome_bind_Done in Hrun as ([f2|] & Hp & Hrun);
      [|injection Hrun as <-; by left].
    injection Hrun as <-. right. split; [done|]. exists f2. split; [|done].
    by apply first_partner_Some in Hp.
  - injection Hrun as <-. right. by split.
Qed.

Lemma file_loop w self seek session_2_type d files found found' :
  loop (file_pass w self seek session_2_type d) files found = Done found' ->
  exists l1 l2,
    chosen_session_1 found' = chosen_session_1 found ++ l1 /\
    chosen_session_2 found' = chosen_session_2 found ++ l2 /\
    l1 `sublist_of` files /\ Forall (selected w self d) l1 /\
    (if seek then Forall2 (stability_pair w session_2_type) l1 l2 else l2 = []).
Proof.
  revert found. induction files as [|f files IH]; intros found Hrun; cbn in Hrun.
  - injection Hrun as <-. exists [], []. rewrite !app_nil_r.
    repeat split; [done|constructor|by destruct seek].
  - destruct (file_pass w self seek session_2_type d found f) as [found1|e] eqn:E; [|done].
    destruct (IH _ Hrun) as (l1 & l2 & H1 & H2 & Hsub & Hsel & Hpair).
    apply file_pass_Done in E as [->|[Hf E]].
    + exists l1, l2. repeat split; try done. by apply sublist_cons.
    + destruct seek.
      * destruct E as (f2 & Hf2 & ->). cbn in H1, H2.
        exists (f :: l1), (f2 :: l2). rewrite H1, H2, <- !app_assoc.
        repeat split; try done; [by apply sublist_skip|by constructor|by constructor].
      * subst found1. cbn in H1, H2. exists (f :: l1), l2.
        rewrite H1, H2, <- !app_assoc.
        repeat split; try done; [by apply sublist_skip|by constructor].
Qed.

Lemma file_finder_Done w self kwargs found :
  file_finder w self kwargs = Done found ->
  exists d,
    from_sessions w d /\ ratemap_dir_exists w = true /\
    chosen_session_1 found `sublist_of` ratemap_files w /\
    Forall (selected w self d) (chosen_session_1 found) /\
    (if kw_bool kwargs "seek_stability" false
     then Forall2 (stability_pair w (kw_str_or kwargs "session_2_type" "light"))
            (chosen_session_1 found) (chosen_session_2 found)
     else chosen_session_2 found = []).
Proof.
  unfold file_finder.
  intros (d & Hd%collect_clusters_from_sessions & Hrun)%outcome_bind_Done.
  destruct (ratemap_dir_exists w); [|done].
  apply file_loop in Hrun as (l1 & l2 & H1 & H2 & Hsub & Hsel & Hpair).
  cbn in H1, H2. rewrite H1, H2. by exists d.
Qed.

(** X24: when the area is one of the table, every animal of the area has
    an entry in [specific_date] (as with the default dates) and the ratemap
    directory does not exist, [file_finder] never returns: with a session
    directory it ends with [SystemExit], and without one the listing of
    line 109 raises [FileNotFoundError] before the ratemap directory is
    looked at. *)
Theorem missing_directory_raises w self kwargs animals :
  dict_getitem areas_to_animals (area_filter self) = Done animals ->
  Forall (fun entry => is_Some (specific_date self !! entry.1)) animals ->
  ratemap_dir_exists w = false ->
  file_finder w self kwargs
  = Fail (if pkl_dir_exists w then SystemExit else FileNotFoundError).
Proof.
  intros Harea Hdates Hdir. unfold file_finder.
  destruct (pkl_dir_exists w) eqn:Hpkl.
  - destruct (collect_clusters_total w self animals Hpkl Harea Hdates) as [d ->].
    cbn. by rewrite Hdir.
  - by rewrite (collect_clusters_no_directory w self animals Hpkl Harea).
Qed.

Lemma missing_directory_raises_witness :
  file_finder
    {| pkl_dir_exists := true;
       pkl_sessions := ["roy_s1_distal_light.pkl"];
       ratemap_dir_exists := false;
       ratemap_files := [];
       probe_site_animals := ["roy"; "bruno"];
       get_desired_clusters := fun _ => ["imec0_cl0001_ch010"] |}
    (init "M" ListTrue (StrIs "s1") StrTrue None) ∅
  = Fail SystemExit.
Proof.
  apply (missing_directory_raises
           {| pkl_dir_exists := true;
              pkl_sessions := ["roy_s1_distal_light.pkl"];
              ratemap_dir_exists := false;
              ratemap_files := [];
              probe_site_animals := ["roy"; "bruno"];
              get_desired_clusters := fun _ => ["imec0_cl0001_ch010"] |}
           (init "M" ListTrue (StrIs "s1") StrTrue None) ∅
           [("bruno", ["distal"]); ("roy", ["distal"; "intermediate"]);
            ("jacopo", ["distal"; "intermediate"]);
            ("crazyjoe", ["distal"; "intermediate"])]).
  - reflexivity.
  - repeat constructor; vm_compute; eauto.
  - reflexivity.
Defined.

(** X25: when stability is not sought ([seek_stability] absent, not a bool
    or False), the files of [chosen_session_1] are files of the ratemap
    directory in the order of its listing, each at most as often as it is
    listed, every one of them passes the animal, session-id and session-type
    filters, and [chosen_session_2] stays empty. *)
Theorem single_session_files w self kwargs found :
  kw_bool kwargs "seek_stability" false = false ->
  file_finder w self kwargs = Done found ->
  chosen_session_2 found = [] /\
  chosen_session_1 found `sublist_of` ratemap_files w /\
  Forall (fun file_name =>
            passes_any (animal_filter self) file_name = true /\
            passes (session_id_filter self) file_name = true /\
            passes (session_type_filter self) file_name = true)
    (chosen_session_1 found).
Proof.
  intros Hseek (d & _ & _ & Hsub & Hsel & H2)%file_finder_Done.
  rewrite Hseek in H2. repeat split; [done|done|].
  eapply Forall_impl; [exact Hsel|]. by intros f (? & ? & ? & _).
Qed.

Lemma single_session_files_witness :
  exists found,
    file_finder
      {| pkl_dir_exists := true;
         pkl_sessions := ["frank_010520_s1_distal_light.pkl"];
         ratemap_dir_exists := true;
         ratemap_files := ["frank_010520_s1_distal_light_imec0_cl0001_ch010.mat";
                           "frank_010520_s2_distal_dark_imec0_cl0001_ch010.mat";
                           "frank_010520_s1_distal_light_imec0_cl0002_ch011.mat"];
         probe_site_animals := ["frank"; "kavorka"];
         get_desired_clusters := fun _ => ["imec0_cl0001_ch010"] |}
      (init "V" ListTrue (StrIs "s1") StrTrue None) ∅
    = Done found /\
    chosen_session_2 found = [].
Proof.
  match goal with
  | |- exists found, file_finder ?w ?s ?k = Done found /\ _ =>
      destruct (file_finder w s k) as [found|e] eqn:E; [|vm_compute in E; discriminate E];
      exists found; split; [reflexivity|];
      destruct (single_session_files w s k found) as (H2 & _);
        [vm_compute; reflexivity|exact E|exact H2]
  end.
Defined.

(** X26: when stability is sought, the two lists have one length and go in
    pairs: the file of the second session differs from the file of the first,
    is a file of the ratemap directory, and has in its name the cluster id of
    the first file and the type of the second session; the files of the
    first session are in the order of the listing. *)
Theorem stability_files_in_pairs w self kwargs found :
  kw_bool kwargs "seek_stability" false = true ->
  file_finder w self kwargs = Done found ->
  length (chosen_session_1 found) = length (chosen_session_2 found) /\
  Forall2 (stability_pair w (kw_str_or kwargs "session_2_type" "light"))
    (chosen_session_1 found) (chosen_session_2 found) /\
  chosen_session_1 found `sublist_of` ratemap_files w.
Proof.
  intros Hseek (d & _ & _ & Hsub & _ & H2)%file_finder_Done.
  rewrite Hseek in H2. repeat split; [|done|done]. by eapply Forall2_length.
Qed.

Lemma stability_files_in_pairs_witness :
  exists found,
    file_finder
      {| pkl_dir_exists := true;
         pkl_sessions := ["frank_010520_s1_distal_light.pkl"];
         ratemap_dir_exists := true;
         ratemap_files := ["frank_010520_s1_distal_light_imec0_cl0001_ch010.mat";
                           "frank_010520_s2_distal_dark_imec0_cl0001_ch010.mat";
                           "frank_010520_s3_distal_light_imec0_cl0001_ch010.mat"];
         probe_site_animals := ["frank"; "kavorka"];
         get_desired_clusters := fun _ => ["imec0_cl0001_ch010"] |}
      (init "V" ListTrue (StrIs "s1") StrTrue None)
      {[ "seek_stability" := PyBool true ]}
    = Done found /\
    length (chosen_session_1 found) = length (chosen_session_2 found).
Proof.
  match goal with
  | |- exists found, file_finder ?w ?s ?k = Done found /\ _ =>
      destruct (file_finder w s k) as [found|e] eqn:E; [|vm_compute in E; discriminate E];
      exists found; split; [reflexivity|];
      destruct (stability_files_in_pairs w s k found) as (H1 & _);
        [vm_compute; reflexivity|exact E|exact H1]
  end.
Defined.

(** X27: every file that [file_finder] chooses names an animal of the probes
    and carries, in the 18 characters from [imec], the name of a cluster that
    [ClusterFinder] returned for a session file of the session directory
    whose name has that animal and the bank of the file. *)
Theorem chosen_cluster_from_session w self kwargs found file_name :
  file_finder w self kwargs = Done found ->
  file_name ∈ chosen_session_1 found ->
  exists animal bank pkl_file,
    animal ∈ probe_site_animals w /\ str_in animal file_name = true /\
    bank_named animal bank file_name /\
    pkl_file ∈ pkl_sessions w /\
    str_in animal pkl_file = true /\ str_in bank pkl_file = true /\
    cluster_id_of file_name ∈ get_desired_clusters w pkl_file.
Proof.
  intros (d & Hd & _ & _ & Hsel & _)%file_finder_Done Hin.
  apply (proj1 (Forall_forall _ _) Hsel) in Hin
    as (_ & _ & _ & animal & bank & clusters & Ha & Haf & Hbank & Hcl & Hid).
  destruct (d !! animal) as [banks|] eqn:Hbanks; [|done]. cbn in Hcl.
  destruct (Hd animal banks bank clusters Hbanks Hcl) as (pkl & Hp & Hpa & Hpb & ->).
  by exists animal, bank, pkl.
Qed.

Lemma chosen_cluster_from_session_witness :
  exists found file_name,
    file_finder
      {| pkl_dir_exists := true;
         pkl_sessions := ["frank_010520_s1_distal_light.pkl"];
         ratemap_dir_exists := true;
         ratemap_files := ["frank_010520_s1_distal_light_imec0_cl0001_ch010.mat"];
         probe_site_animals := ["frank"; "kavorka"];
         get_desired_clusters := fun _ => ["imec0_cl0001_ch010"] |}
      (init "V" ListTrue (StrIs "s1") StrTrue None) ∅
    = Done found /\
    file_name ∈ chosen_session_1 found /\
    exists animal, str_in animal file_name = true.
Proof.
  match goal with
  | |- exists found file_name, file_finder ?w ?s ?k = Done found /\ _ =>
      destruct (file_finder w s k) as [found|e] eqn:E; [|vm_compute in E; discriminate E];
      assert (Hin : "frank_010520_s1_distal_light_imec0_cl0001_ch010.mat"
                    ∈ chosen_session_1 found)
        by (vm_compute in E; injection E as <-; by left);
      exists found, "frank_010520_s1_distal_light_imec0_cl0001_ch010.mat";
      split; [reflexivity|]; split; [exact Hin|];
      destruct (chosen_cluster_from_session w s k found _ E Hin)
        as (animal & _ & _ & _ & Ha & _);
      exists animal; exact Ha
  end.
Defined.

(** X28: with no session file in the session directory no cluster is
    collected, and [file_finder], when it returns, has found no file. *)
Theorem no_sessions_nothing_found w self kwargs found :
  pkl_sessions w = [] ->
  file_finder w self kwargs = Done found ->
  chosen_session_1 found = [] /\ chosen_session_2 found = [].
Proof.
  intros Hnil (d & Hd & _ & _ & Hsel & H2)%file_finder_Done.
  assert (H1 : chosen_session_1 found = []).
  { destruct (chosen_session_1 found) as [|f l]; [done|].
    apply Forall_cons in Hsel
      as [(_ & _ & _ & animal & bank & clusters & _ & _ & _ & Hcl & _) _].
    destruct (d !! animal) as [banks|] eqn:Hbanks; [|done]. cbn in Hcl.
    destruct (Hd animal banks bank clusters Hbanks Hcl) as (pkl & Hp & _).
    rewrite Hnil in Hp. by apply not_elem_of_nil in Hp. }
  split; [done|].
  destruct (kw_bool kwargs "seek_stability" false); [|done].
  rewrite H1 in H2. by apply Forall2_nil_inv_l in H2.
Qed.

Lemma no_sessions_nothing_found_witness :
  exists found,
    file_finder
      {| pkl_dir_exists := true;
         pkl_sessions := [];
         ratemap_dir_exists := true;
         ratemap_files := ["frank_010520_s1_distal_light_imec0_cl0001_ch010.mat"];
         probe_site_animals := ["frank"; "kavorka"];
         get_desired_clusters := fun _ => ["imec0_cl0001_ch010"] |}
      (init "V" ListTrue (StrIs "s1") StrTrue None) ∅
    = Done found /\
    chosen_session_1 found = [].
Proof.
  match goal with
  | |- exists found, file_finder ?w ?s ?k = Done found /\ _ =>
      destruct (file_finder w s k) as [found|e] eqn:E; [|vm_compute in E; discriminate E];
      exists found; split; [reflexivity|];
      destruct (no_sessions_nothing_found w s k found) as (H1 & _);
        [reflexivity|exact E|exact H1]
  end.
Defined.

End FileFinder.

(** * The length of the correlograms, with and without jitter *)

Lemma for_each_total {S X} (P : S -> Prop) (body : S -> X -> result S) (xs : list X) :
  (forall s x, x ∈ xs -> P s -> exists s', body s x = Ok s' /\ P s') ->
  forall s, P s -> exists s', for_each body xs s = Ok s' /\ P s'.
Proof.
  induction xs as [|x xs IH]; intros Hbody s Hs; cbn [for_each].
  - by exists s.
  - destruct (Hbody s x) as (s1 & -> & Hs1); [by left|done|].
    apply IH; [|done]. intros s2 y Hy. apply Hbody. by right.
Qed.

Section JitterReturns.
Context {F : Type} `{Arith F}.

(** The loop over the lags of pass [sh] returns when the loop without jitter
    returns for the rows [sh] of the two ensembles and, in pass 0, for the
    two signals. *)
Lemma lag_pass_sh_Ok (fr1 : list F) sh1 (fr2 : list F) sh2 bin_num sh r1 r2 its :
  sh1 !! sh = Some r1 -> sh2 !! sh = Some r2 -> length r1 = length fr1 ->
  forall big_x y big_x_sh y_sh big_x' y' big_x_sh' y_sh',
    (if bool_decide (sh = 0)
     then for_each (lag_pass fr1 fr2 bin_num) its (big_x, y)
     else Ok (big_x, y)) = Ok (big_x', y') ->
    for_each (lag_pass r1 r2 bin_num) its (big_x_sh, y_sh) = Ok (big_x_sh', y_sh') ->
    for_each (lag_pass_sh fr1 sh1 fr2 sh2 bin_num sh) its (big_x, y, big_x_sh, y_sh)
    = Ok (big_x', y', big_x_sh', y_sh').
Proof.
  intros Hr1 Hr2 Hlen. induction its as [|[bin_idx one_bin] its IH];
    intros big_x y big_x_sh y_sh big_x' y' big_x_sh' y_sh' Hreal Hrep;
    cbn [for_each] in Hreal, Hrep |- *.
  - injection Hrep as <- <-. destruct (bool_decide (sh = 0)); by injection Hreal as <- <-.
  - destruct (lag_pass r1 r2 bin_num (big_x_sh, y_sh) (bin_idx, one_bin))
      as [[bxs1 ys1]|e] eqn:Hstep_rep; [|done].
    unfold lag_pass in Hstep_rep. rewrite Hlen in Hstep_rep.
    apply bind_Ok in Hstep_rep as (bxs2 & Hbxs2 & Hstep_rep).
    destruct (decide (sh = 0)) as [->|Hsh].
    + rewrite bool_decide_eq_true_2 in Hreal by done.
      destruct (lag_pass fr1 fr2 bin_num (big_x, y) (bin_idx, one_bin))
        as [[bx1 y1]|e] eqn:Hstep_real; [|done].
      assert (Hstep : lag_pass_sh fr1 sh1 fr2 sh2 bin_num 0 (big_x, y, big_x_sh, y_sh)
                        (bin_idx, one_bin) = Ok (bx1, y1, bxs1, ys1)).
      { unfold lag_pass in Hstep_real.
        apply bind_Ok in Hstep_real as (bx2 & Hbx2 & Hstep_real).
        unfold lag_pass_sh, get_row. rewrite (bool_decide_eq_true_2 (0 = 0)) by done.
        rewrite Hbx2, Hr1. cbn [mbind result_bind]. rewrite Hbxs2.
        cbn [mbind result_bind]. rewrite Hr2.
        destruct (bool_decide (bin_idx = 0)); cbn [mbind result_bind];
          injection Hstep_real as <- <-; injection Hstep_rep as <- <-; done. }
      rewrite Hstep. apply IH; [by rewrite bool_decide_eq_true_2|done].
    + rewrite bool_decide_eq_false_2 in Hreal by done. injection Hreal as <- <-.
      assert (Hstep : lag_pass_sh fr1 sh1 fr2 sh2 bin_num sh (big_x, y, big_x_sh, y_sh)
                        (bin_idx, one_bin) = Ok (big_x, y, bxs1, ys1)).
      { unfold lag_pass_sh, get_row. rewrite (bool_decide_eq_false_2 (sh = 0)) by done.
        rewrite Hr1. cbn [mbind result_bind]. rewrite Hbxs2.
        cbn [mbind result_bind]. rewrite Hr2.
        destruct (bool_decide (bin_idx = 0)); cbn [mbind result_bind];
          injection Hstep_rep as <- <-; done. }
      rewrite Hstep. apply IH; [by rewrite bool_decide_eq_false_2|done].
Qed.

(** Pass [sh] returns: it writes the correlogram of the rows [sh] into row
    [sh] of [sh_data] and, in pass 0, computes [data]. *)
Lemma shuffle_pass_Ok (fr1 : list F) sh1 (fr2 : list F) sh2 bin_num sh r1 r2 d row old
    big_x y data sh_data :
  sh1 !! sh = Some r1 -> sh2 !! sh = Some r2 -> length r1 = length fr1 ->
  correlate_real r1 r2 bin_num = Ok row ->
  correlate_real fr1 fr2 bin_num = Ok d ->
  (sh = 0 ->
   np_zeros2 (Z.of_nat (length (all_bins bin_num)))
     (Z.of_nat (length fr1) - bin_num - bin_num) = Ok big_x /\
   np_zeros (Z.of_nat (length fr1) - bin_num - bin_num) = Ok y) ->
  sh_data !! sh = Some old -> length old = length row ->
  exists big_x' y',
    shuffle_pass fr1 sh1 fr2 sh2 bin_num (big_x, y, data, sh_data) sh
    = Ok (big_x', y', if bool_decide (sh = 0) then Some d else data, <[sh := row]> sh_data).
Proof.
  intros Hr1 Hr2 Hlen Hrow Hd Hfirst Hold Hlo.
  unfold correlate_real in Hrow. rewrite Hlen in Hrow.
  apply bind_Ok in Hrow as (bxs & Hbxs & Hrow).
  apply bind_Ok in Hrow as (ys & Hys & Hrow).
  apply bind_Ok in Hrow as ([bxs' ys'] & Hrep & Hcc).
  unfold shuffle_pass. rewrite Hbxs. cbn [mbind result_bind].
  rewrite Hys. cbn [mbind result_bind].
  destruct (decide (sh = 0)) as [->|Hsh].
  - destruct (Hfirst eq_refl) as [Hbx Hy].
    unfold correlate_real in Hd. rewrite Hbx in Hd. cbn [mbind result_bind] in Hd.
    rewrite Hy in Hd. cbn [mbind result_bind] in Hd.
    apply bind_Ok in Hd as ([bx' y'] & Hreal & Hdcc).
    exists bx', y'.
    rewrite (lag_pass_sh_Ok fr1 sh1 fr2 sh2 bin_num 0 r1 r2 _ Hr1 Hr2 Hlen
               big_x y bxs ys bx' y' bxs' ys');
      [|by rewrite bool_decide_eq_true_2|done].
    cbn [mbind result_bind]. rewrite !bool_decide_eq_true_2 by done.
    rewrite Hdcc. cbn [mbind result_bind]. rewrite Hcc. cbn [mbind result_bind].
    by rewrite (set_row_Ok sh_data 0 old row) by done.
  - exists big_x, y.
    rewrite (lag_pass_sh_Ok fr1 sh1 fr2 sh2 bin_num sh r1 r2 _ Hr1 Hr2 Hlen
               big_x y bxs ys big_x y bxs' ys');
      [|by rewrite bool_decide_eq_false_2|done].
    cbn [mbind result_bind]. rewrite !bool_decide_eq_false_2 by done.
    cbn [mbind result_bind]. rewrite Hcc. cbn [mbind result_bind].
    by rewrite (set_row_Ok sh_data sh old row) by done.
Qed.

(** The cross-correlation with jitter returns for ensembles of at least
    [num_jitters] rows as long as the signals. *)
Lemma noise_corr_cross_jitter_Ok (num_jitters bin_num : Z)
    (fr1 : list F) sh1 (fr2 : list F) sh2 :
  (0 <= bin_num)%Z -> (2 * bin_num < Z.of_nat (length fr1))%Z -> length fr2 = length fr1 ->
  (0 < num_jitters)%Z ->
  Z.to_nat num_jitters <= length sh1 -> Z.to_nat num_jitters <= length sh2 ->
  Forall (fun row => length row = length fr1) sh1 ->
  Forall (fun row => length row = length fr1) sh2 ->
  exists sh_data,
    noise_corr_cross true num_jitters bin_num fr1 sh1 fr2 sh2
    = Ok (map (lag_coef fr1 fr2 bin_num) (all_bins bin_num), Some sh_data).
Proof.
  intros Hbn Hlen Hfr2 HN Hsh1 Hsh2 Hrows1 Hrows2.
  set (L := length (all_bins bin_num)).
  set (d := map (lag_coef fr1 fr2 bin_num) (all_bins bin_num)).
  assert (Hd : correlate_real fr1 fr2 bin_num = Ok d) by by apply correlate_real_Ok.
  assert (Hpass : forall sh big_x y data sh_data,
            sh < Z.to_nat num_jitters ->
            (sh = 0 ->
             np_zeros2 (Z.of_nat L) (Z.of_nat (length fr1) - bin_num - bin_num) = Ok big_x /\
             np_zeros (Z.of_nat (length fr1) - bin_num - bin_num) = Ok y) ->
            rows_of_lags bin_num sh_data /\ length sh_data = Z.to_nat num_jitters ->
            exists big_x' y' sh_data',
              shuffle_pass fr1 sh1 fr2 sh2 bin_num (big_x, y, data, sh_data) sh
              = Ok (big_x', y', if bool_decide (sh = 0) then Some d else data, sh_data') /\
              rows_of_lags bin_num sh_data' /\ length sh_data' = Z.to_nat num_jitters).
  { intros sh big_x y data sh_data Hsh Hfirst [Hshape Hcount].
    destruct (lookup_lt_is_Some_2 sh1 sh) as [r1 Hr1]; [lia|].
    destruct (lookup_lt_is_Some_2 sh2 sh) as [r2 Hr2]; [lia|].
    destruct (lookup_lt_is_Some_2 sh_data sh) as [old Hold]; [lia|].
    assert (Hl1 : length r1 = length fr1)
      by exact (Forall_lookup_1 _ sh1 sh r1 Hrows1 Hr1).
    assert (Hl2 : length r2 = length fr1)
      by exact (Forall_lookup_1 _ sh2 sh r2 Hrows2 Hr2).
    assert (Hlo : length old = L) by exact (Forall_lookup_1 _ sh_data sh old Hshape Hold).
    assert (Hrow : correlate_real r1 r2 bin_num
                   = Ok (map (lag_coef r1 r2 bin_num) (all_bins bin_num)))
      by (apply correlate_real_Ok; [done|rewrite Hl1; done|congruence]).
    destruct (shuffle_pass_Ok fr1 sh1 fr2 sh2 bin_num sh r1 r2 d _ old big_x y data sh_data
                Hr1 Hr2 Hl1 Hrow Hd Hfirst Hold) as (bx' & y' & Hstep);
      [by rewrite length_map|].
    exists bx', y', (<[sh := map (lag_coef r1 r2 bin_num) (all_bins bin_num)]> sh_data).
    split; [done|]. split; [|by rewrite length_insert].
    apply Forall_insert; [done|]. by rewrite length_map. }
  unfold noise_corr_cross. fold L.
  rewrite np_zeros2_gen_Ok by lia. cbn [mbind result_bind].
  rewrite np_zeros_gen_Ok by lia. cbn [mbind result_bind].
  rewrite np_zeros2_gen_Ok by lia. cbn [mbind result_bind].
  set (big_x0 := replicate (Z.to_nat (Z.of_nat L))
                   (replicate (Z.to_nat (Z.of_nat (length fr1) - bin_num - bin_num)) fzero)).
  set (y0 := replicate (Z.to_nat (Z.of_nat (length fr1) - bin_num - bin_num)) fzero).
  set (sh0 := replicate (Z.to_nat num_jitters) (replicate (Z.to_nat (Z.of_nat L)) fzero)).
  destruct (Z.to_nat num_jitters) as [|k] eqn:Hk; [lia|].
  cbn [seq for_each].
  destruct (Hpass 0 big_x0 y0 None sh0) as (bx1 & y1 & shd1 & Hstep & Hshape1 & Hcount1).
  - lia.
  - intros _. split; [by apply np_zeros2_gen_Ok; lia|by apply np_zeros_gen_Ok; lia].
  - split; [|apply length_replicate].
    apply Forall_replicate. rewrite length_replicate. fold L. lia.
  - rewrite Hstep. rewrite bool_decide_eq_true_2 by done.
    destruct (for_each_total
                (fun s : list (list F) * list F * option (list F) * list (list F) =>
                   snd (fst s) = Some d /\ rows_of_lags bin_num (snd s) /\
                   length (snd s) = S k)
                (shuffle_pass fr1 sh1 fr2 sh2 bin_num) (seq 1 k))
      with (s := (bx1, y1, Some d, shd1)) as ([[[bx2 y2] d2] shd2] & Hloop & Hd2 & _).
    + intros [[[bx y] dat] shd] sh Hin%elem_of_seq (Hdat & Hshape & Hcount).
      cbn [fst snd] in *. subst dat.
      destruct (Hpass sh bx y (Some d) shd) as (bx' & y' & shd' & Hs & Hshape' & Hcount');
        [lia|lia|done|].
      rewrite bool_decide_eq_false_2 in Hs by lia.
      by exists (bx', y', Some d, shd').
    + done.
    + rewrite Hloop. cbn [mbind result_bind]. cbn [fst snd] in Hd2. subst d2.
      by exists shd2.
Qed.

End JitterReturns.

(** C5: for two signals of one length above [2*bin_num] (and, with jitter,
    at least one jitter and ensembles of at least [num_jitters] rows as long
    as the signals), the cross-correlation of noise_corr returns, with and
    without jitter: [data] has [2*bin_num+1] coefficients, the one at
    position [bin_num + l] being that of lag [l], and with jitter [sh_data]
    has [num_jitters] rows of [2*bin_num+1] coefficients. *)
Theorem correlogram_length {F : Type} `{Arith F} (to_jitter : bool)
    (num_jitters bin_num : Z)
    (fr1 : list F) (sh1 : list (list F)) (fr2 : list F) (sh2 : list (list F)) :
  (0 <= bin_num)%Z -> (2 * bin_num < Z.of_nat (length fr1))%Z -> length fr2 = length fr1 ->
  (to_jitter = true ->
   (0 < num_jitters)%Z /\
   Z.to_nat num_jitters <= length sh1 /\ Z.to_nat num_jitters <= length sh2 /\
   Forall (fun row => length row = length fr1) sh1 /\
   Forall (fun row => length row = length fr1) sh2) ->
  exists data sh_data,
    noise_corr_cross to_jitter num_jitters bin_num fr1 sh1 fr2 sh2 = Ok (data, sh_data) /\
    Z.of_nat (length data) = (2 * bin_num + 1)%Z /\
    (forall l, (- bin_num <= l <= bin_num)%Z ->
               data !! Z.to_nat (bin_num + l) = Some (lag_coef fr1 fr2 bin_num l)) /\
    match sh_data with
    | Some rows =>
        to_jitter = true /\ length rows = Z.to_nat num_jitters /\
        Forall (fun row => Z.of_nat (length row) = (2 * bin_num + 1)%Z) rows
    | None => to_jitter = false
    end.
Proof.
  intros Hbn Hlen Hfr2 Hjit.
  assert (Hdata : Z.of_nat (length (map (lag_coef fr1 fr2 bin_num) (all_bins bin_num)))
                  = (2 * bin_num + 1)%Z)
    by (rewrite length_map, length_all_bins; lia).
  destruct to_jitter.
  - destruct (Hjit eq_refl) as (HN & Hsh1 & Hsh2 & Hrows1 & Hrows2).
    destruct (noise_corr_cross_jitter_Ok num_jitters bin_num fr1 sh1 fr2 sh2
                Hbn Hlen Hfr2 HN Hsh1 Hsh2 Hrows1 Hrows2) as [sh_data Hrun].
    exists (map (lag_coef fr1 fr2 bin_num) (all_bins bin_num)), (Some sh_data).
    split; [done|]. split; [done|]. split; [intros l Hl; by apply lookup_lag_coef|].
    destruct (shuffle_correlograms_length _ _ _ _ _ _ _ _ Hrun) as (_ & Hrows & Hcount).
    split; [done|]. split; [done|].
    eapply Forall_impl; [exact Hrows|]. intros row ->. rewrite length_all_bins. lia.
  - exists (map (lag_coef fr1 fr2 bin_num) (all_bins bin_num)), None.
    split; [|split; [done|split; [intros l Hl; by apply lookup_lag_coef|done]]].
    unfold noise_corr_cross. by rewrite correlate_real_Ok.
Qed.

(** The signals of the spike trains [0.1, 0.2, 0.31] and [0.1, 0.2, 0.3] at
    10 ms bins over 0.4 s with two jittered replicates each, and
    [bin_num = 2]. *)
Lemma correlogram_length_witness :
  exists data rows,
    noise_corr_cross true 2 2 (marks 40 [10; 20; 31])
      [marks 40 [10; 21; 31]; marks 40 [9; 20; 30]]
      (marks 40 [10; 20; 30])
      [marks 40 [11; 20; 30]; marks 40 [10; 19; 31]] = Ok (data, Some rows) /\
    length data = 5 /\ length rows = 2.
Proof.
  destruct (correlogram_length true 2 2 (marks 40 [10; 20; 31])
              [marks 40 [10; 21; 31]; marks 40 [9; 20; 30]]
              (marks 40 [10; 20; 30])
              [marks 40 [11; 20; 30]; marks 40 [10; 19; 31]])
    as (data & sh_data & Hrun & Hlen & _ & Hrows).
  - lia.
  - rewrite length_marks. lia.
  - by rewrite !length_marks.
  - intros _. split; [lia|]. split; [cbn; lia|]. split; [cbn; lia|].
    split; repeat constructor; by rewrite !length_marks.
  - destruct sh_data as [rows|]; [|discriminate Hrows].
    destruct Hrows as (_ & Hcount & _).
    exists data, rows. split; [exact Hrun|]. split; [lia|exact Hcount].
Defined.
